(** * pyp: a line-oriented template processor

    Shallow embedding of [pyp.py].  Python 2 [str] values are byte strings and
    are modelled by [string] (a list of 8-bit [ascii]); Python integers by [Z];
    the generated-line to source-line dictionary by a [gmap Z Z]. *)

From Stdlib Require Import ZArith Ascii String DecimalString.
From stdpp Require Import gmap strings list.

Local Open Scope string_scope.
Local Open Scope Z_scope.

(** ** Byte-string primitives *)

Module Str.

Fixpoint drop (n : nat) (s : string) : string :=
  match n, s with
  | O, _ => s
  | S k, String _ s' => drop k s'
  | S _, EmptyString => EmptyString
  end.

(** [old in s] for a substring [old]. *)
Fixpoint contains (old s : string) : bool :=
  String.prefix old s ||
  match s with
  | EmptyString => false
  | String _ s' => contains old s'
  end.

(** [s.replace(old, new)] for a non-empty [old]: leftmost, non-overlapping
    occurrences.  [skip] counts the bytes of an occurrence that are still
    to be passed over. *)
Fixpoint replace_from (old new : string) (skip : nat) (s : string) : string :=
  match s with
  | EmptyString => EmptyString
  | String c s' =>
      match skip with
      | S k => replace_from old new k s'
      | O =>
          if String.prefix old s
          then new +:+ replace_from old new (String.length old - 1) s'
          else String c (replace_from old new 0 s')
      end
  end.

Definition replace (old new s : string) : string := replace_from old new 0 s.

(** [s.replace(old, new, 1)]: only the leftmost occurrence. *)
Fixpoint replace_first (old new s : string) : string :=
  match s with
  | EmptyString => EmptyString
  | String c s' =>
      if String.prefix old s
      then new +:+ drop (String.length old) s
      else String c (replace_first old new s')
  end.

(** [s.count(c)] for a one-byte [c]. *)
Fixpoint count_char (c : ascii) (s : string) : nat :=
  match s with
  | EmptyString => O
  | String d s' => (if Ascii.eqb c d then 1 else 0) + count_char c s'
  end.

(** [s.split(c)] for a one-byte separator. *)
Fixpoint split_char (c : ascii) (s : string) : list string :=
  match s with
  | EmptyString => [EmptyString]
  | String d s' =>
      if Ascii.eqb c d then EmptyString :: split_char c s'
      else match split_char c s' with
           | [] => [String d EmptyString]
           | w :: ws => String d w :: ws
           end
  end.

(** [sep.join(ls)] *)
Definition join (sep : string) (ls : list string) : string := String.concat sep ls.

(** [s * n] *)
Fixpoint times (s : string) (n : nat) : string :=
  match n with
  | O => EmptyString
  | S k => s +:+ times s k
  end.

(** ["%d" % z] *)
Definition of_Z (z : Z) : string := NilZero.string_of_int (Z.to_int z).

End Str.

Import Str.

Definition LF : ascii := Ascii.ascii_of_nat 10.
Definition NL : string := String LF EmptyString.
Definition BACKSLASH : ascii := Ascii.ascii_of_nat 92.
Definition SQUOTE : ascii := Ascii.ascii_of_nat 39.
Definition DQUOTE : ascii := Ascii.ascii_of_nat 34.

(** ** Regular expressions of the source, as matching functions *)

Module Re.

(** "\s" on byte strings: space, [\t], [\n], [\v], [\f], [\r]. *)
Definition is_space (c : ascii) : bool :=
  let n := Ascii.nat_of_ascii c in
  (Nat.eqb n 32 || (Nat.leb 9 n && Nat.leb n 13))%bool.

(** The rest of [s] after a greedy "\s*". *)
Fixpoint skip_space (s : string) : string :=
  match s with
  | String c s' => if is_space c then skip_space s' else s
  | EmptyString => EmptyString
  end.

(** Length of the text matched by an anchored greedy "\s*". *)
Fixpoint leading_space (s : string) : nat :=
  match s with
  | String c s' => if is_space c then S (leading_space s') else O
  | EmptyString => O
  end.

(** Text matched by an anchored greedy dot-star (no newline). *)
Fixpoint dot_star (s : string) : string :=
  match s with
  | String c s' => if Ascii.eqb c LF then EmptyString else String c (dot_star s')
  | EmptyString => EmptyString
  end.

(** Text matched by an anchored dot-star-colon: up to the last colon of the first
    physical line, or no match. *)
Fixpoint dot_star_colon (s : string) : option string :=
  match s with
  | EmptyString => None
  | String c s' =>
      if Ascii.eqb c LF then None
      else match dot_star_colon s' with
           | Some m => Some (String c m)
           | None => if Ascii.eqb c ":" then Some (String c EmptyString) else None
           end
  end.

(** After "\s*%\s*": the rest of the string, when the prefix matches. *)
Definition percent_prefix (s : string) : option string :=
  match skip_space s with
  | String "%" r => Some (skip_space r)
  | _ => None
  end.

(** The alternation [(k1|k2|...)] followed by dot-star-colon, anchored: the first
    alternative for which the whole pattern matches.  Gives groups 1 and 2. *)
Fixpoint keyword_colon (keys : list string) (s : string) : option (string * string) :=
  match keys with
  | [] => None
  | k :: keys' =>
      if String.prefix k s then
        match dot_star_colon (drop (String.length k) s) with
        | Some m => Some (k +:+ m, k)
        | None => keyword_colon keys' s
        end
      else keyword_colon keys' s
  end.

(** The alternation [(k1|k2|...)] anchored, nothing required after it. *)
Fixpoint keyword (keys : list string) (s : string) : option string :=
  match keys with
  | [] => None
  | k :: keys' => if String.prefix k s then Some k else keyword keys' s
  end.

Fixpoint all_space (s : string) : bool :=
  match s with
  | EmptyString => true
  | String c s' => is_space c && all_space s'
  end.

End Re.

(** ** Module-level helpers *)

(** Turns a backslash into two, ['] into [\'] and ["] into [\"], in that order. *)
Definition escape_quotes (s : string) : string :=
  replace (String DQUOTE "") (String BACKSLASH (String DQUOTE ""))
    (replace (String SQUOTE "") (String BACKSLASH (String SQUOTE ""))
       (replace (String BACKSLASH "") (String BACKSLASH (String BACKSLASH "")) s)).

Definition escape_percent (s : string) : string := replace "%" "%%" s.

(** ** class PythonLine *)

Record PythonLine : Type := mkPythonLine {
  line_string : string;
  noindent : bool;
  indent_levels : nat
}.

Definition INDENT : string := "    ".

(** [PythonLine(string, noindent=False)] *)
Definition PythonLine_init (s : string) (ni : bool) : PythonLine :=
  mkPythonLine s ni 0.

(** if "noindent" set, this method doesn't do anything *)
Definition set_indent (l : PythonLine) (indent_level : nat) : PythonLine :=
  if noindent l then l
  else mkPythonLine (line_string l) (noindent l) indent_level.

Definition get_indented (l : PythonLine) : string :=
  times INDENT (indent_levels l) +:+ line_string l.

(** ** class ParseError, and the other exception the parser can raise *)

Inductive Exn : Type :=
| ParseError (text line : string) (linenum : Z)
| IndexError.   (* [lines.pop(0)] on an empty list *)

Inductive Result (A : Type) : Type :=
| Ok (a : A)
| Raise (e : Exn)
| OutOfFuel.
Arguments Ok {A} a.
Arguments Raise {A} e.
Arguments OutOfFuel {A}.

Definition ParseError_str (text line : string) (linenum : Z) : string :=
  join NL ["Line " +:+ of_Z linenum; "Line: " +:+ line; text].

(** ** class PythonSequence: the class-level constants *)

(** The keys of [CONTROL_TAGS].  No key is a prefix of another one, so the
    order of the alternation does not matter. *)
Definition python_startblock_keywords : list string :=
  ["for"; "if"; "try"; "while"; "def"; "pypdef"; "class"; "with"].

Definition MIDDLE2START_MAP (middle : string) : option string :=
  if String.eqb middle "elif" then Some "if"
  else if String.eqb middle "else" then Some "if"
  else if String.eqb middle "except" then Some "try"
  else if String.eqb middle "finally" then Some "try"
  else None.

Definition middle_keywords : list string := ["elif"; "else"; "except"; "finally"].

Definition DUMMYTEXT : string := "DUMMYTEXT".
Definition PYP_COMMENT : string := "##".

(** The pattern "\s*%\s*((for|if|...).*:)", anchored at the start: groups 1 and 2. *)
Definition CONTROL_START_REGEX (line : string) : option (string * string) :=
  match Re.percent_prefix line with
  | Some r => Re.keyword_colon python_startblock_keywords r
  | None => None
  end.

(** The pattern "\s*%\s*((elif|else|...).*:)": groups 1 and 2. *)
Definition CONTROL_MIDDLE_REGEX (line : string) : option (string * string) :=
  match Re.percent_prefix line with
  | Some r => Re.keyword_colon middle_keywords r
  | None => None
  end.

(** The pattern "\s*%\s*end(for|if|...)": group 1. *)
Definition CONTROL_END_REGEX (line : string) : option string :=
  match Re.percent_prefix line with
  | Some r =>
      if String.prefix "end" r then Re.keyword python_startblock_keywords (drop 3 r)
      else None
  | None => None
  end.

(** The pattern "\s*%\s*" followed by one group that is a greedy dot-star:
    group 1. *)
Definition NORMAL_PYTHON_LINE_REGEX (line : string) : option string :=
  match Re.percent_prefix line with
  | Some r => Some (Re.dot_star r)
  | None => None
  end.

(** The pattern "\s*<%". *)
Definition PYTHON_BLOCK_START_REGEX (line : string) : bool :=
  String.prefix "<%" (Re.skip_space line).

(** The pattern "\s*%>". *)
Definition PYTHON_BLOCK_END_REGEX (line : string) : bool :=
  String.prefix "%>" (Re.skip_space line).

(** The pattern "\s*##". *)
Definition PYP_COMMENT_REGEX (line : string) : bool :=
  String.prefix PYP_COMMENT (Re.skip_space line).

(** The pattern "DUMMYTEXT\s*$": the dollar also matches before a final newline, which "\s*"
    can swallow, so the rest must be white space and nothing else. *)
Definition DUMMYTEXT_REGEX (line : string) : bool :=
  String.prefix DUMMYTEXT line && Re.all_space (drop (String.length DUMMYTEXT) line).

(** The pattern "\${(?P<inner>.*?)}" with DOTALL, anchored: the inner text of a match
    starting at the first byte of [s]. *)
Fixpoint until_brace (s : string) : option string :=
  match s with
  | EmptyString => None
  | String c s' =>
      if Ascii.eqb c "}" then Some EmptyString
      else match until_brace s' with
           | Some m => Some (String c m)
           | None => None
           end
  end.

Definition EXPR_REGEX_match (s : string) : option string :=
  match s with
  | String "$" (String "{" r) => until_brace r
  | _ => None
  end.

(** The successive matches of [EXPR_REGEX] in [s], left to right and
    non-overlapping: each with the unmatched text before it, and the
    unmatched text after the last one.  [skip] counts the bytes of the
    current match still to be passed over. *)
Definition cons_text (c : ascii) (r : list (string * string) * string)
  : list (string * string) * string :=
  match r with
  | ([], tl) => ([], String c tl)
  | ((t, e) :: segs, tl) => ((String c t, e) :: segs, tl)
  end.

Fixpoint EXPR_REGEX_scan_from (skip : nat) (s : string)
  : list (string * string) * string :=
  match s with
  | EmptyString => ([], EmptyString)
  | String c s' =>
      match skip with
      | S k => EXPR_REGEX_scan_from k s'
      | O =>
          match EXPR_REGEX_match s with
          | Some inner =>
              let (segs, tl) := EXPR_REGEX_scan_from (String.length inner + 2) s' in
              ((EmptyString, inner) :: segs, tl)
          | None => cons_text c (EXPR_REGEX_scan_from 0 s')
          end
      end
  end.

Definition EXPR_REGEX_scan (s : string) : list (string * string) * string :=
  EXPR_REGEX_scan_from 0 s.

(** [EXPR_REGEX.findall(s)]: the pattern has one group, so the inner texts. *)
Definition EXPR_REGEX_findall (s : string) : list string :=
  map snd (fst (EXPR_REGEX_scan s)).

(** [EXPR_REGEX.sub(repl, s)] for a function [repl] of the inner text. *)
Definition EXPR_REGEX_sub (repl : string -> string) (s : string) : string :=
  fold_right (fun seg acc => fst seg +:+ repl (snd seg) +:+ acc)
    (snd (EXPR_REGEX_scan s)) (fst (EXPR_REGEX_scan s)).

(** ** The node tree *)

(** Where [curr_node_list] points: at the sequence's own [nodes], or at the
    [nodes] of one of its control blocks (given by its index). *)
Inductive NodeListRef : Type :=
| RefNodes
| RefBlock (i : nat).

(** [PythonSequence] and its subclass [PythonIndentedSequence] share
    [parse_lines]; [is_indented] is [isinstance(self, PythonIndentedSequence)].
    The base class has [nodes] and no [control_blocks], the subclass the
    opposite; the attribute an object lacks is left empty. *)
Record PythonControlBlockOf (N : Type) : Type := mkPythonControlBlock {
  block_nodes : list N;
  block_control_statement : PythonLine;
  block_control_word : string
}.
Arguments mkPythonControlBlock {N}.
Arguments block_nodes {N}.
Arguments block_control_statement {N}.
Arguments block_control_word {N}.

Record PythonSequenceOf (N : Type) : Type := mkPythonSequence {
  is_indented : bool;
  control_statement : option PythonLine;
  control_word : option string;
  control_linenum : option Z;
  nodes : list N;
  control_blocks : list (PythonControlBlockOf N);
  curr_node_list : NodeListRef;
  python_linenum : Z;
  python_line_map : gmap Z Z;
  pypdef : bool
}.
Arguments mkPythonSequence {N}.
Arguments is_indented {N}.
Arguments control_statement {N}.
Arguments control_word {N}.
Arguments control_linenum {N}.
Arguments nodes {N}.
Arguments control_blocks {N}.
Arguments curr_node_list {N}.
Arguments python_linenum {N}.
Arguments python_line_map {N}.
Arguments pypdef {N}.

#[warnings="-register-all"]
Inductive Node : Type :=
| NodeLine (l : PythonLine)
| NodeSequence (s : PythonSequenceOf Node).

Abbreviation PythonSequence := (PythonSequenceOf Node).
Abbreviation PythonControlBlock := (PythonControlBlockOf Node).

Definition SourceLine : Type := string * Z.

(** [PythonSequence(start_linenum=1)] *)
Definition PythonSequence_init (start_linenum : Z) : PythonSequence :=
  mkPythonSequence false None None None [] [] RefNodes start_linenum ∅ false.

(** [PythonIndentedSequence(control_statement, control_word, start_linenum,
    pypdef, control_linenum)] *)
Definition PythonIndentedSequence_init (st : PythonLine) (word : string)
    (start_linenum : Z) (is_pypdef : bool) (linenum : Z) : PythonSequence :=
  mkPythonSequence true (Some st) (Some word) (Some linenum) []
    [mkPythonControlBlock [] st word] (RefBlock 0) start_linenum ∅ is_pypdef.

Definition set_nodes (self : PythonSequence) (ns : list Node) : PythonSequence :=
  mkPythonSequence (is_indented self) (control_statement self) (control_word self)
    (control_linenum self) ns (control_blocks self) (curr_node_list self)
    (python_linenum self) (python_line_map self) (pypdef self).

Definition set_control_blocks (self : PythonSequence) (bs : list PythonControlBlock)
  : PythonSequence :=
  mkPythonSequence (is_indented self) (control_statement self) (control_word self)
    (control_linenum self) (nodes self) bs (curr_node_list self)
    (python_linenum self) (python_line_map self) (pypdef self).

Definition set_curr_node_list (self : PythonSequence) (r : NodeListRef) : PythonSequence :=
  mkPythonSequence (is_indented self) (control_statement self) (control_word self)
    (control_linenum self) (nodes self) (control_blocks self) r
    (python_linenum self) (python_line_map self) (pypdef self).

Definition set_python_linenum (self : PythonSequence) (n : Z) : PythonSequence :=
  mkPythonSequence (is_indented self) (control_statement self) (control_word self)
    (control_linenum self) (nodes self) (control_blocks self) (curr_node_list self)
    n (python_line_map self) (pypdef self).

Definition set_python_line_map (self : PythonSequence) (m : gmap Z Z) : PythonSequence :=
  mkPythonSequence (is_indented self) (control_statement self) (control_word self)
    (control_linenum self) (nodes self) (control_blocks self) (curr_node_list self)
    (python_linenum self) m (pypdef self).

Definition block_append (node : Node) (b : PythonControlBlock) : PythonControlBlock :=
  mkPythonControlBlock (block_nodes b ++ [node]) (block_control_statement b)
    (block_control_word b).

(** [self.curr_node_list.append(node)], through the alias. *)
Definition curr_node_list_append (self : PythonSequence) (node : Node) : PythonSequence :=
  match curr_node_list self with
  | RefNodes => set_nodes self (nodes self ++ [node])
  | RefBlock i => set_control_blocks self (alter (block_append node) i (control_blocks self))
  end.

(** [self.python_line_map[self.python_linenum] = linenum] *)
Definition update_python_linemap (self : PythonSequence) (linenum : Z) : PythonSequence :=
  set_python_line_map self (<[python_linenum self := linenum]> (python_line_map self)).

(** Takes the source linenum, maps it to the current python line num, then
    increments py linenum. *)
Definition map_increment_linenum (self : PythonSequence) (linenum : Z) : PythonSequence :=
  let self := update_python_linemap self linenum in
  set_python_linenum self (python_linenum self + 1).

(** [add_node(node, linenum=None, update_linemap=True)] *)
Definition add_node (self : PythonSequence) (node : Node) (linenum : option Z)
    (update_linemap : bool) : PythonSequence :=
  let self := curr_node_list_append self node in
  if update_linemap then
    let self := match linenum with
                | Some n => update_python_linemap self n
                | None => self
                end in
    set_python_linenum self (python_linenum self + 1)
  else self.

(** ** Verbatim blocks: [_process_python_block] *)

Definition TRIPLE_DQUOTE : string := String DQUOTE (String DQUOTE (String DQUOTE "")).
Definition TRIPLE_SQUOTE : string := "'''".

(** [len(re.findall(...))] for the pattern of three double quotes or three
    single quotes: leftmost non-overlapping matches. *)
Fixpoint count_triples_from (skip : nat) (s : string) : nat :=
  match s with
  | EmptyString => O
  | String _ s' =>
      match skip with
      | S k => count_triples_from k s'
      | O =>
          if String.prefix TRIPLE_DQUOTE s || String.prefix TRIPLE_SQUOTE s
          then S (count_triples_from 2 s')
          else count_triples_from 0 s'
      end
  end.

Definition count_triples (s : string) : nat := count_triples_from 0 s.

(** [SPACE_COMMENT_REGEX], the pattern "(\s*$)|(\s*#)": a blank line, or a
    line whose first non-blank byte is a hash. *)
Definition SPACE_COMMENT_REGEX (line : string) : bool :=
  Re.all_space line || String.prefix "#" (Re.skip_space line).

(** [re.sub("\s{n}", '', s, count=1)]: the leftmost run of [n] white-space
    bytes is removed, wherever it is. *)
Fixpoint sub_space_run (n : nat) (s : string) : string :=
  if (n <=? Re.leading_space s)%nat then drop n s
  else match s with
       | String c s' => String c (sub_space_run n s')
       | EmptyString => EmptyString
       end.

(** [re.sub("\s{None}", '', s, count=1)]: the braces do not hold a number, so
    the pattern is one white-space byte followed by the literal text
    "{None}". *)
Fixpoint sub_space_None (s : string) : string :=
  match s with
  | String c s' =>
      if Re.is_space c && String.prefix "{None}" s' then drop 6 s'
      else String c (sub_space_None s')
  | EmptyString => EmptyString
  end.

Definition sub_min_spaces (min_spaces : option nat) (s : string) : string :=
  match min_spaces with
  | Some n => sub_space_run n s
  | None => sub_space_None s
  end.

(** The [while True] loop: the collected lines, [min_spaces], and the queue
    after the end marker was popped; [None] when the queue runs out. *)
Fixpoint process_python_block_loop (lines : list SourceLine) (min_spaces : option nat)
    (in_triplequotes in_triplequotes_next : bool)
  : option (list (PythonLine * Z) * option nat * list SourceLine) :=
  match lines with
  | [] => None
  | (line, linenum) :: lines =>
      if PYTHON_BLOCK_END_REGEX line then Some ([], min_spaces, lines)
      else
        let triples := count_triples line in
        let in_triplequotes_next :=
          if Nat.odd triples then negb in_triplequotes_next else in_triplequotes_next in
        let entry := (PythonLine_init line in_triplequotes, linenum) in
        let min_spaces :=
          match min_spaces with
          | None => if negb (SPACE_COMMENT_REGEX line)
                    then Some (Re.leading_space line) else None
          | Some _ => min_spaces
          end in
        let in_triplequotes := in_triplequotes_next in
        match process_python_block_loop lines min_spaces in_triplequotes
                in_triplequotes_next with
        | Some (compound_block, ms, rest) => Some (entry :: compound_block, ms, rest)
        | None => None
        end
  end.

Definition fix_indent (min_spaces : option nat) (e : PythonLine * Z) : PythonLine * Z :=
  let (pythonline, linenum) := e in
  if noindent pythonline then e
  else (mkPythonLine (sub_min_spaces min_spaces (line_string pythonline))
          (noindent pythonline) (indent_levels pythonline), linenum).

Definition _process_python_block (lines : list SourceLine)
  : Result (list (PythonLine * Z) * list SourceLine) :=
  match process_python_block_loop lines None false false with
  | Some (compound_block, min_spaces, rest) =>
      Ok (map (fix_indent min_spaces) compound_block, rest)
  | None => Raise IndexError
  end.

(** ** The literal-line transformer: [line_to_pythonstatement] *)

Definition print_func (is_pypdef : bool) : string :=
  if is_pypdef then "_OUTPUT.append" else "_PRINT".

Definition clean_expr (expr : string) : string :=
  replace "}" "" (replace "${" "" expr).

Definition line_to_pythonstatement (is_pypdef : bool) (line : string) : string :=
  let exprs := EXPR_REGEX_findall line in
  let parens_statement :=
    match exprs with
    | _ :: _ =>
        let print_string := escape_percent line in
        let print_string := EXPR_REGEX_sub (fun _ => "%s") print_string in
        let print_string := escape_quotes print_string in
        let exprs_cleaned := map clean_expr exprs in
        ("'" +:+ print_string +:+ "'") +:+ " % " +:+
        ("(" +:+ join "," (map (fun expr => "(" +:+ expr +:+ ")") exprs_cleaned) +:+ ",)")
    | [] => "('" +:+ escape_quotes line +:+ "')"
    end in
  print_func is_pypdef +:+ "(" +:+ parens_statement +:+ ")".

(** ** The block parser: [parse_lines] *)

Definition opt_string_eqb (a : option string) (b : string) : bool :=
  match a with
  | Some x => String.eqb x b
  | None => false
  end.

Definition statement_text (st : option PythonLine) : string :=
  match st with
  | Some l => line_string l
  | None => "None"
  end.

Definition linenum_text (n : option Z) : string :=
  match n with
  | Some z => of_Z z
  | None => "None"
  end.

Definition current_block_text (self : PythonSequence) : string :=
  "('" +:+ statement_text (control_statement self) +:+ ", line " +:+
  linenum_text (control_linenum self) +:+ "')".

(** The [for] loop after a verbatim block was collected. *)
Definition add_compound_block (self : PythonSequence) (blk : list (PythonLine * Z))
  : PythonSequence :=
  fold_left (fun self e => add_node self (NodeLine (fst e)) (Some (snd e)) true) blk self.

(** [parse_lines] pops lines off the shared queue until the queue is empty or
    the sequence's own end keyword is met.  The result holds the sequence
    after the call and the queue as the call leaves it.  Every recursive call
    is on a shorter queue; [fuel] bounds the number of calls. *)
Fixpoint parse_lines (fuel : nat) (self : PythonSequence) (lines : list SourceLine)
  : Result (PythonSequence * list SourceLine) :=
  match fuel with
  | O => OutOfFuel
  | S fuel =>
  match lines with
  | [] => Ok (self, [])
  | (line, linenum) :: lines =>
    if PYP_COMMENT_REGEX line || DUMMYTEXT_REGEX line then parse_lines fuel self lines
    else
    let line := replace DUMMYTEXT "" line in
    (* Python compound blocks *)
    if PYTHON_BLOCK_START_REGEX line then
      match _process_python_block lines with
      | Ok (compound_block, lines) =>
          parse_lines fuel (add_compound_block self compound_block) lines
      | Raise e => Raise e
      | OutOfFuel => OutOfFuel
      end
    else
    (* Main control word *)
    match CONTROL_START_REGEX line with
    | Some (control_statement_text, control_word_text) =>
        let self := update_python_linemap self linenum in
        let is_pypdef := is_indented self && pypdef self in
        let is_keyword_pypdef := String.eqb control_word_text "pypdef" in
        let is_pypdef := if is_keyword_pypdef then true else is_pypdef in
        let control_statement_text :=
          if is_keyword_pypdef
          then replace_first "pypdef" "def" control_statement_text
          else control_statement_text in
        let new_block :=
          PythonIndentedSequence_init (PythonLine_init control_statement_text false)
            control_word_text (python_linenum self + 1) is_pypdef linenum in
        let new_block :=
          if is_pypdef && is_keyword_pypdef
          then add_node new_block (NodeLine (PythonLine_init "_OUTPUT=[]" false)) None true
          else new_block in
        match parse_lines fuel new_block lines with
        | Ok (new_block, lines) =>
            let self := add_node self (NodeSequence new_block) None true in
            let self := set_python_linenum self (python_linenum new_block) in
            let self :=
              set_python_line_map self
                (python_line_map new_block ∪ python_line_map self) in
            parse_lines fuel self lines
        | Raise e => Raise e
        | OutOfFuel => OutOfFuel
        end
    | None =>
    (* Middle control words *)
    match CONTROL_MIDDLE_REGEX line with
    | Some (control_statement_text, control_word_text) =>
        let self := map_increment_linenum self linenum in
        match control_word self with
        | None =>
            Raise (ParseError
                     ("Found middle control word (" +:+ control_word_text +:+
                      ") without starting word") line linenum)
        | Some word =>
            if negb (opt_string_eqb (MIDDLE2START_MAP control_word_text) word) then
              Raise (ParseError
                       ("Middle control word (" +:+ control_word_text +:+
                        ") doesn't match current block " +:+ current_block_text self)
                       line linenum)
            else
              let control_block :=
                mkPythonControlBlock [] (PythonLine_init control_statement_text false)
                  control_word_text in
              let index := length (control_blocks self) in
              let self := set_control_blocks self (control_blocks self ++ [control_block]) in
              let self := set_curr_node_list self (RefBlock index) in
              parse_lines fuel self lines
        end
    | None =>
    match CONTROL_END_REGEX line with
    | Some end_control_word =>
        let self :=
          if String.eqb end_control_word "pypdef"
          then add_node self
                 (NodeLine (PythonLine_init
                    ("return '" +:+ String BACKSLASH "n'.join(_OUTPUT)") false)) None true
          else self in
        match control_word self with
        | None =>
            Raise (ParseError
                     ("Found end control word (end" +:+ end_control_word +:+
                      ") without starting word") line linenum)
        | Some word =>
            if negb (String.eqb end_control_word word) then
              Raise (ParseError
                       ("End control word (end" +:+ end_control_word +:+
                        ") doesn't match current block " +:+ current_block_text self)
                       line linenum)
            else Ok (self, lines)
        end
    | None =>
    (* A Python statement: just output the Python *)
    match NORMAL_PYTHON_LINE_REGEX line with
    | Some statement =>
        parse_lines fuel
          (add_node self (NodeLine (PythonLine_init statement false)) (Some linenum) true)
          lines
    | None =>
        (* A normal line: substitute text *)
        let pythonline :=
          PythonLine_init (line_to_pythonstatement (pypdef self) line) false in
        parse_lines fuel (add_node self (NodeLine pythonline) (Some linenum) true) lines
    end end end end
  end end.

(** ** The code generator: [get_lines], [get_python_text] *)

(** [get_lines_from_nodes] on one node; a sequence node dispatches to the
    [get_lines] of its class. *)
Fixpoint Node_get_lines (indent_level : nat) (node : Node) {struct node}
  : list PythonLine :=
  match node with
  | NodeLine l => [set_indent l indent_level]
  | NodeSequence s =>
      if is_indented s then
        List.flat_map
          (fun block =>
             set_indent (block_control_statement block) indent_level
             :: List.flat_map (Node_get_lines (S indent_level)) (block_nodes block))
          (control_blocks s)
      else List.flat_map (Node_get_lines indent_level) (nodes s)
  end.

Definition get_lines_from_nodes (ns : list Node) (indent_level : nat) : list PythonLine :=
  List.flat_map (Node_get_lines indent_level) ns.

Definition get_lines (self : PythonSequence) (indent_level : nat) : list PythonLine :=
  Node_get_lines indent_level (NodeSequence self).

Definition get_python_text (self : PythonSequence) : string :=
  join NL (map get_indented (get_lines self 0)).

(** ** class PYPParser: preprocessing and the line stream *)

(** [replace_func]: the expression joined on one line, then one placeholder
    line for every newline it held. *)
Definition replace_func (innertext : string) : string :=
  let dummyline := NL +:+ DUMMYTEXT in
  let num_extra_newlines := count_char LF innertext in
  ("${" +:+ replace NL " " innertext +:+ "}") +:+ times dummyline num_extra_newlines.

Definition preprocess_text (text : string) : string :=
  EXPR_REGEX_sub replace_func text.

(** [1+x for x in range(n)] *)
Definition line_numbers (n : nat) : list Z :=
  map (fun x => 1 + Z.of_nat x) (seq 0 n).

(** [PYPParser.__init__]: the lines of the preprocessed text with their
    numbers, counted from 1. *)
Definition PYPParser_textlines (text : string) : list SourceLine :=
  let textlines := split_char LF (preprocess_text text) in
  zip textlines (line_numbers (length textlines)).

Record PYPParser : Type := mkPYPParser {
  debug : bool;
  text : string;
  textlines : list SourceLine;
  parser_line_map : gmap Z Z;      (* [self.python_line_map] *)
  input_filename : string
}.

Definition PYPParser_init (raw_text : string) (dbg : bool) (input : string) : PYPParser :=
  mkPYPParser dbg (preprocess_text raw_text) (PYPParser_textlines raw_text) ∅ input.

Definition set_parser_line_map (self : PYPParser) (m : gmap Z Z) : PYPParser :=
  mkPYPParser (debug self) (text self) (textlines self) m (input_filename self).

(** [l[i]]: a negative index counts from the end; out of range raises. *)
Definition list_getitem {A : Type} (l : list A) (i : Z) : option A :=
  let n := Z.of_nat (length l) in
  if 0 <=? i then l !! Z.to_nat i
  else if - n <=? i then l !! Z.to_nat (n + i)
  else None.

(** [_get_pyp_errorline]: [Ok None] stands for the pair [(None, None)]. *)
Definition _get_pyp_errorline (self : PYPParser) (error_linenum : option Z)
  : Result (option (Z * string)) :=
  match error_linenum with
  | None => Ok None
  | Some g =>
      match parser_line_map self !! g with
      | Some source_linenum =>
          match list_getitem (textlines self) (source_linenum - 1) with
          | Some entry => Ok (Some (source_linenum, fst entry))
          | None => Raise IndexError
          end
      | None => Ok None
      end
  end.

(** ** The execution and diagnostics bridge *)

(** One entry of [traceback.extract_tb]. *)
Record Frame : Type := mkFrame {
  frame_filename : string;
  frame_lineno : Z;
  frame_func : string;
  frame_text : string
}.

(** What the handlers read off the exception: [exc_type.__name__],
    [str(exc_value)], and the joined [traceback.format_exception_only]. *)
Record ExcInfo : Type := mkExcInfo {
  exc_type_name : string;
  exc_value_str : string;
  exc_only_text : string
}.


(** The file system, as far as the bridge touches it: path to content. *)
Record World : Type := mkWorld {
  files : gmap string string;
  stdout : list string;
  history : list (gmap string string)   (* the file system after each operation *)
}.

Definition print (w : World) (s : string) : World :=
  mkWorld (files w) (stdout w ++ [s +:+ NL]) (history w).

Definition stdout_write (w : World) (s : string) : World :=
  mkWorld (files w) (stdout w ++ [s]) (history w).






Definition location_text (self : PYPParser) (source_linenum : Z) : string :=
  "File " +:+ String DQUOTE (input_filename self) +:+ String DQUOTE "" +:+
  ", line " +:+ of_Z source_linenum.

Definition SORRY : string := "Sorry, could not find pyp source line".

(** [pyfile.name]: the given [filename], or the name of the temporary file
    when none is given. *)
Definition pyfile_name (filename temp_pyname : string) : string :=
  if String.eqb filename "" then temp_pyname else filename.

Section Bridge.

(** [traceback.format_list] of the standard library, joined. *)
Variable format_list : list Frame -> string.

(** The [except SyntaxError] handler. *)
Definition syntax_error_handler (self : PYPParser) (exc : ExcInfo)
    (error_linenum : option Z) (w : World) : Result World :=
  let w := print w "" in
  let w := print w "======= SYNTAX ERROR =============" in
  match _get_pyp_errorline self error_linenum with
  | Ok found =>
      let w :=
        match found with
        | Some (source_linenum, line_text) =>
            print (print w (location_text self source_linenum)) ("  " +:+ line_text)
        | None => print w SORRY
        end in
      let w := print w (exc_type_name exc +:+ ": " +:+ exc_value_str exc) in
      let w := print w "" in
      let w := print w "DETAILED SYNTAX ERROR:" in
      let w := print w (exc_only_text exc) in
      Ok (print w "===================================")
  | Raise e => Raise e
  | OutOfFuel => OutOfFuel
  end.

(** The loop of the debug branch over [tb_packets[3:]]. *)
Fixpoint pyp_traceback (self : PYPParser) (tb : list Frame) (w : World)
  : Result World :=
  match tb with
  | [] => Ok w
  | tb_packet :: tb =>
      match _get_pyp_errorline self (Some (frame_lineno tb_packet)) with
      | Ok (Some (source_linenum, line_text)) =>
          pyp_traceback self tb
            (print (print w ("  " +:+ location_text self source_linenum))
               ("    " +:+ line_text))
      | Ok None => pyp_traceback self tb (print w "(Unknown pyp line)")
      | Raise e => Raise e
      | OutOfFuel => OutOfFuel
      end
  end.

(** The bare [except] handler: the line is taken from [tb_packets[-1]]. *)
Definition exception_handler (self : PYPParser) (exc : ExcInfo)
    (tb_packets : list Frame) (w : World) : Result World :=
  match last tb_packets with
  | None => Raise IndexError
  | Some innermost =>
      let error_linenum := frame_lineno innermost in
      let w := print w "" in
      let w := print w "======= ERROR INFO ================" in
      match _get_pyp_errorline self (Some error_linenum) with
      | Ok found =>
          let w :=
            match found with
            | Some (source_linenum, line_text) =>
                print (print w (location_text self source_linenum)) ("  " +:+ line_text)
            | None => print (print w SORRY) (format_list [innermost])
            end in
          let w := print w (exc_type_name exc +:+ ": " +:+ exc_value_str exc) in
          let traced :=
            if debug self then
              let w := print w "" in
              let w := print w "TRACEBACK:" in
              let w := stdout_write w (format_list (List.skipn 3 tb_packets)) in
              let w := print w "" in
              let w := print w "PYP TRACEBACK:" in
              pyp_traceback self (List.skipn 3 tb_packets) w
            else Ok w in
          match traced with
          | Ok w => Ok (print w "===================================")
          | other => other
          end
      | Raise e => Raise e
      | OutOfFuel => OutOfFuel
      end
  end.



End Bridge.

(** [execute], up to the point where the generated text is run: a parse
    error is printed and the process exits; otherwise the line map is kept
    and the text is generated. *)
Inductive Executed : Type :=
| Exit1 (report : list string)                        (* [sys.exit(1)] *)
| Uncaught (e : Exn)
| Unfinished                                          (* out of fuel: never *)
| Generated (self : PYPParser) (python_text : string).

Definition parse_error_report (self : PYPParser) (text_ line : string) (linenum : Z)
  : list string :=
  [ NL; "====== PARSE ERROR =========" +:+ NL;
    location_text self linenum +:+ NL;
    "  " +:+ line +:+ NL;
    "ParseError: " +:+ text_ +:+ NL;
    "============================" +:+ NL; NL ].

Definition execute (self : PYPParser) : Executed :=
  let lines := textlines self in
  let sequence := PythonSequence_init 1 in
  match parse_lines (S (length lines)) sequence lines with
  | Raise (ParseError text_ line linenum) =>
      Exit1 (parse_error_report self text_ line linenum)
  | Raise e => Uncaught e
  | OutOfFuel => Unfinished
  | Ok (sequence, _) =>
      Generated (set_parser_line_map self (python_line_map sequence))
        (get_python_text sequence)
  end.

(** ** The parser as the specification describes it: one line at a time

    A second, independent reading of the block parser, after the
    specification's words: the lines are classified in priority order and
    handled one by one with an explicit stack of open control sequences.  It
    is compared with [parse_lines] below. *)

Inductive LineKind : Type :=
| KSkip                                   (* full-line comment or placeholder *)
| KVerbatim                               (* verbatim-block start marker *)
| KStart (statement word : string)        (* control-start keyword line *)
| KMiddle (statement word : string)       (* control-middle keyword line *)
| KEnd (word : string)                    (* control-end keyword line *)
| KPython (statement : string)            (* raw statement-escape line *)
| KLiteral (line : string).               (* literal text *)

Definition line_kind (raw : string) : LineKind :=
  if PYP_COMMENT_REGEX raw || DUMMYTEXT_REGEX raw then KSkip
  else
    let line := replace DUMMYTEXT "" raw in
    if PYTHON_BLOCK_START_REGEX line then KVerbatim
    else match CONTROL_START_REGEX line with
    | Some (st, w) => KStart st w
    | None =>
    match CONTROL_MIDDLE_REGEX line with
    | Some (st, w) => KMiddle st w
    | None =>
    match CONTROL_END_REGEX line with
    | Some w => KEnd w
    | None =>
    match NORMAL_PYTHON_LINE_REGEX line with
    | Some st => KPython st
    | None => KLiteral line
    end end end end.

(** An open control sequence: its keyword, and whether literal lines in it
    append to the accumulator of a named template function. *)
Definition SpecFrame : Type := string * bool.

(** How a run over the lines stops. *)
Inductive SpecStop : Type :=
| AtEnd (open : list SpecFrame)           (* the input ran out; what is still open *)
| Closed (rest : list SourceLine)         (* the base sequence met its end keyword *)
| Mismatch (raw : string) (linenum : Z)   (* a middle or end keyword that does not
                                             match the open sequence *)
| Unterminated.                           (* a verbatim block without end marker *)

Definition emit (out : list PythonLine) (r : list PythonLine * SpecStop)
  : list PythonLine * SpecStop :=
  ((out ++ fst r)%list, snd r).

Definition statement_at (depth : nat) (s : string) : PythonLine :=
  set_indent (PythonLine_init s false) depth.

Definition OUTPUT_INIT : string := "_OUTPUT=[]".
Definition OUTPUT_RETURN : string := "return '" +:+ String BACKSLASH "n'.join(_OUTPUT)".

Section SpecRun.

(** The literal-line transformer, given the accumulate flag of the
    sequence the line is in. *)
Variable lit : bool -> string -> string.
(** The sequence at the base of the run: its keyword ([None] for the root
    sequence), its accumulate flag, and the depth of its nodes. *)
Variable base : option string.
Variable base_acc : bool.
Variable base_depth : nat.

Definition open_word (open : list SpecFrame) : option string :=
  match open with
  | f :: _ => Some (fst f)
  | [] => base
  end.

Definition open_acc (open : list SpecFrame) : bool :=
  match open with
  | f :: _ => snd f
  | [] => base_acc
  end.

Definition open_depth (open : list SpecFrame) : nat := (base_depth + length open)%nat.

(** [skip] counts the lines of a verbatim block still to be passed over. *)
Fixpoint spec_run (open : list SpecFrame) (skip : nat) (lines : list SourceLine)
  : list PythonLine * SpecStop :=
  match lines with
  | [] => ([], AtEnd open)
  | (raw, linenum) :: lines =>
      match skip with
      | S k => spec_run open k lines
      | O =>
          let depth := open_depth open in
          match line_kind raw with
          | KSkip => spec_run open 0 lines
          | KVerbatim =>
              match _process_python_block lines with
              | Ok (blk, rest) =>
                  emit (map (fun e => set_indent (fst e) depth) blk)
                    (spec_run open (length lines - length rest) lines)
              | _ => ([], Unterminated)
              end
          | KStart st w =>
              let is_function := String.eqb w "pypdef" in
              let header := if is_function then replace_first "pypdef" "def" st else st in
              emit (statement_at depth header
                      :: (if is_function then [statement_at (S depth) OUTPUT_INIT] else []))
                (spec_run ((w, open_acc open || is_function) :: open) 0 lines)
          | KMiddle st w =>
              match open_word open with
              | Some cw =>
                  if opt_string_eqb (MIDDLE2START_MAP w) cw
                  then emit [statement_at (Nat.pred depth) st] (spec_run open 0 lines)
                  else ([], Mismatch raw linenum)
              | None => ([], Mismatch raw linenum)
              end
          | KEnd w =>
              let returned :=
                if String.eqb w "pypdef" then [statement_at depth OUTPUT_RETURN] else [] in
              match open_word open with
              | Some cw =>
                  if String.eqb w cw then
                    match open with
                    | _ :: open' => emit returned (spec_run open' 0 lines)
                    | [] => (returned, Closed lines)
                    end
                  else (returned, Mismatch raw linenum)
              | None => (returned, Mismatch raw linenum)
              end
          | KPython st => emit [statement_at depth st] (spec_run open 0 lines)
          | KLiteral line =>
              emit [statement_at depth (lit (open_acc open) line)] (spec_run open 0 lines)
          end
      end
  end.

End SpecRun.

(** The run of a whole template: the root sequence is at the base. *)
Definition spec_run_root (lines : list SourceLine) : list PythonLine * SpecStop :=
  spec_run line_to_pythonstatement None false 0 [] 0 lines.

(** The body of a named template function: every literal line appends to
    the accumulator, whatever control blocks it is nested in.  [Some out]
    when the body is balanced, that is, runs to its end with nothing left
    open and no keyword addressed to the enclosing sequences. *)
Definition spec_function_body (depth : nat) (body : list SourceLine)
  : option (list PythonLine) :=
  match spec_run (fun _ => line_to_pythonstatement true) None true depth [] 0 body with
  | (out, AtEnd []) => Some out
  | _ => None
  end.


(** ** Lines as the specification sees them: text and expression markers *)

(** An embedded-expression marker around [inner]. *)
Definition marker (inner : string) : string := "${" +:+ inner +:+ "}".

(** A line put together from its pieces, left to right: each piece is a text
    followed by a marker, and [tail] is the text after the last marker. *)
Definition assemble (segs : list (string * string)) (tail : string) : string :=
  fold_right (fun seg acc => fst seg +:+ marker (snd seg) +:+ acc) tail segs.

(** No marker in [s]: no opening that is followed, later, by a closing brace. *)
Fixpoint marker_free (s : string) : bool :=
  match s with
  | EmptyString => true
  | String _ s' =>
      negb (String.prefix "${" s && contains "}" (drop 2 s)) && marker_free s'
  end.

(** The pieces of a line are well formed when no text holds an opening, no
    expression holds a closing brace, and the final text holds no marker;
    the pieces are then the markers of the line, in order. *)
Definition pieces_wf (segs : list (string * string)) (tail : string) : Prop :=
  Forall (fun seg => contains "${" (fst seg) = false /\ contains "}" (snd seg) = false) segs
  /\ marker_free tail = true.

(** The format string of a line: percent signs doubled, one placeholder
    for each marker. *)
Definition format_of (segs : list (string * string)) (tail : string) : string :=
  fold_right (fun seg acc => escape_percent (fst seg) +:+ "%s" +:+ acc)
    (escape_percent tail) segs.

(** ** Derived forms used in the proofs *)

(** [parse_lines] with the fuel that a queue of this length needs. *)
Definition parse (self : PythonSequence) (lines : list SourceLine)
  : Result (PythonSequence * list SourceLine) :=
  parse_lines (S (length lines)) self lines.

(** The sequence that a control-start line opens in [self]. *)
Definition open_block (self : PythonSequence) (st w : string) (linenum : Z)
  : PythonSequence :=
  let is_keyword_pypdef := String.eqb w "pypdef" in
  let is_pypdef := if is_keyword_pypdef then true else is_indented self && pypdef self in
  let st := if is_keyword_pypdef then replace_first "pypdef" "def" st else st in
  let new_block :=
    PythonIndentedSequence_init (PythonLine_init st false) w
      (python_linenum self + 1) is_pypdef linenum in
  if is_pypdef && is_keyword_pypdef
  then add_node new_block (NodeLine (PythonLine_init OUTPUT_INIT false)) None true
  else new_block.

(** [self] after the sequence opened at [linenum] was parsed and added. *)
Definition splice_block (self : PythonSequence) (linenum : Z) (new_block : PythonSequence)
  : PythonSequence :=
  let self := update_python_linemap self linenum in
  let self := add_node self (NodeSequence new_block) None true in
  let self := set_python_linenum self (python_linenum new_block) in
  set_python_line_map self (python_line_map new_block ∪ python_line_map self).

(** [self] after an accepted control-middle line. *)
Definition middle_block (self : PythonSequence) (st w : string) (linenum : Z)
  : PythonSequence :=
  let self := map_increment_linenum self linenum in
  let control_block := mkPythonControlBlock [] (PythonLine_init st false) w in
  let index := length (control_blocks self) in
  let self := set_control_blocks self (control_blocks self ++ [control_block]) in
  set_curr_node_list self (RefBlock index).

(** [self] after the first statement of the control-end branch. *)
Definition end_block (self : PythonSequence) (w : string) : PythonSequence :=
  if String.eqb w "pypdef"
  then add_node self (NodeLine (PythonLine_init OUTPUT_RETURN false)) None true
  else self.

(** The invariant of the sequences the parser works on: new nodes go to the
    sequence's own list (base class) or to its last control block
    (subclass, which always has a control word). *)
Definition wf_seq (self : PythonSequence) : Prop :=
  if is_indented self then
    (exists bs b, control_blocks self = (bs ++ [b])%list
                  /\ curr_node_list self = RefBlock (length bs))
    /\ is_Some (control_word self)
  else curr_node_list self = RefNodes /\ control_word self = None /\ pypdef self = false.

(** Whether literal lines of [self] append to an accumulator. *)
Definition seq_acc (self : PythonSequence) : bool := is_indented self && pypdef self.

(** The depth of the nodes of [self] when its header is at depth [hd]. *)
Definition node_depth (self : PythonSequence) (hd : nat) : nat :=
  if is_indented self then S hd else hd.

(** [self'] is [self] with the lines [out] generated in addition. *)
Definition extends (self self' : PythonSequence) (hd : nat) (out : list PythonLine)
  : Prop :=
  wf_seq self'
  /\ is_indented self' = is_indented self
  /\ control_word self' = control_word self
  /\ pypdef self' = pypdef self
  /\ get_lines self' hd = (get_lines self hd ++ out)%list.

(** The lines of one control block whose header is at depth [hd]. *)
Definition block_lines (hd : nat) (block : PythonControlBlock) : list PythonLine :=
  set_indent (block_control_statement block) hd
  :: List.flat_map (Node_get_lines (S hd)) (block_nodes block).

(** The run of the sequence on top of the stack, seen as a run of its own
    with that sequence at the base: how its result continues below. *)
Definition frame_result (f : SpecFrame) (open : list SpecFrame)
    (continue : list SourceLine -> list PythonLine * SpecStop)
    (r1 : list PythonLine * SpecStop) : list PythonLine * SpecStop :=
  match snd r1 with
  | AtEnd o => (fst r1, AtEnd (o ++ f :: open)%list)
  | Closed rest => emit (fst r1) (continue rest)
  | Mismatch raw n => (fst r1, Mismatch raw n)
  | Unterminated => (fst r1, Unterminated)
  end.

(** The result [res] of a call of [parse_lines] on [self], with the header of
    [self] at depth [hd], agrees with the line-by-line run [r]: the same
    lines are generated and the call ends the same way.  [bound] limits the
    length of the queue that is left. *)
Definition outcome_ok (self : PythonSequence) (hd : nat) (bound : nat)
    (res : Result (PythonSequence * list SourceLine))
    (r : list PythonLine * SpecStop) : Prop :=
  match snd r with
  | AtEnd _ => exists self', res = Ok (self', []) /\ extends self self' hd (fst r)
  | Closed rest =>
      exists self', res = Ok (self', rest) /\ extends self self' hd (fst r)
                    /\ (length rest < bound)%nat
  | Mismatch raw n =>
      exists msg, res = Raise (ParseError msg (replace DUMMYTEXT "" raw) n)
  | Unterminated => res = Raise IndexError
  end.

(** The line-by-line run with [self] at the base. *)
Definition spec_run_seq (self : PythonSequence) (hd : nat) (lines : list SourceLine)
  : list PythonLine * SpecStop :=
  spec_run line_to_pythonstatement (control_word self) (seq_acc self)
    (node_depth self hd) [] 0 lines.

(** ** The bridge as the specification describes it *)

(** The innermost frame of the call chain that lies inside the generated
    unit: the last entry of the traceback whose file is the generated
    module. *)
Definition innermost_generated_frame (pyfile_name : string) (tb_packets : list Frame)
  : option Frame :=
  last (filter (fun f => frame_filename f = pyfile_name) tb_packets).

(** Every source line number in the line map is the number of a line of
    the text kept by the parser. *)
Definition line_map_valid (self : PYPParser) : Prop :=
  map_Forall (fun _ s => is_Some (list_getitem (textlines self) (s - 1)))
    (parser_line_map self).

(** What [print] writes for each of the given lines. *)
Definition printed_lines (ls : list string) : list string :=
  map (fun s => s +:+ NL) ls.

(** The lines that cite the source: the location and the text, or the
    statement that the source line was not found. *)
Definition citation (p : PYPParser) (found : option (Z * string)) : list string :=
  match found with
  | Some (s, txt) => [location_text p s; "  " +:+ txt]
  | None => [SORRY]
  end.


(** ** Examples used below *)

(** A template with an expression that spans two lines. *)
Definition joined_example_text : string := "${x" +:+ NL +:+ "y}".
Definition joined_example : PYPParser :=
  set_parser_line_map (PYPParser_init joined_example_text false "t.pyp") {[ 1 := 1 ]}.


(** A template that imports a module whose first line raises. *)
Definition helper_example_text : string := "first" +:+ NL +:+ "% import helper".
Definition helper_example : PYPParser :=
  set_parser_line_map (PYPParser_init helper_example_text false "t.pyp")
    {[ 1 := 1; 2 := 2 ]}.

(** The traceback of that run: the frame of the bridge, three frames of
    [runpy], the frame of the generated module, and the frame of the
    imported module, innermost last. *)
Definition helper_traceback : list Frame :=
  [ mkFrame "pyp.py" 499 "write_and_execute_python_file" "runpy.run_module(modname, init_globals={'_PRINT': _PRINT";
    mkFrame "runpy.py" 180 "run_module" "fname, loader, alter_sys)";
    mkFrame "runpy.py" 82 "_run_module_code" "mod_name, mod_fname, mod_loader, pkg_name)";
    mkFrame "runpy.py" 72 "_run_code" "exec code in run_globals";
    mkFrame "/tmp/gen.py" 2 "<module>" "import helper";
    mkFrame "/tmp/helper.py" 1 "<module>" "raise ValueError('no')" ].

Definition empty_world : World := mkWorld ∅ [] [].

(** ** Predicates used in the statements below *)

(** Every source line number in the line map of [self], and every line
    number of a queue, has the property [Q]. *)
Definition map_ok (Q : Z -> Prop) (self : PythonSequence) : Prop :=
  map_Forall (fun _ s => Q s) (python_line_map self).

Definition lines_ok (Q : Z -> Prop) (lines : list SourceLine) : Prop :=
  Forall (fun e => Q (snd e)) lines.

(** No key is a proper prefix of another one. *)
Definition prefix_free (keys : list string) : Prop :=
  forall a b, In a keys -> In b keys -> String.prefix a b = true -> a = b.

(** No line of the queue matches the end marker of a verbatim block. *)
Definition no_end_marker (lines : list SourceLine) : Prop :=
  Forall (fun e => PYTHON_BLOCK_END_REGEX (fst e) = false) lines.

(** The number of lines with an odd count of triple-quote markers. *)
Definition odd_triples (lines : list SourceLine) : nat :=
  length (filter (fun e => Nat.odd (count_triples (fst e)) = true) lines).

(** The width found by the loop of a verbatim block: that of the first line
    that is neither blank nor a comment. *)
Definition first_width (lines : list SourceLine) : option nat :=
  option_map (fun e => Re.leading_space (fst e))
    (List.find (fun e => negb (SPACE_COMMENT_REGEX (fst e))) lines).

(** [self] counts its lines from [o]: the counter is [o] plus the number of
    lines generated so far, and every key of the line map is one of their
    numbers. *)
Definition counted (o : Z) (hd : nat) (self : PythonSequence) : Prop :=
  wf_seq self
  /\ python_linenum self = o + Z.of_nat (length (get_lines self hd))
  /\ map_Forall (fun g _ => o <= g < python_linenum self) (python_line_map self).

(** The placeholder line that [replace_func] adds. *)
Definition dummyline : string := NL +:+ DUMMYTEXT.

(** [replace_func] over the pieces of a text. *)
Definition joined (segs : list (string * string)) (tail : string) : string :=
  fold_right (fun seg acc => fst seg +:+ replace_func (snd seg) +:+ acc) tail segs.


(** No newline in [s]; a generated line and a queue without newlines. *)
Definition one_line (s : string) : Prop := count_char LF s = 0%nat.

Definition line_ok (l : PythonLine) : Prop := one_line (line_string l).

Definition lines_one_line (lines : list SourceLine) : Prop :=
  Forall (fun e => one_line (fst e)) lines.

(** * Properties *)

(** ** Byte strings *)

Module StrFacts.

Lemma app_nil_l (s : string) : "" +:+ s = s.
Proof. reflexivity. Qed.

Lemma app_cons (c : ascii) (s t : string) : String c s +:+ t = String c (s +:+ t).
Proof. reflexivity. Qed.

Lemma app_nil_r (s : string) : s +:+ "" = s.
Proof. induction s as [|c s IH]; [reflexivity | now rewrite app_cons, IH]. Qed.

Lemma app_assoc (a b c : string) : (a +:+ b) +:+ c = a +:+ b +:+ c.
Proof. induction a as [|x a IH]; [reflexivity | now rewrite !app_cons, IH]. Qed.

Lemma length_app (a b : string) :
  String.length (a +:+ b) = (String.length a + String.length b)%nat.
Proof. induction a as [|x a IH]; [reflexivity | rewrite app_cons; simpl; now rewrite IH]. Qed.

Lemma drop_0 (s : string) : drop 0 s = s.
Proof. now destruct s. Qed.

Lemma drop_app (a b : string) : drop (String.length a) (a +:+ b) = b.
Proof. induction a as [|x a IH]; [apply drop_0 | exact IH]. Qed.

Lemma drop_drop (n m : nat) (s : string) : drop n (drop m s) = drop (m + n) s.
Proof.
  revert s; induction m as [|m IH]; intros s; simpl.
  - reflexivity.
  - destruct s as [|c s]; [now destruct n | apply IH].
Qed.

Lemma prefix_nil (s : string) : String.prefix "" s = true.
Proof. now destruct s. Qed.

Lemma prefix_cons (c d : ascii) (p s : string) :
  String.prefix (String c p) (String d s) = Ascii.eqb c d && String.prefix p s.
Proof.
  simpl. destruct (ascii_dec c d) as [->|Hne].
  - now rewrite Ascii.eqb_refl.
  - apply Ascii.eqb_neq in Hne. now rewrite Hne.
Qed.

Lemma prefix_app (p s : string) : String.prefix p (p +:+ s) = true.
Proof.
  induction p as [|c p IH]; [apply prefix_nil|].
  rewrite app_cons, prefix_cons, Ascii.eqb_refl. exact IH.
Qed.

Lemma prefix_split (p s : string) :
  String.prefix p s = true -> s = p +:+ drop (String.length p) s.
Proof.
  revert s; induction p as [|c p IH]; intros s H.
  - now rewrite drop_0.
  - destruct s as [|d s]; [discriminate|].
    rewrite prefix_cons in H. apply andb_prop in H as [Hc Hp].
    apply Ascii.eqb_eq in Hc as ->. rewrite app_cons. simpl. f_equal. now apply IH.
Qed.

Lemma count_char_app (c : ascii) (a b : string) :
  count_char c (a +:+ b) = (count_char c a + count_char c b)%nat.
Proof.
  induction a as [|x a IH]; [reflexivity|].
  rewrite app_cons. simpl. rewrite IH. lia.
Qed.

Lemma split_char_length (c : ascii) (s : string) :
  length (split_char c s) = S (count_char c s).
Proof.
  induction s as [|d s IH]; simpl; [reflexivity|].
  destruct (Ascii.eqb c d); simpl; [now rewrite IH|].
  destruct (split_char c s); simpl in *; [discriminate | exact IH].
Qed.

(** Replacing a single byte works byte by byte. *)
Lemma replace_char_cons (c d : ascii) (new s : string) :
  replace (String c "") new (String d s) =
  if Ascii.eqb c d then new +:+ replace (String c "") new s
  else String d (replace (String c "") new s).
Proof.
  unfold replace. cbn [replace_from]. rewrite prefix_cons, prefix_nil, andb_true_r.
  reflexivity.
Qed.

Lemma replace_char_app (c : ascii) (new a b : string) :
  replace (String c "") new (a +:+ b) =
  replace (String c "") new a +:+ replace (String c "") new b.
Proof.
  induction a as [|d a IH]; [reflexivity|].
  rewrite app_cons, !replace_char_cons, IH.
  destruct (Ascii.eqb c d); [now rewrite app_assoc | reflexivity].
Qed.

Lemma replace_from_skip (old new : string) (k : nat) (s : string) :
  replace_from old new k s = replace old new (drop k s).
Proof.
  revert k; induction s as [|c s IH]; intros [|k]; try reflexivity.
  simpl. apply IH.
Qed.

Lemma replace_prefix (old new s : string) :
  old <> "" -> replace old new (old +:+ s) = new +:+ replace old new s.
Proof.
  intros Hne. destruct old as [|c old]; [congruence|].
  unfold replace at 1. rewrite app_cons. cbn [replace_from].
  rewrite <- app_cons, prefix_app, replace_from_skip.
  replace (String.length (String c old) - 1)%nat with (String.length old)
    by (simpl; lia).
  now rewrite drop_app.
Qed.

Lemma replace_no_prefix (old new : string) (c : ascii) (s : string) :
  String.prefix old (String c s) = false ->
  replace old new (String c s) = String c (replace old new s).
Proof. intros H. unfold replace. cbn [replace_from]. now rewrite H. Qed.

Lemma count_char_times (c : ascii) (s : string) (n : nat) :
  count_char c (times s n) = (n * count_char c s)%nat.
Proof. induction n as [|n IH]; simpl; [reflexivity|]. rewrite count_char_app, IH. lia. Qed.

Lemma contains_cons (old : string) (c : ascii) (s : string) :
  contains old (String c s) = String.prefix old (String c s) || contains old s.
Proof. reflexivity. Qed.

Lemma contains_cons_false (old : string) (c : ascii) (s : string) :
  contains old (String c s) = false ->
  String.prefix old (String c s) = false /\ contains old s = false.
Proof. rewrite contains_cons. intros H. now apply orb_false_elim in H. Qed.

Lemma contains_char_cons (c d : ascii) (s : string) :
  contains (String c "") (String d s) = Ascii.eqb c d || contains (String c "") s.
Proof. now rewrite contains_cons, prefix_cons, prefix_nil, andb_true_r. Qed.

(** A byte string without [old] is left alone by [replace]. *)
Lemma replace_absent (old new s : string) :
  contains old s = false -> replace old new s = s.
Proof.
  induction s as [|c s IH]; intros H; [reflexivity|].
  apply contains_cons_false in H as [Hp Hc].
  rewrite replace_no_prefix by exact Hp. now rewrite IH.
Qed.

End StrFacts.

(** ** Expression markers *)

Module ExprFacts.
Import StrFacts.

Lemma until_brace_some (s m : string) :
  until_brace s = Some m ->
  s = m +:+ "}" +:+ drop (S (String.length m)) s /\ contains "}" m = false.
Proof.
  revert m; induction s as [|c s IH]; intros m H; [discriminate|].
  simpl in H. destruct (Ascii.eqb c "}") eqn:Hc.
  - injection H as <-. apply Ascii.eqb_eq in Hc as ->. split; reflexivity.
  - destruct (until_brace s) as [m'|]; [|discriminate].
    injection H as <-. destruct (IH m' eq_refl) as [Hs Hm]. split.
    + rewrite app_cons. simpl. now f_equal.
    + rewrite contains_char_cons, Hm, Ascii.eqb_sym, Hc. reflexivity.
Qed.

Lemma until_brace_app (m r : string) :
  contains "}" m = false -> until_brace (m +:+ "}" +:+ r) = Some m.
Proof.
  induction m as [|c m IH]; intros H; [reflexivity|].
  rewrite contains_char_cons in H. apply orb_false_elim in H as [Hp Hc].
  rewrite app_cons. simpl. rewrite Ascii.eqb_sym, Hp, IH by exact Hc. reflexivity.
Qed.

Lemma until_brace_none (s : string) :
  until_brace s = None <-> contains "}" s = false.
Proof.
  induction s as [|c s IH]; [easy|].
  simpl until_brace. rewrite contains_char_cons.
  rewrite (Ascii.eqb_sym "}" c).
  destruct (Ascii.eqb c "}"); [easy|].
  destruct (until_brace s); simpl; [|tauto].
  split; [discriminate|]. intros H. apply IH in H. discriminate.
Qed.

Lemma match_unfold (s : string) :
  EXPR_REGEX_match s =
  if String.prefix "${" s then until_brace (drop 2 s) else None.
Proof.
  destruct s as [|c [|d r]]; [reflexivity| |].
  - destruct c as [[] [] [] [] [] [] [] []]; reflexivity.
  - destruct c as [[] [] [] [] [] [] [] []]; try reflexivity.
    destruct d as [[] [] [] [] [] [] [] []];
      rewrite !prefix_cons, ?prefix_nil; reflexivity.
Qed.

Lemma match_some (s inner : string) :
  EXPR_REGEX_match s = Some inner ->
  s = marker inner +:+ drop (String.length inner + 3) s /\ contains "}" inner = false.
Proof.
  rewrite match_unfold. destruct (String.prefix "${" s) eqn:Hp; [|discriminate].
  intros H. apply until_brace_some in H as [Hr Hc]. split; [|exact Hc].
  apply prefix_split in Hp. rewrite Hp at 1. unfold marker.
  rewrite !app_assoc. f_equal. rewrite Hr at 1. do 2 f_equal.
  rewrite drop_drop. f_equal. simpl. lia.
Qed.

Lemma match_marker (inner r : string) :
  contains "}" inner = false -> EXPR_REGEX_match (marker inner +:+ r) = Some inner.
Proof.
  intros H. rewrite match_unfold. unfold marker. rewrite !app_assoc, prefix_app.
  change 2%nat with (String.length "${"). rewrite drop_app.
  now apply until_brace_app.
Qed.

Lemma scan_from_skip (k : nat) (s : string) :
  EXPR_REGEX_scan_from k s = EXPR_REGEX_scan (drop k s).
Proof.
  revert k; induction s as [|c s IH]; intros [|k]; try reflexivity.
  simpl. apply IH.
Qed.

Lemma scan_cons_match (c : ascii) (s inner : string) :
  EXPR_REGEX_match (String c s) = Some inner ->
  EXPR_REGEX_scan (String c s) =
  let r := EXPR_REGEX_scan (drop (String.length inner + 3) (String c s)) in
  (("", inner) :: fst r, snd r).
Proof.
  intros H. unfold EXPR_REGEX_scan at 1. cbn [EXPR_REGEX_scan_from]. rewrite H.
  rewrite scan_from_skip.
  replace (String.length inner + 3)%nat with (S (String.length inner + 2)) by lia.
  simpl drop. now destruct (EXPR_REGEX_scan _).
Qed.

Lemma scan_cons_no_match (c : ascii) (s : string) :
  EXPR_REGEX_match (String c s) = None ->
  EXPR_REGEX_scan (String c s) = cons_text c (EXPR_REGEX_scan s).
Proof. intros H. unfold EXPR_REGEX_scan at 1. cbn [EXPR_REGEX_scan_from]. now rewrite H. Qed.

Lemma assemble_cons_text (c : ascii) (r : list (string * string) * string) :
  assemble (fst (cons_text c r)) (snd (cons_text c r)) =
  String c (assemble (fst r) (snd r)).
Proof. destruct r as [[|[t e] segs] tl]; reflexivity. Qed.

(** The scan cuts the line into its pieces: put together again they give
    the line back. *)
Lemma scan_reassemble (s : string) :
  assemble (fst (EXPR_REGEX_scan s)) (snd (EXPR_REGEX_scan s)) = s.
Proof.
  remember (String.length s) as n eqn:Hn.
  revert s Hn; induction n as [n IH] using lt_wf_ind; intros s Hn.
  destruct s as [|c s]; [reflexivity|].
  destruct (EXPR_REGEX_match (String c s)) as [inner|] eqn:Hm.
  - rewrite (scan_cons_match _ _ _ Hm). cbn [fst snd assemble fold_right].
    apply match_some in Hm as [Hs _].
    fold (assemble (fst (EXPR_REGEX_scan (drop (String.length inner + 3) (String c s))))
                   (snd (EXPR_REGEX_scan (drop (String.length inner + 3) (String c s))))).
    rewrite (IH (String.length (drop (String.length inner + 3) (String c s)))).
    + now rewrite app_nil_l, <- Hs.
    + subst n. rewrite Hs at 2. rewrite length_app. unfold marker.
      rewrite !length_app. simpl. lia.
    + reflexivity.
  - rewrite (scan_cons_no_match _ _ Hm), assemble_cons_text. f_equal.
    apply (IH (String.length s)); [subst n; simpl; lia | reflexivity].
Qed.

End ExprFacts.

(** ** The preprocessor *)

Module PreprocessFacts.
Import StrFacts ExprFacts.

Lemma count_replace_newline (s : string) : count_char LF (replace NL " " s) = 0%nat.
Proof.
  induction s as [|d s IH]; [reflexivity|].
  unfold NL. rewrite replace_char_cons. fold NL.
  destruct (Ascii.eqb LF d) eqn:Hd.
  - rewrite count_char_app, IH. reflexivity.
  - cbn [count_char]. now rewrite Hd, IH.
Qed.

Lemma count_marker (inner : string) :
  count_char LF (marker inner) = count_char LF inner.
Proof. unfold marker. rewrite !count_char_app. simpl. lia. Qed.

Lemma count_replace_func (inner : string) :
  count_char LF (replace_func inner) = count_char LF (marker inner).
Proof.
  rewrite count_marker. unfold replace_func.
  rewrite !count_char_app, count_replace_newline, count_char_times.
  rewrite count_char_app. simpl. lia.
Qed.

Lemma count_assemble (segs : list (string * string)) (tail : string) :
  count_char LF
    (fold_right (fun seg acc => fst seg +:+ replace_func (snd seg) +:+ acc) tail segs) =
  count_char LF (assemble segs tail).
Proof.
  induction segs as [|seg segs IH]; [reflexivity|].
  cbn [fold_right assemble]. fold (assemble segs tail).
  rewrite !count_char_app, IH, count_replace_func. reflexivity.
Qed.

(** Preprocessing keeps the number of newlines. *)
Lemma preprocess_count (text : string) :
  count_char LF (preprocess_text text) = count_char LF text.
Proof.
  unfold preprocess_text, EXPR_REGEX_sub.
  rewrite count_assemble, scan_reassemble. reflexivity.
Qed.

Lemma line_numbers_length (n : nat) : length (line_numbers n) = n.
Proof. unfold line_numbers. now rewrite length_map, length_seq. Qed.

(** C6.  For every input text the preprocessed text has as many physical
    lines as the original, and the stream of (text, line number) pairs
    built from it carries the numbers 1, 2, ..., n of the original lines,
    each exactly once and in order. *)
Theorem preprocess_keeps_line_count (text : string) :
  length (split_char LF (preprocess_text text)) = length (split_char LF text)
  /\ length (PYPParser_textlines text) = length (split_char LF text)
  /\ map snd (PYPParser_textlines text) = line_numbers (length (split_char LF text))
  /\ NoDup (map snd (PYPParser_textlines text)).
Proof.
  assert (Hlen : length (split_char LF (preprocess_text text))
                 = length (split_char LF text))
    by now rewrite !split_char_length, preprocess_count.
  assert (Hsnd : map snd (PYPParser_textlines text)
                 = line_numbers (length (split_char LF text))).
  { unfold PYPParser_textlines. rewrite Hlen.
    apply snd_zip. rewrite line_numbers_length. lia. }
  split; [exact Hlen|]. split; [|split; [exact Hsnd|]].
  - unfold PYPParser_textlines. rewrite length_zip_with, line_numbers_length. lia.
  - rewrite Hsnd. unfold line_numbers. apply NoDup_fmap_2.
    + intros x y Hxy. lia.
    + apply NoDup_seq.
Qed.

End PreprocessFacts.

(** ** The literal-line transformer *)

Module LiteralFacts.
Import StrFacts ExprFacts.

Lemma marker_length (e : string) : String.length (marker e) = (String.length e + 3)%nat.
Proof. unfold marker. rewrite !length_app. simpl. lia. Qed.

Lemma scan_marker_free (s : string) :
  marker_free s = true -> EXPR_REGEX_scan s = ([], s).
Proof.
  induction s as [|c s IH]; [reflexivity|].
  cbn [marker_free]. intros H. apply andb_prop in H as [Hm Hs].
  assert (Hn : EXPR_REGEX_match (String c s) = None).
  { rewrite match_unfold. destruct (String.prefix "${" (String c s)); [|reflexivity].
    rewrite andb_true_l in Hm. apply negb_true_iff in Hm. now apply until_brace_none. }
  rewrite (scan_cons_no_match _ _ Hn), (IH Hs). reflexivity.
Qed.

Lemma prefix_open_app (c : ascii) (t r : string) :
  String.prefix "${" (String c t) = false ->
  String.prefix "${" (String c (t +:+ "${" +:+ r)) = false.
Proof.
  rewrite !prefix_cons. destruct (Ascii.eqb "$" c); [|reflexivity].
  destruct t as [|d t].
  - intros _. now rewrite app_nil_l, app_cons, !prefix_cons.
  - now rewrite app_cons, !prefix_cons, !prefix_nil.
Qed.

Lemma scan_text_marker (t e rest : string) :
  contains "${" t = false -> contains "}" e = false ->
  EXPR_REGEX_scan (t +:+ marker e +:+ rest) =
  ((t, e) :: fst (EXPR_REGEX_scan rest), snd (EXPR_REGEX_scan rest)).
Proof.
  intros Ht He. induction t as [|c t IH].
  - rewrite app_nil_l.
    assert (Hm := match_marker e rest He).
    destruct (marker e +:+ rest) as [|c s] eqn:Hs; [discriminate|].
    rewrite (scan_cons_match _ _ _ Hm). cbn zeta.
    rewrite <- Hs, <- marker_length, drop_app. reflexivity.
  - apply contains_cons_false in Ht as [Hp Ht].
    assert (Hn : EXPR_REGEX_match (String c (t +:+ marker e +:+ rest)) = None).
    { rewrite match_unfold. unfold marker. rewrite !app_assoc.
      now rewrite prefix_open_app. }
    rewrite app_cons, (scan_cons_no_match _ _ Hn), (IH Ht). reflexivity.
Qed.

(** The pieces of a well-formed line are what the scan finds: its markers,
    left to right. *)
Lemma scan_assemble (segs : list (string * string)) (tail : string) :
  pieces_wf segs tail -> EXPR_REGEX_scan (assemble segs tail) = (segs, tail).
Proof.
  intros [Hsegs Htail]. induction Hsegs as [|[t e] segs [Ht He] _ IH].
  - now apply scan_marker_free.
  - cbn [assemble fold_right fst snd]. fold (assemble segs tail).
    rewrite scan_text_marker, IH by assumption. reflexivity.
Qed.

Lemma findall_assemble (segs : list (string * string)) (tail : string) :
  pieces_wf segs tail -> EXPR_REGEX_findall (assemble segs tail) = map snd segs.
Proof. intros H. unfold EXPR_REGEX_findall. now rewrite scan_assemble. Qed.

(** *** Doubling the percent signs keeps the pieces *)

Lemma escape_percent_cons (d : ascii) (s : string) :
  escape_percent (String d s) =
  if Ascii.eqb "%" d then "%%" +:+ escape_percent s else String d (escape_percent s).
Proof. apply replace_char_cons. Qed.

Lemma escape_percent_app (a b : string) :
  escape_percent (a +:+ b) = escape_percent a +:+ escape_percent b.
Proof. apply replace_char_app. Qed.

Lemma escape_percent_head (c : ascii) (s : string) :
  Ascii.eqb "%" c = false ->
  String.prefix (String c "") (escape_percent s) = String.prefix (String c "") s.
Proof.
  intros Hc. destruct s as [|d s]; [reflexivity|].
  rewrite escape_percent_cons. destruct (Ascii.eqb "%" d) eqn:Hd.
  - apply Ascii.eqb_eq in Hd as <-.
    rewrite !app_cons, !prefix_cons, Ascii.eqb_sym, Hc. reflexivity.
  - now rewrite !prefix_cons, !prefix_nil.
Qed.

Lemma escape_percent_contains_char (c : ascii) (s : string) :
  Ascii.eqb "%" c = false ->
  contains (String c "") (escape_percent s) = contains (String c "") s.
Proof.
  intros Hc. induction s as [|d s IH]; [reflexivity|].
  rewrite escape_percent_cons. destruct (Ascii.eqb "%" d) eqn:Hd.
  - apply Ascii.eqb_eq in Hd as <-.
    rewrite !app_cons, app_nil_l, !contains_char_cons, IH.
    rewrite (Ascii.eqb_sym c "%"), Hc. reflexivity.
  - now rewrite !contains_char_cons, IH.
Qed.

Lemma escape_percent_no_open (t : string) :
  contains "${" t = false -> contains "${" (escape_percent t) = false.
Proof.
  induction t as [|d t IH]; [reflexivity|].
  intros H. apply contains_cons_false in H as [Hp Ht].
  rewrite escape_percent_cons. destruct (Ascii.eqb "%" d) eqn:Hd.
  - rewrite !app_cons, app_nil_l, !contains_cons, !prefix_cons, IH by exact Ht.
    reflexivity.
  - rewrite contains_cons, IH by exact Ht. rewrite orb_false_r.
    rewrite prefix_cons in *. destruct (Ascii.eqb "$" d); [|reflexivity].
    rewrite andb_true_l in *. now rewrite escape_percent_head.
Qed.

Lemma escape_percent_drop_open (s : string) :
  String.prefix "${" s = true ->
  drop 2 (escape_percent s) = escape_percent (drop 2 s)
  /\ String.prefix "${" (escape_percent s) = true.
Proof.
  intros H. apply prefix_split in H. rewrite H at 1 3.
  rewrite escape_percent_app. change (escape_percent "${") with "${".
  rewrite prefix_app. split; [|reflexivity].
  change 2%nat with (String.length "${"). now rewrite drop_app.
Qed.

Lemma escape_percent_marker_free (s : string) :
  marker_free s = true -> marker_free (escape_percent s) = true.
Proof.
  induction s as [|d s IH]; [reflexivity|].
  cbn [marker_free]. intros H. apply andb_prop in H as [Hm Hs].
  specialize (IH Hs). rewrite escape_percent_cons.
  destruct (Ascii.eqb "%" d) eqn:Hd.
  - rewrite !app_cons, app_nil_l. cbn [marker_free]. rewrite IH, !prefix_cons.
    reflexivity.
  - cbn [marker_free]. rewrite IH, andb_true_r.
    destruct (String.prefix "${" (String d s)) eqn:Hp.
    + rewrite andb_true_l in Hm. rewrite prefix_cons in Hp.
      apply andb_prop in Hp as [Hd' Hp]. apply Ascii.eqb_eq in Hd' as <-.
      destruct s as [|x s]; [discriminate|].
      rewrite prefix_cons, prefix_nil, andb_true_r in Hp.
      apply Ascii.eqb_eq in Hp as <-.
      rewrite escape_percent_cons. change (Ascii.eqb "%" "{") with false.
      cbn iota. rewrite !prefix_cons, prefix_nil. cbn [drop] in *.
      rewrite escape_percent_contains_char by reflexivity.
      rewrite !Ascii.eqb_refl. exact Hm.
    + rewrite prefix_cons in *. destruct (Ascii.eqb "$" d); [|reflexivity].
      rewrite andb_true_l in *. now rewrite escape_percent_head, Hp.
Qed.

Lemma escape_percent_pieces (segs : list (string * string)) (tail : string) :
  pieces_wf segs tail ->
  pieces_wf (map (fun seg => (escape_percent (fst seg), escape_percent (snd seg))) segs)
    (escape_percent tail).
Proof.
  intros [Hsegs Htail]. split; [|now apply escape_percent_marker_free].
  induction Hsegs as [|[t e] segs [Ht He] _ IH]; constructor; [|exact IH].
  cbn [fst snd]. split; [now apply escape_percent_no_open|].
  now rewrite escape_percent_contains_char.
Qed.

Lemma escape_percent_assemble (segs : list (string * string)) (tail : string) :
  escape_percent (assemble segs tail) =
  assemble (map (fun seg => (escape_percent (fst seg), escape_percent (snd seg))) segs)
    (escape_percent tail).
Proof.
  induction segs as [|[t e] segs IH]; [reflexivity|].
  cbn [assemble fold_right map fst snd]. fold (assemble segs tail). unfold marker.
  rewrite !escape_percent_app, IH. reflexivity.
Qed.

(** The format string: the pieces' texts with one placeholder for each
    marker. *)
Lemma sub_placeholder (segs : list (string * string)) (tail : string) :
  pieces_wf segs tail ->
  EXPR_REGEX_sub (fun _ => "%s") (escape_percent (assemble segs tail)) =
  format_of segs tail.
Proof.
  intros H. unfold EXPR_REGEX_sub.
  rewrite escape_percent_assemble, scan_assemble by now apply escape_percent_pieces.
  cbn [fst snd]. clear H. induction segs as [|[t e] segs IH]; [reflexivity|].
  cbn [map fold_right format_of fst snd]. now rewrite IH.
Qed.

(** *** Cleaning an expression *)

Lemma replace_from_keeps_absent (c : ascii) (old : string) (k : nat) (s : string) :
  contains (String c "") s = false ->
  contains (String c "") (replace_from old "" k s) = false.
Proof.
  revert k; induction s as [|d s IH]; intros k H; [now destruct k|].
  rewrite contains_char_cons in H. apply orb_false_elim in H as [Hd Hs].
  destruct k as [|k]; cbn [replace_from]; [|now apply IH].
  destruct (String.prefix old (String d s)).
  - rewrite app_nil_l. now apply IH.
  - rewrite contains_char_cons, Hd. now apply IH.
Qed.

(** An expression holds no closing brace, so cleaning it only deletes the
    openings it holds. *)
Lemma clean_expr_open (e : string) :
  contains "}" e = false -> clean_expr e = replace "${" "" e.
Proof.
  intros H. unfold clean_expr. apply replace_absent.
  now apply replace_from_keeps_absent.
Qed.

Lemma clean_expr_id (e : string) :
  contains "}" e = false -> contains "${" e = false -> clean_expr e = e.
Proof. intros H1 H2. rewrite clean_expr_open by exact H1. now apply replace_absent. Qed.

(** C3 (as amended).  A literal line whose pieces are given, text and
    expression marker in turn, becomes exactly one emission statement: the
    print function applied to the format string of the line and the tuple
    of the expression texts, in the order of the markers in the line.
    Each expression text is as written, except that an opening of a
    marker inside it is deleted.  A line without markers becomes the
    emission of its quoted text. *)
Theorem line_to_pythonstatement_pieces (is_pypdef : bool)
    (segs : list (string * string)) (tail : string) :
  pieces_wf segs tail ->
  line_to_pythonstatement is_pypdef (assemble segs tail) =
  print_func is_pypdef +:+ "(" +:+
    match segs with
    | [] => "('" +:+ escape_quotes tail +:+ "')"
    | _ :: _ =>
        ("'" +:+ escape_quotes (format_of segs tail) +:+ "'") +:+ " % " +:+
        ("(" +:+
         join "," (map (fun seg => "(" +:+ replace "${" "" (snd seg) +:+ ")") segs)
         +:+ ",)")
    end +:+ ")".
Proof.
  intros H. unfold line_to_pythonstatement.
  rewrite (findall_assemble _ _ H).
  destruct segs as [|seg segs]; [reflexivity|].
  set (all := seg :: segs) in *. cbn [map]. fold (map snd all).
  change (snd seg :: map snd segs) with (map snd all).
  rewrite (sub_placeholder _ _ H).
  assert (Hargs :
    map (fun expr => "(" +:+ expr +:+ ")") (map clean_expr (map snd all)) =
    map (fun seg => "(" +:+ replace "${" "" (snd seg) +:+ ")") all).
  { destruct H as [Hsegs _]. clearbody all.
    induction Hsegs as [|[t e] rest [_ He] _ IH]; [reflexivity|].
    cbn [map snd] in *. now rewrite IH, (clean_expr_open _ He). }
  now rewrite Hargs.
Qed.

Lemma line_to_pythonstatement_pieces_witness :
  pieces_wf [("Hello ", "name")] "!"
  /\ line_to_pythonstatement false "Hello ${name}!" = "_PRINT('Hello %s!' % ((name),))".
Proof.
  assert (H : pieces_wf [("Hello ", "name")] "!") by (repeat constructor).
  split; [exact H|].
  exact (line_to_pythonstatement_pieces false [("Hello ", "name")] "!" H).
Defined.

(** C3, as stated, fails: the expression text of this line is [a${b], and
    the argument of the statement is [ab]. *)
Lemma line_to_pythonstatement_not_verbatim :
  EXPR_REGEX_findall "${a${b}" = ["a${b"]
  /\ line_to_pythonstatement false "${a${b}" = "_PRINT('%s' % ((ab),))"
  /\ line_to_pythonstatement false "${a${b}" <> "_PRINT('%s' % ((a${b),))".
Proof. split; [reflexivity|]. split; [reflexivity|]. discriminate. Qed.

End LiteralFacts.
Local Close Scope string_scope.


(** ** The block parser, one line at a time *)

Module ParseFacts.

(** One iteration of the loop of [parse_lines], by the kind of the line. *)
Lemma parse_lines_step (fuel : nat) (self : PythonSequence) (raw : string)
    (linenum : Z) (lines : list SourceLine) :
  parse_lines (S fuel) self ((raw, linenum) :: lines) =
  match line_kind raw with
  | KSkip => parse_lines fuel self lines
  | KVerbatim =>
      match _process_python_block lines with
      | Ok (blk, rest) => parse_lines fuel (add_compound_block self blk) rest
      | Raise e => Raise e
      | OutOfFuel => OutOfFuel
      end
  | KStart st w =>
      match parse_lines fuel (open_block (update_python_linemap self linenum) st w linenum)
              lines with
      | Ok (new_block, rest) => parse_lines fuel (splice_block self linenum new_block) rest
      | Raise e => Raise e
      | OutOfFuel => OutOfFuel
      end
  | KMiddle st w =>
      match control_word self with
      | None =>
          Raise (ParseError
                   ("Found middle control word (" +:+ w +:+ ") without starting word")
                   (replace DUMMYTEXT "" raw) linenum)
      | Some word =>
          if negb (opt_string_eqb (MIDDLE2START_MAP w) word) then
            Raise (ParseError
                     ("Middle control word (" +:+ w +:+
                      ") doesn't match current block " +:+
                      current_block_text (map_increment_linenum self linenum))
                     (replace DUMMYTEXT "" raw) linenum)
          else parse_lines fuel (middle_block self st w linenum) lines
      end
  | KEnd w =>
      match control_word self with
      | None =>
          Raise (ParseError
                   ("Found end control word (end" +:+ w +:+ ") without starting word")
                   (replace DUMMYTEXT "" raw) linenum)
      | Some word =>
          if negb (String.eqb w word) then
            Raise (ParseError
                     ("End control word (end" +:+ w +:+
                      ") doesn't match current block " +:+
                      current_block_text (end_block self w))
                     (replace DUMMYTEXT "" raw) linenum)
          else Ok (end_block self w, lines)
      end
  | KPython st =>
      parse_lines fuel
        (add_node self (NodeLine (PythonLine_init st false)) (Some linenum) true) lines
  | KLiteral line =>
      parse_lines fuel
        (add_node self
           (NodeLine (PythonLine_init (line_to_pythonstatement (pypdef self) line) false))
           (Some linenum) true) lines
  end.
Proof.
  cbn [parse_lines]. unfold line_kind.
  destruct (PYP_COMMENT_REGEX raw || DUMMYTEXT_REGEX raw); [reflexivity|].
  destruct (PYTHON_BLOCK_START_REGEX (replace DUMMYTEXT "" raw)); [reflexivity|].
  destruct (CONTROL_START_REGEX (replace DUMMYTEXT "" raw)) as [[st w]|].
  { unfold open_block, splice_block.
    destruct (String.eqb w "pypdef"); reflexivity. }
  destruct (CONTROL_MIDDLE_REGEX (replace DUMMYTEXT "" raw)) as [[st w]|].
  { destruct self; reflexivity. }
  destruct (CONTROL_END_REGEX (replace DUMMYTEXT "" raw)) as [w|].
  { unfold end_block.
    destruct (String.eqb w "pypdef"); destruct self as [? ? ? ? ? ? [|i] ? ? ?];
      reflexivity. }
  destruct (NORMAL_PYTHON_LINE_REGEX (replace DUMMYTEXT "" raw)); reflexivity.
Qed.

(** *** The queue only gets shorter *)

Lemma process_python_block_loop_rest (lines : list SourceLine) :
  forall ms a b blk ms' rest,
    process_python_block_loop lines ms a b = Some (blk, ms', rest) ->
    exists pre, lines = (pre ++ rest)%list /\ length pre = S (length blk).
Proof.
  induction lines as [|[line n] lines IH]; intros ms a b blk ms' rest H; [discriminate|].
  cbn [process_python_block_loop] in H.
  destruct (PYTHON_BLOCK_END_REGEX line).
  - injection H as <- <- <-. now exists [(line, n)].
  - match type of H with
    | match ?x with _ => _ end = _ => destruct x as [[[blk0 ms0] rest0]|] eqn:Hrec
    end; [|discriminate].
    injection H as <- <- <-. apply IH in Hrec as (pre & -> & Hlen).
    exists ((line, n) :: pre). split; [reflexivity | simpl; now rewrite Hlen].
Qed.

Lemma process_python_block_rest (lines : list SourceLine) blk rest :
  _process_python_block lines = Ok (blk, rest) ->
  exists pre, lines = (pre ++ rest)%list /\ length pre = S (length blk).
Proof.
  unfold _process_python_block.
  destruct (process_python_block_loop lines None false false)
    as [[[blk0 ms0] rest0]|] eqn:H; [|discriminate].
  intros [= <- <-]. apply process_python_block_loop_rest in H as (pre & -> & Hlen).
  exists pre. split; [reflexivity|]. now rewrite length_map in *.
Qed.

Lemma process_python_block_shorter (lines : list SourceLine) blk rest :
  _process_python_block lines = Ok (blk, rest) -> (length rest < length lines)%nat.
Proof.
  intros H. apply process_python_block_rest in H as (pre & -> & Hlen).
  rewrite length_app. lia.
Qed.

Lemma process_python_block_fuel (lines : list SourceLine) :
  _process_python_block lines <> OutOfFuel.
Proof.
  unfold _process_python_block.
  now destruct (process_python_block_loop lines None false false) as [[[? ?] ?]|].
Qed.

Lemma parse_lines_rest (fuel : nat) :
  forall self lines self' rest,
    parse_lines fuel self lines = Ok (self', rest) ->
    (length rest <= length lines)%nat.
Proof.
  induction fuel as [|fuel IH]; intros self lines self' rest H; [discriminate|].
  destruct lines as [|[raw n] lines]; [now injection H as <- <-|].
  rewrite parse_lines_step in H. cbn [length].
  destruct (line_kind raw) as [| |st w|st w|w|st|line].
  - apply IH in H. lia.
  - destruct (_process_python_block lines) as [[blk rest0]| |] eqn:Hb; try discriminate.
    apply process_python_block_shorter in Hb. apply IH in H. lia.
  - destruct (parse_lines fuel _ lines) as [[nb rest0]| |] eqn:Hn; try discriminate.
    apply IH in Hn. apply IH in H. lia.
  - destruct (control_word self); [|discriminate].
    destruct (negb _); [discriminate|]. apply IH in H. lia.
  - destruct (control_word self); [|discriminate].
    destruct (negb _); [discriminate|]. injection H as <- <-. lia.
  - apply IH in H. lia.
  - apply IH in H. lia.
Qed.

(** Any fuel above the length of the queue gives the same result. *)
Lemma parse_lines_fuel (f1 : nat) :
  forall f2 self lines,
    (length lines < f1)%nat -> (length lines < f2)%nat ->
    parse_lines f1 self lines = parse_lines f2 self lines.
Proof.
  induction f1 as [|f1 IH]; intros f2 self lines H1 H2; [lia|].
  destruct f2 as [|f2]; [lia|].
  destruct lines as [|[raw n] lines]; [reflexivity|].
  cbn [length] in *. rewrite !parse_lines_step.
  destruct (line_kind raw) as [| |st w|st w|w|st|line].
  - apply IH; lia.
  - destruct (_process_python_block lines) as [[blk rest0]| |] eqn:Hb; try reflexivity.
    apply process_python_block_shorter in Hb. apply IH; lia.
  - rewrite (IH f2 _ lines) by lia.
    destruct (parse_lines f2 _ lines) as [[nb rest0]| |] eqn:Hn; try reflexivity.
    apply parse_lines_rest in Hn. apply IH; lia.
  - destruct (control_word self); [|reflexivity].
    destruct (negb _); [reflexivity|]. apply IH; lia.
  - reflexivity.
  - apply IH; lia.
  - apply IH; lia.
Qed.

(** The parser terminates: with enough fuel it gives a result. *)
Lemma parse_lines_total (fuel : nat) :
  forall self lines,
    (length lines < fuel)%nat -> parse_lines fuel self lines <> OutOfFuel.
Proof.
  induction fuel as [|fuel IH]; intros self lines H; [lia|].
  destruct lines as [|[raw n] lines]; [discriminate|].
  cbn [length] in *. rewrite parse_lines_step.
  destruct (line_kind raw) as [| |st w|st w|w|st|line].
  - apply IH; lia.
  - destruct (_process_python_block lines) as [[blk rest0]| |] eqn:Hb; try discriminate.
    + apply process_python_block_shorter in Hb. apply IH; lia.
    + now apply process_python_block_fuel in Hb.
  - destruct (parse_lines fuel _ lines) as [[nb rest0]| |] eqn:Hn; try discriminate.
    + apply parse_lines_rest in Hn. apply IH; lia.
    + apply IH in Hn; [contradiction | lia].
  - destruct (control_word self); [|discriminate].
    destruct (negb _); [discriminate|]. apply IH; lia.
  - destruct (control_word self); [|discriminate].
    now destruct (negb _).
  - apply IH; lia.
  - apply IH; lia.
Qed.

Lemma parse_total (self : PythonSequence) (lines : list SourceLine) :
  parse self lines <> OutOfFuel.
Proof. apply parse_lines_total. lia. Qed.

Lemma parse_fuel (fuel : nat) (self : PythonSequence) (lines : list SourceLine) :
  (length lines < fuel)%nat -> parse_lines fuel self lines = parse self lines.
Proof. intros H. apply parse_lines_fuel; [exact H | lia]. Qed.

(** *** What the tree generates *)

Lemma get_lines_unfold (self : PythonSequence) (hd : nat) :
  get_lines self hd =
  if is_indented self then List.flat_map (block_lines hd) (control_blocks self)
  else List.flat_map (Node_get_lines hd) (nodes self).
Proof. reflexivity. Qed.

Lemma extends_refl (self : PythonSequence) (hd : nat) :
  wf_seq self -> extends self self hd [].
Proof. intros H. repeat split; try assumption. now rewrite app_nil_r. Qed.

Lemma extends_trans (a b c : PythonSequence) (hd : nat) (o1 o2 : list PythonLine) :
  extends a b hd o1 -> extends b c hd o2 -> extends a c hd (o1 ++ o2).
Proof.
  intros (_ & Hi1 & Hw1 & Hp1 & Hg1) (Hwf & Hi2 & Hw2 & Hp2 & Hg2).
  repeat split; try congruence. now rewrite Hg2, Hg1, <- List.app_assoc.
Qed.

Lemma extends_node_depth (a b : PythonSequence) (hd : nat) (o : list PythonLine) :
  extends a b hd o -> node_depth b hd = node_depth a hd.
Proof. intros (_ & Hi & _). unfold node_depth. now rewrite Hi. Qed.

Lemma extends_seq_acc (a b : PythonSequence) (hd : nat) (o : list PythonLine) :
  extends a b hd o -> seq_acc b = seq_acc a.
Proof. intros (_ & Hi & _ & Hp & _). unfold seq_acc. now rewrite Hi, Hp. Qed.

Lemma flat_map_snoc {A B : Type} (f : A -> list B) (l : list A) (x : A) :
  List.flat_map f (l ++ [x]) = (List.flat_map f l ++ f x)%list.
Proof. rewrite List.flat_map_app. simpl. now rewrite app_nil_r. Qed.

Lemma extends_add_node (self : PythonSequence) (node : Node) (linenum : option Z)
    (hd : nat) :
  wf_seq self ->
  extends self (add_node self node linenum true) hd
    (Node_get_lines (node_depth self hd) node).
Proof.
  destruct self as [ind cs cw cl ns bs cur pl pm pd].
  unfold wf_seq, extends, node_depth, add_node, curr_node_list_append. cbn.
  destruct ind; cbn.
  - intros [(bs0 & b & -> & ->) Hw].
    assert (Halter : alter (block_append node) (length bs0) (bs0 ++ [b])
                     = (bs0 ++ [block_append node b])%list).
    { rewrite alter_app_r_alt by lia. now rewrite Nat.sub_diag. }
    destruct linenum; cbn; rewrite Halter;
      (repeat split; [now exists bs0, (block_append node b) | assumption |]);
      rewrite !flat_map_snoc; cbn; rewrite flat_map_snoc;
      now rewrite <- List.app_assoc.
  - intros (-> & -> & ->).
    destruct linenum; cbn; (repeat split); now rewrite flat_map_snoc.
Qed.

Lemma extends_from_update (self : PythonSequence) (n : Z) (b : PythonSequence)
    (hd : nat) (o : list PythonLine) :
  extends (update_python_linemap self n) b hd o -> extends self b hd o.
Proof. destruct self. exact (fun H => H). Qed.

Lemma wf_seq_update (self : PythonSequence) (n : Z) :
  wf_seq self -> wf_seq (update_python_linemap self n).
Proof. destruct self. exact (fun H => H). Qed.

Lemma extends_set_linenum (a b : PythonSequence) (n : Z) (hd : nat) (o : list PythonLine) :
  extends a b hd o -> extends a (set_python_linenum b n) hd o.
Proof. destruct b. exact (fun H => H). Qed.

Lemma extends_set_line_map (a b : PythonSequence) (m : gmap Z Z) (hd : nat)
    (o : list PythonLine) :
  extends a b hd o -> extends a (set_python_line_map b m) hd o.
Proof. destruct b. exact (fun H => H). Qed.

Lemma extends_splice (self : PythonSequence) (linenum : Z) (nb : PythonSequence)
    (hd : nat) :
  wf_seq self ->
  extends self (splice_block self linenum nb) hd (get_lines nb (node_depth self hd)).
Proof.
  intros H. unfold splice_block.
  apply extends_set_line_map, extends_set_linenum.
  apply (extends_from_update self linenum).
  apply (extends_add_node (update_python_linemap self linenum) (NodeSequence nb) None hd).
  now apply wf_seq_update.
Qed.

Lemma extends_middle (self : PythonSequence) (st w : string) (linenum : Z) (hd : nat) :
  wf_seq self -> is_indented self = true ->
  extends self (middle_block self st w linenum) hd [statement_at hd st].
Proof.
  destruct self as [ind cs cw cl ns bs cur pl pm pd].
  unfold wf_seq, extends, middle_block. cbn. intros H ->. cbn in *.
  destruct H as [(bs0 & b & -> & ->) Hw].
  repeat split;
    [now exists (bs0 ++ [b]), (mkPythonControlBlock [] (PythonLine_init st false) w)
    | assumption |].
  now rewrite (flat_map_snoc _ (bs0 ++ [b])).
Qed.

Lemma extends_end (self : PythonSequence) (w : string) (hd : nat) :
  wf_seq self ->
  extends self (end_block self w) hd
    (if String.eqb w "pypdef" then [statement_at (node_depth self hd) OUTPUT_RETURN]
     else []).
Proof.
  intros H. unfold end_block. destruct (String.eqb w "pypdef").
  - exact (extends_add_node self (NodeLine (PythonLine_init OUTPUT_RETURN false))
             None hd H).
  - now apply extends_refl.
Qed.

Lemma extends_compound (blk : list (PythonLine * Z)) (hd : nat) :
  forall self,
    wf_seq self ->
    extends self (add_compound_block self blk) hd
      (map (fun e => set_indent (fst e) (node_depth self hd)) blk).
Proof.
  induction blk as [|e blk IH]; intros self H; [now apply extends_refl|].
  unfold add_compound_block. cbn [fold_left map].
  pose proof (extends_add_node self (NodeLine (fst e)) (Some (snd e)) hd H) as H1.
  change (Node_get_lines (node_depth self hd) (NodeLine e.1))
    with ([set_indent (fst e) (node_depth self hd)]) in H1.
  change (?x :: ?l) with ([x] ++ l).
  eapply extends_trans; [exact H1|].
  rewrite <- (extends_node_depth _ _ _ _ H1).
  apply IH. now destruct H1.
Qed.

Lemma open_block_spec (self : PythonSequence) (st w : string) (linenum n : Z) (hd : nat) :
  let nb := open_block (update_python_linemap self n) st w linenum in
  wf_seq nb
  /\ is_indented nb = true
  /\ control_word nb = Some w
  /\ seq_acc nb = seq_acc self || String.eqb w "pypdef"
  /\ get_lines nb hd =
     statement_at hd (if String.eqb w "pypdef" then replace_first "pypdef" "def" st else st)
     :: (if String.eqb w "pypdef" then [statement_at (S hd) OUTPUT_INIT] else []).
Proof.
  destruct self as [ind cs cw cl ns bs cur pl pm pd].
  unfold open_block, seq_acc. cbn.
  destruct (String.eqb w "pypdef"); cbn.
  - repeat split; try reflexivity.
    + eexists [], _. split; reflexivity.
    + now eexists.
    + now rewrite orb_true_r.
  - rewrite orb_false_r, andb_false_r. cbn.
    repeat split; try reflexivity.
    + eexists [], _. split; reflexivity.
    + now eexists.
Qed.

End ParseFacts.

(** ** The line-by-line run *)

Module SpecFacts.

Section Run.
Variable lit : bool -> string -> string.

Lemma emit_nil (r : list PythonLine * SpecStop) : emit [] r = r.
Proof. now destruct r. Qed.

Lemma emit_emit (o1 o2 : list PythonLine) (r : list PythonLine * SpecStop) :
  emit o1 (emit o2 r) = emit (o1 ++ o2) r.
Proof. unfold emit. cbn. now rewrite List.app_assoc. Qed.

Lemma frame_emit f open k out r :
  frame_result f open k (emit out r) = emit out (frame_result f open k r).
Proof.
  destruct r as [o [o'|rest|raw n|]]; unfold frame_result, emit; cbn;
    try reflexivity.
  now rewrite List.app_assoc.
Qed.

Lemma spec_run_skip base bacc bd open (k : nat) (lines : list SourceLine) :
  spec_run lit base bacc bd open k lines =
  spec_run lit base bacc bd open 0 (skipn k lines).
Proof.
  revert k; induction lines as [|[raw n] lines IH]; intros [|k]; try reflexivity.
  cbn [spec_run skipn]. apply IH.
Qed.

Lemma frame_depth bd (f : SpecFrame) (open open1 : list SpecFrame) :
  open_depth bd (open1 ++ f :: open) = open_depth (bd + length open + 1) open1.
Proof. unfold open_depth. rewrite length_app. cbn. lia. Qed.

Lemma frame_word base (f : SpecFrame) (open open1 : list SpecFrame) :
  open_word base (open1 ++ f :: open) = open_word (Some (fst f)) open1.
Proof. now destruct open1. Qed.

Lemma frame_acc bacc (f : SpecFrame) (open open1 : list SpecFrame) :
  open_acc bacc (open1 ++ f :: open) = open_acc (snd f) open1.
Proof. now destruct open1. Qed.

(** The run with a frame on the stack is the run of that frame as base,
    continued below it when the frame is closed. *)
Lemma spec_run_frame base bacc bd (f : SpecFrame) (open : list SpecFrame)
    (lines : list SourceLine) :
  forall open1 skip,
    spec_run lit base bacc bd (open1 ++ f :: open) skip lines =
    frame_result f open (spec_run lit base bacc bd open 0)
      (spec_run lit (Some (fst f)) (snd f) (bd + length open + 1) open1 skip lines).
Proof.
  induction lines as [|[raw n] lines IH]; intros open1 skip; [reflexivity|].
  cbn [spec_run]. destruct skip as [|k]; [|apply IH].
  rewrite frame_depth, frame_word, frame_acc.
  destruct (line_kind raw) as [| |st w|st w|w|st|line].
  - apply IH.
  - destruct (_process_python_block lines) as [[blk rest]| |]; try reflexivity.
    rewrite frame_emit. f_equal. apply IH.
  - rewrite frame_emit. f_equal.
    apply (IH ((w, open_acc (snd f) open1 || String.eqb w "pypdef") :: open1)).
  - destruct (open_word (Some (fst f)) open1) as [cw|]; [|reflexivity].
    destruct (opt_string_eqb (MIDDLE2START_MAP w) cw); [|reflexivity].
    rewrite frame_emit. f_equal. apply IH.
  - destruct (open_word (Some (fst f)) open1) as [cw|]; [|reflexivity].
    destruct (String.eqb w cw); [|reflexivity].
    destruct open1 as [|f1 open1]; cbn [app].
    + reflexivity.
    + rewrite frame_emit. f_equal. apply IH.
  - rewrite frame_emit. f_equal. apply IH.
  - rewrite frame_emit. f_equal. apply IH.
Qed.

End Run.

End SpecFacts.

(** ** The parser does what the line-by-line run says *)

Module RefineFacts.
Import ParseFacts SpecFacts.

Lemma parse_lines_nil (fuel : nat) (self : PythonSequence) :
  (0 < fuel)%nat -> parse_lines fuel self [] = Ok (self, []).
Proof. destruct fuel; [lia | reflexivity]. Qed.

Lemma wf_seq_acc (self : PythonSequence) : wf_seq self -> seq_acc self = pypdef self.
Proof.
  unfold wf_seq, seq_acc. destruct (is_indented self); [reflexivity|].
  now intros (_ & _ & ->).
Qed.

Lemma wf_seq_word (self : PythonSequence) (w : string) :
  wf_seq self -> control_word self = Some w -> is_indented self = true.
Proof.
  unfold wf_seq. destruct (is_indented self); [reflexivity|].
  intros (_ & -> & _). discriminate.
Qed.

Lemma spec_run_seq_extends (a b : PythonSequence) (hd : nat) (o : list PythonLine)
    (lines : list SourceLine) :
  extends a b hd o -> spec_run_seq b hd lines = spec_run_seq a hd lines.
Proof.
  intros H. unfold spec_run_seq.
  rewrite (extends_node_depth _ _ _ _ H), (extends_seq_acc _ _ _ _ H).
  destruct H as (_ & _ & -> & _). reflexivity.
Qed.

Lemma outcome_emit (self self1 : PythonSequence) (hd n1 n0 : nat) (o1 : list PythonLine)
    res r :
  extends self self1 hd o1 -> (n1 <= n0)%nat ->
  outcome_ok self1 hd n1 res r -> outcome_ok self hd n0 res (emit o1 r).
Proof.
  intros He Hn. destruct r as [o [o'|rest|raw n|]]; unfold outcome_ok, emit; cbn.
  - intros (self' & -> & H). exists self'. eauto using extends_trans.
  - intros (self' & -> & H & Hl). exists self'.
    split; [reflexivity|]. split; [eauto using extends_trans | lia].
  - exact (fun H => H).
  - exact (fun H => H).
Qed.

(** Going on with [self1] on the queue [lines]. *)
Lemma outcome_continue (self self1 : PythonSequence) (hd n0 : nat)
    (o1 : list PythonLine) (lines : list SourceLine) res :
  extends self self1 hd o1 -> (length lines <= n0)%nat ->
  outcome_ok self1 hd (length lines) res (spec_run_seq self1 hd lines) ->
  outcome_ok self hd n0 res (emit o1 (spec_run_seq self hd lines)).
Proof.
  intros He Hn H. rewrite (spec_run_seq_extends _ _ _ _ lines He) in H.
  eapply outcome_emit; eassumption.
Qed.

(** One line of the run with [self] at the base. *)
Lemma spec_run_seq_cons (self : PythonSequence) (hd : nat) (raw : string) (n : Z)
    (lines : list SourceLine) :
  spec_run_seq self hd ((raw, n) :: lines) =
  match line_kind raw with
  | KSkip => spec_run_seq self hd lines
  | KVerbatim =>
      match _process_python_block lines with
      | Ok (blk, rest) =>
          emit (map (fun e => set_indent (fst e) (node_depth self hd)) blk)
            (spec_run_seq self hd rest)
      | _ => ([], Unterminated)
      end
  | KStart st w =>
      let is_function := String.eqb w "pypdef" in
      let acc := seq_acc self || is_function in
      emit (statement_at (node_depth self hd)
              (if is_function then replace_first "pypdef" "def" st else st)
            :: (if is_function then [statement_at (S (node_depth self hd)) OUTPUT_INIT]
                else []))
        (frame_result (w, acc) [] (spec_run_seq self hd)
           (spec_run line_to_pythonstatement (Some w) acc (S (node_depth self hd))
              [] 0 lines))
  | KMiddle st w =>
      match control_word self with
      | Some cw =>
          if opt_string_eqb (MIDDLE2START_MAP w) cw
          then emit [statement_at (Nat.pred (node_depth self hd)) st]
                 (spec_run_seq self hd lines)
          else ([], Mismatch raw n)
      | None => ([], Mismatch raw n)
      end
  | KEnd w =>
      let returned :=
        if String.eqb w "pypdef"
        then [statement_at (node_depth self hd) OUTPUT_RETURN] else [] in
      match control_word self with
      | Some cw =>
          if String.eqb w cw then (returned, Closed lines)
          else (returned, Mismatch raw n)
      | None => (returned, Mismatch raw n)
      end
  | KPython st =>
      emit [statement_at (node_depth self hd) st] (spec_run_seq self hd lines)
  | KLiteral line =>
      emit [statement_at (node_depth self hd)
              (line_to_pythonstatement (seq_acc self) line)]
        (spec_run_seq self hd lines)
  end.
Proof.
  unfold spec_run_seq. cbn [spec_run]. unfold open_depth, open_word, open_acc.
  cbn [length]. rewrite Nat.add_0_r.
  destruct (line_kind raw) as [| |st w|st w|w|st|line]; try reflexivity.
  - destruct (_process_python_block lines) as [[blk rest]| |] eqn:Hb; try reflexivity.
    rewrite spec_run_skip.
    apply process_python_block_rest in Hb as (pre & -> & Hlen).
    rewrite length_app, Nat.add_sub, skipn_app, skipn_all, Nat.sub_diag.
    reflexivity.
  - cbv zeta. f_equal.
    rewrite (spec_run_frame _ _ _ _ (w, seq_acc self || String.eqb w "pypdef") [] lines
               [] 0).
    cbn [length fst snd]. now rewrite Nat.add_0_r, Nat.add_1_r.
Qed.

(** The refinement: a call of [parse_lines] with enough fuel ends as the
    line-by-line run with the sequence at its base does, and the sequence
    has then generated the lines of the run. *)
Lemma parse_lines_refines (fuel : nat) :
  forall lines self hd,
    (length lines < fuel)%nat -> wf_seq self ->
    outcome_ok self hd (length lines) (parse_lines fuel self lines)
      (spec_run_seq self hd lines).
Proof.
  induction fuel as [|fuel IH]; intros lines self hd Hf Hwf; [lia|].
  destruct lines as [|[raw n] lines].
  { exists self. split; [reflexivity|]. now apply extends_refl. }
  cbn [length] in *. rewrite parse_lines_step, spec_run_seq_cons.
  destruct (line_kind raw) as [| |st w|st w|w|st|line].
  - (* skipped line *)
    rewrite <- emit_nil.
    apply (outcome_continue self self hd _ [] lines);
      [now apply extends_refl | lia | apply IH; [lia | exact Hwf]].
  - (* verbatim block *)
    destruct (_process_python_block lines) as [[blk rest]|e|] eqn:Hb.
    + pose proof (process_python_block_shorter _ _ _ Hb) as Hlen.
      pose proof (extends_compound blk hd self Hwf) as He.
      apply (outcome_continue self _ hd _ _ rest _ He); [lia|].
      apply IH; [lia | now destruct He].
    + unfold _process_python_block in Hb.
      destruct (process_python_block_loop lines None false false) as [[[? ?] ?]|];
        [discriminate | now injection Hb as <-].
    + now apply process_python_block_fuel in Hb.
  - (* control start *)
    cbv zeta.
    set (nb := open_block (update_python_linemap self n) st w n).
    set (hd' := node_depth self hd).
    destruct (open_block_spec self st w n n hd') as (Hnb & Hind & Hword & Hacc & Hgen).
    fold nb in Hnb, Hind, Hword, Hacc, Hgen.
    pose proof (IH lines nb hd' ltac:(lia) Hnb) as Hsub.
    unfold spec_run_seq in Hsub at 1.
    rewrite Hword, Hacc in Hsub. unfold node_depth in Hsub at 1. rewrite Hind in Hsub.
    fold hd' in Hsub.
    destruct (spec_run line_to_pythonstatement (Some w)
                (seq_acc self || String.eqb w "pypdef") (S hd') [] 0 lines)
      as [o1 [o'|rest|raw' n'|]]; unfold outcome_ok in Hsub; cbn [fst snd] in Hsub.
    + destruct Hsub as (nb' & -> & He).
      rewrite parse_lines_nil by lia.
      exists (splice_block self n nb'). split; [reflexivity|].
      unfold frame_result, emit. cbn [fst snd].
      pose proof (extends_splice self n nb' hd Hwf) as Hs. fold hd' in Hs.
      destruct He as (_ & _ & _ & _ & Hg). rewrite Hg, Hgen in Hs. exact Hs.
    + destruct Hsub as (nb' & -> & He & Hlen).
      unfold frame_result. cbn [fst snd]. rewrite emit_emit.
      pose proof (extends_splice self n nb' hd Hwf) as Hs. fold hd' in Hs.
      destruct He as (_ & _ & _ & _ & Hg). rewrite Hg, Hgen in Hs.
      apply (outcome_continue self _ hd _ _ rest _ Hs); [lia|].
      apply IH; [lia | now destruct Hs].
    + destruct Hsub as (msg & ->). now exists msg.
    + rewrite Hsub. reflexivity.
  - (* control middle *)
    destruct (control_word self) as [cw|] eqn:Hcw; [|now eexists].
    destruct (opt_string_eqb (MIDDLE2START_MAP w) cw); cbn [negb]; [|now eexists].
    pose proof (wf_seq_word self cw Hwf Hcw) as Hind.
    pose proof (extends_middle self st w n hd Hwf Hind) as He.
    unfold node_depth. rewrite Hind. cbn [Nat.pred].
    replace (S hd) with (node_depth self hd) by (unfold node_depth; now rewrite Hind).
    apply (outcome_continue self _ hd _ _ lines _ He); [lia|].
    apply IH; [lia | now destruct He].
  - (* control end *)
    cbv zeta.
    destruct (control_word self) as [cw|] eqn:Hcw; [|now eexists].
    destruct (String.eqb w cw); cbn [negb]; [|now eexists].
    exists (end_block self w). split; [reflexivity|].
    split; [now apply extends_end | cbn; lia].
  - (* statement line *)
    pose proof (extends_add_node self (NodeLine (PythonLine_init st false)) (Some n)
                  hd Hwf) as He.
    apply (outcome_continue self _ hd _ _ lines _ He); [lia|].
    apply IH; [lia | now destruct He].
  - (* literal line *)
    rewrite (wf_seq_acc self Hwf).
    pose proof (extends_add_node self
                  (NodeLine (PythonLine_init
                               (line_to_pythonstatement (pypdef self) line) false))
                  (Some n) hd Hwf) as He.
    apply (outcome_continue self _ hd _ _ lines _ He); [lia|].
    apply IH; [lia | now destruct He].
Qed.

End RefineFacts.

(** ** Keyword errors and the end of the input *)

Module KeywordFacts.
Import ParseFacts SpecFacts RefineFacts.

Lemma root_wf (start : Z) : wf_seq (PythonSequence_init start).
Proof. repeat split. Qed.

Lemma spec_run_root_seq (lines : list SourceLine) :
  spec_run_seq (PythonSequence_init 1) 0 lines = spec_run_root lines.
Proof. reflexivity. Qed.

(** The whole parse, against the run of the whole template. *)
Lemma parse_root_refines (lines : list SourceLine) :
  outcome_ok (PythonSequence_init 1) 0 (length lines)
    (parse (PythonSequence_init 1) lines) (spec_run_root lines).
Proof.
  rewrite <- spec_run_root_seq. apply parse_lines_refines; [lia | apply root_wf].
Qed.

(** A mismatch is found at a control-middle or control-end keyword line of
    the input. *)
Lemma spec_run_mismatch lit base bacc bd (lines : list SourceLine) :
  forall open skip raw n,
    snd (spec_run lit base bacc bd open skip lines) = Mismatch raw n ->
    In (raw, n) lines
    /\ ((exists st w, line_kind raw = KMiddle st w) \/ (exists w, line_kind raw = KEnd w)).
Proof.
  induction lines as [|[raw0 n0] lines IH]; intros open skip raw n H; [discriminate|].
  cbn [spec_run] in H.
  assert (Hrec : forall open' skip',
             snd (spec_run lit base bacc bd open' skip' lines) = Mismatch raw n ->
             In (raw, n) ((raw0, n0) :: lines)
             /\ ((exists st w, line_kind raw = KMiddle st w)
                 \/ (exists w, line_kind raw = KEnd w))).
  { intros open' skip' H'. destruct (IH _ _ _ _ H') as [Hin Hk].
    split; [now right | exact Hk]. }
  destruct skip as [|k]; [|now apply Hrec in H].
  destruct (line_kind raw0) as [| |st w|st w|w|st|line] eqn:Hk.
  - now apply Hrec in H.
  - destruct (_process_python_block lines) as [[blk rest]| |]; try discriminate.
    now apply Hrec in H.
  - now apply Hrec in H.
  - destruct (open_word base open) as [cw|].
    + destruct (opt_string_eqb (MIDDLE2START_MAP w) cw); [now apply Hrec in H|].
      injection H as <- <-. split; [now left | left; eauto].
    + injection H as <- <-. split; [now left | left; eauto].
  - destruct (open_word base open) as [cw|].
    + destruct (String.eqb w cw).
      * destruct open as [|f open']; [discriminate | now apply Hrec in H].
      * injection H as <- <-. split; [now left | right; eauto].
    + injection H as <- <-. split; [now left | right; eauto].
  - now apply Hrec in H.
  - now apply Hrec in H.
Qed.

(** C1 (as amended).  Whenever the run of a template meets a
    control-middle or control-end keyword line that does not match the
    control sequence open at that point (none being open included), the
    parser raises a ParseError that carries the text of that line, with
    the placeholder token deleted, and the number of that line; [execute]
    then prints the report and exits, and no text is generated. *)
Theorem mismatch_raises_parse_error (p : PYPParser) (raw : string) (n : Z) :
  snd (spec_run_root (textlines p)) = Mismatch raw n ->
  In (raw, n) (textlines p)
  /\ ((exists st w, line_kind raw = KMiddle st w) \/ (exists w, line_kind raw = KEnd w))
  /\ exists msg,
      parse (PythonSequence_init 1) (textlines p)
      = Raise (ParseError msg (replace DUMMYTEXT "" raw) n)
      /\ execute p = Exit1 (parse_error_report p msg (replace DUMMYTEXT "" raw) n).
Proof.
  intros H. destruct (spec_run_mismatch _ _ _ _ _ _ _ _ _ H) as [Hin Hk].
  split; [exact Hin|]. split; [exact Hk|].
  pose proof (parse_root_refines (textlines p)) as Hr.
  unfold outcome_ok in Hr. rewrite H in Hr. destruct Hr as (msg & Hr).
  exists msg. split; [exact Hr|].
  unfold execute. unfold parse in Hr. now rewrite Hr.
Qed.

Definition mismatch_example : PYPParser :=
  PYPParser_init ("%if x:" +:+ NL +:+ "yes" +:+ NL +:+ "%endfor") false "t.pyp".

Lemma mismatch_raises_parse_error_witness :
  snd (spec_run_root (textlines mismatch_example)) = Mismatch "%endfor" 3
  /\ exists msg,
      parse (PythonSequence_init 1) (textlines mismatch_example)
      = Raise (ParseError msg "%endfor" 3)
      /\ execute mismatch_example
         = Exit1 (parse_error_report mismatch_example msg "%endfor" 3).
Proof.
  split; [reflexivity|].
  exact (proj2 (proj2 (mismatch_raises_parse_error mismatch_example "%endfor" 3 eq_refl))).
Defined.

(** C1, as stated, fails: the text carried is not the text of the line
    when the line holds the placeholder token. *)
Lemma parse_error_line_not_verbatim :
  textlines (PYPParser_init "%endif DUMMYTEXT" false "t.pyp") = [("%endif DUMMYTEXT", 1)]
  /\ CONTROL_END_REGEX "%endif DUMMYTEXT" = Some "if"
  /\ parse (PythonSequence_init 1)
       (textlines (PYPParser_init "%endif DUMMYTEXT" false "t.pyp"))
     = Raise (ParseError "Found end control word (endif) without starting word"
                "%endif " 1)
  /\ "%endif " <> "%endif DUMMYTEXT".
Proof. repeat split; try reflexivity. discriminate. Qed.

(** C2 (as amended).  When the input runs out while control sequences are
    still open, and nothing went wrong before, the parser raises no error:
    the call returns a completed tree that generates the lines of the run,
    and [execute] goes on to generate the text. *)
Theorem unclosed_block_parses (p : PYPParser) (out : list PythonLine)
    (open : list SpecFrame) :
  spec_run_root (textlines p) = (out, AtEnd open) ->
  open <> [] ->
  exists tree,
    parse (PythonSequence_init 1) (textlines p) = Ok (tree, [])
    /\ get_lines tree 0 = out
    /\ execute p = Generated (set_parser_line_map p (python_line_map tree))
                    (get_python_text tree).
Proof.
  intros H _. pose proof (parse_root_refines (textlines p)) as Hr.
  unfold outcome_ok in Hr. rewrite H in Hr. cbn [fst snd] in Hr.
  destruct Hr as (tree & Hr & He). exists tree. split; [exact Hr|].
  split; [now destruct He as (_ & _ & _ & _ & ->)|].
  unfold execute. unfold parse in Hr. now rewrite Hr.
Qed.

Definition unclosed_example : PYPParser :=
  PYPParser_init ("%if x:" +:+ NL +:+ "foo") false "t.pyp".

Lemma unclosed_block_parses_witness :
  spec_run_root (textlines unclosed_example)
  = ([statement_at 0 "if x:"; statement_at 1 "_PRINT(('foo'))"], AtEnd [("if", false)])
  /\ exists tree,
      parse (PythonSequence_init 1) (textlines unclosed_example) = Ok (tree, [])
      /\ get_lines tree 0 = [statement_at 0 "if x:"; statement_at 1 "_PRINT(('foo'))"]
      /\ execute unclosed_example
         = Generated (set_parser_line_map unclosed_example (python_line_map tree))
             (get_python_text tree).
Proof.
  split; [reflexivity|].
  apply (unclosed_block_parses unclosed_example _ [("if", false)]);
    [reflexivity | discriminate].
Defined.

(** C2, as stated, fails: a control-start line that is never closed gives
    no error at the end of the input; the text is generated. *)
Lemma unclosed_block_is_no_error :
  textlines unclosed_example = [("%if x:", 1); ("foo", 2)]
  /\ (exists tree,
        parse (PythonSequence_init 1) (textlines unclosed_example) = Ok (tree, [])
        /\ get_python_text tree = "if x:" +:+ NL +:+ "    _PRINT(('foo'))")
  /\ forall report, execute unclosed_example <> Exit1 report.
Proof.
  split; [reflexivity|]. split.
  - eexists. split; reflexivity.
  - intros report. discriminate.
Qed.

End KeywordFacts.

(** ** Named template functions *)

Module FunctionFacts.
Import ParseFacts SpecFacts RefineFacts KeywordFacts.

Lemma emit_at_end (o : list PythonLine) r out open :
  emit o r = (out, AtEnd open) ->
  exists out', r = (out', AtEnd open) /\ out = (o ++ out')%list.
Proof. destruct r as [o' s]. unfold emit. cbn. intros [= <- ->]. now exists o'. Qed.

(** Inside an accumulating sequence every sequence accumulates, so only
    the accumulating form of the literal-line transformer is used. *)
Lemma spec_run_accumulating (lit1 lit2 : bool -> string -> string) base bd
    (lines : list SourceLine) :
  (forall l, lit1 true l = lit2 true l) ->
  forall open skip,
    Forall (fun f : SpecFrame => snd f = true) open ->
    spec_run lit1 base true bd open skip lines
    = spec_run lit2 base true bd open skip lines.
Proof.
  intros Hlit. induction lines as [|[raw n] lines IH]; intros open skip Hall;
    [reflexivity|].
  assert (Hacc : open_acc true open = true) by (destruct Hall; [reflexivity | assumption]).
  cbn [spec_run]. destruct skip as [|k]; [|now apply IH].
  destruct (line_kind raw) as [| |st w|st w|w|st|line].
  - now apply IH.
  - destruct (_process_python_block lines) as [[blk rest]| |]; try reflexivity.
    f_equal. now apply IH.
  - f_equal. apply IH. constructor; [now rewrite Hacc | exact Hall].
  - destruct (open_word base open) as [cw|]; [|reflexivity].
    destruct (opt_string_eqb (MIDDLE2START_MAP w) cw); [|reflexivity].
    f_equal. now apply IH.
  - destruct (open_word base open) as [cw|]; [|reflexivity].
    destruct (String.eqb w cw); [|reflexivity].
    destruct Hall as [|f open' Hf Hall]; [reflexivity|].
    f_equal. now apply IH.
  - f_equal. now apply IH.
  - rewrite Hacc, Hlit. f_equal. now apply IH.
Qed.

Lemma process_python_block_loop_app (lines tail : list SourceLine) :
  forall ms a b blk ms' rest,
    process_python_block_loop lines ms a b = Some (blk, ms', rest) ->
    process_python_block_loop (lines ++ tail) ms a b = Some (blk, ms', rest ++ tail)%list.
Proof.
  induction lines as [|[line n] lines IH]; intros ms a b blk ms' rest H; [discriminate|].
  cbn [process_python_block_loop app] in *.
  destruct (PYTHON_BLOCK_END_REGEX line); [now injection H as <- <- <-|].
  match type of H with
  | match ?x with _ => _ end = _ => destruct x as [[[blk0 ms0] rest0]|] eqn:Hrec
  end; [|discriminate].
  injection H as <- <- <-. now rewrite (IH _ _ _ _ _ _ Hrec).
Qed.

Lemma process_python_block_app (lines tail : list SourceLine) blk rest :
  _process_python_block lines = Ok (blk, rest) ->
  _process_python_block (lines ++ tail) = Ok (blk, (rest ++ tail)%list).
Proof.
  unfold _process_python_block.
  destruct (process_python_block_loop lines None false false)
    as [[[blk0 ms0] rest0]|] eqn:H; [|discriminate].
  intros [= <- <-]. now rewrite (process_python_block_loop_app _ tail _ _ _ _ _ _ H).
Qed.

Lemma skipn_block_rest (lines rest : list SourceLine) blk :
  _process_python_block lines = Ok (blk, rest) ->
  skipn (length lines - length rest) lines = rest.
Proof.
  intros H. apply process_python_block_rest in H as (pre & -> & _).
  now rewrite length_app, Nat.add_sub, skipn_app, skipn_all, Nat.sub_diag.
Qed.

(** A balanced body runs the same whatever sequence is at the base, and
    the run goes on after it with nothing open. *)
Lemma spec_run_balanced lit base bacc bd (tail : list SourceLine) (bound : nat) :
  forall body open out,
    (length body <= bound)%nat ->
    spec_run lit None bacc bd open 0 body = (out, AtEnd []) ->
    spec_run lit base bacc bd open 0 (body ++ tail)
    = emit out (spec_run lit base bacc bd [] 0 tail).
Proof.
  induction bound as [|bound IH]; intros body open out Hlen H.
  { destruct body; [|cbn in Hlen; lia]. injection H as <- ->. now rewrite emit_nil. }
  destruct body as [|[raw n] body].
  { injection H as <- ->. now rewrite emit_nil. }
  cbn [length] in Hlen. cbn [spec_run app] in *.
  destruct (line_kind raw) as [| |st w|st w|w|st|line].
  - apply IH; [lia | exact H].
  - destruct (_process_python_block body) as [[blk rest]| |] eqn:Hb; try discriminate.
    rewrite (process_python_block_app _ tail _ _ Hb).
    apply emit_at_end in H as (out' & H & ->).
    rewrite spec_run_skip, (skipn_block_rest _ _ _ Hb) in H.
    rewrite spec_run_skip,
      (skipn_block_rest _ _ _ (process_python_block_app _ tail _ _ Hb)).
    rewrite <- emit_emit. f_equal. apply IH; [|exact H].
    apply process_python_block_shorter in Hb. lia.
  - apply emit_at_end in H as (out' & H & ->).
    rewrite <- emit_emit. f_equal. apply IH; [lia | exact H].
  - destruct open as [|f open]; [discriminate|]. cbn [open_word] in *.
    destruct (opt_string_eqb (MIDDLE2START_MAP w) (fst f)); [|discriminate].
    apply emit_at_end in H as (out' & H & ->).
    rewrite <- emit_emit. f_equal. apply IH; [lia | exact H].
  - destruct open as [|f open]; [discriminate|]. cbn [open_word] in *.
    destruct (String.eqb w (fst f)); [|discriminate].
    apply emit_at_end in H as (out' & H & ->).
    rewrite <- emit_emit. f_equal. apply IH; [lia | exact H].
  - apply emit_at_end in H as (out' & H & ->).
    rewrite <- emit_emit. f_equal. apply IH; [lia | exact H].
  - apply emit_at_end in H as (out' & H & ->).
    rewrite <- emit_emit. f_equal. apply IH; [lia | exact H].
Qed.

(** C4.  A named-template-function block in any sequence: the header
    line with the keyword [pypdef], a balanced body, and the line
    [endpypdef].  The call of the parser on the sequence opened by the
    header succeeds: it returns a sequence [blk] and leaves the queue
    right after the line [endpypdef].  The parser adds [blk] to the
    parent and goes on with the parent; when nothing follows the block,
    the parse of the parent succeeds with [blk] added.  [blk] has the
    flag set that makes literal lines append to the accumulator, and it
    generates the function header, immediately followed by the statement that
    initialises the accumulator; then the lines of the body, in which
    every literal line, at whatever nesting, is transformed in
    accumulating form; and last the statement that returns the
    accumulator joined by newlines. *)
Theorem function_block (self : PythonSequence) (hd : nat) (h : string) (n : Z)
    (st : string) (body : list SourceLine) (out : list PythonLine) (e : string)
    (m : Z) (rest : list SourceLine) :
  wf_seq self ->
  line_kind h = KStart st "pypdef" ->
  spec_function_body (S (node_depth self hd)) body = Some out ->
  line_kind e = KEnd "pypdef" ->
  exists blk,
    parse (open_block (update_python_linemap self n) st "pypdef" n)
      (body ++ (e, m) :: rest) = Ok (blk, rest)
    /\ parse self ((h, n) :: body ++ (e, m) :: rest) = parse (splice_block self n blk) rest
    /\ (rest = [] ->
        parse self ((h, n) :: body ++ [(e, m)]) = Ok (splice_block self n blk, []))
    /\ pypdef blk = true
    /\ get_lines blk (node_depth self hd)
       = statement_at (node_depth self hd) (replace_first "pypdef" "def" st)
         :: statement_at (S (node_depth self hd)) OUTPUT_INIT
         :: out ++ [statement_at (S (node_depth self hd)) OUTPUT_RETURN]
    /\ get_lines (splice_block self n blk) hd
       = get_lines self hd ++ get_lines blk (node_depth self hd).
Proof.
  intros Hwf Hh Hbody He.
  set (d := node_depth self hd) in *.
  set (lines := body ++ (e, m) :: rest).
  set (nb := open_block (update_python_linemap self n) st "pypdef" n).
  destruct (open_block_spec self st "pypdef" n n d) as (Hnb & Hind & Hword & Hacc & Hgen).
  fold nb in Hnb, Hind, Hword, Hacc, Hgen.
  change (String.eqb "pypdef" "pypdef") with true in Hacc, Hgen.
  rewrite orb_true_r in Hacc.
  (* the run of the block *)
  assert (Hrun : spec_run_seq nb d lines
                 = ((out ++ [statement_at (S d) OUTPUT_RETURN])%list, Closed rest)).
  { unfold spec_run_seq. rewrite Hword, Hacc. unfold node_depth. rewrite Hind.
    unfold spec_function_body in Hbody.
    destruct (spec_run (fun _ => line_to_pythonstatement true) None true (S d) [] 0 body)
      as [o [[|f open]|r|raw k|]] eqn:Hb; try discriminate.
    injection Hbody as ->.
    rewrite (spec_run_accumulating _ line_to_pythonstatement) in Hb
      by (auto || constructor).
    unfold lines.
    rewrite (spec_run_balanced _ (Some "pypdef") true (S d) _ (length body) body [] out)
      by (lia || exact Hb).
    cbn [spec_run]. rewrite He. cbn [open_word]. unfold open_depth. cbn [length].
    change (String.eqb "pypdef" "pypdef") with true. cbv iota.
    unfold emit. cbn [fst snd]. now rewrite Nat.add_0_r. }
  pose proof (parse_lines_refines (S (length lines)) lines nb d ltac:(lia) Hnb) as Hr.
  unfold outcome_ok in Hr. rewrite Hrun in Hr. cbn [fst snd] in Hr.
  destruct Hr as (nb' & Hparse & Hext & Hlen).
  assert (Hwhole : parse self ((h, n) :: lines) = parse (splice_block self n nb') rest).
  { unfold parse at 1. cbn [length].
    rewrite parse_lines_step, Hh. fold nb. rewrite Hparse.
    apply parse_fuel. lia. }
  exists nb'. split; [exact Hparse|]. split; [exact Hwhole|]. split; [|split; [|split]].
  - intros Hrest. unfold lines in Hwhole. rewrite Hrest in Hwhole.
    etransitivity; [exact Hwhole | reflexivity].
  - destruct Hext as (_ & _ & _ & -> & _).
    unfold seq_acc in Hacc. now apply andb_prop in Hacc as [_ Hacc].
  - destruct Hext as (_ & _ & _ & _ & ->). rewrite Hgen. reflexivity.
  - now destruct (extends_splice self n nb' hd Hwf) as (_ & _ & _ & _ & ->).
Qed.

Lemma function_block_witness :
  wf_seq (PythonSequence_init 1)
  /\ line_kind "%pypdef greet(n):" = KStart "pypdef greet(n):" "pypdef"
  /\ spec_function_body 1 [("Hi ${n}", 2)]
     = Some [statement_at 1 "_OUTPUT.append('Hi %s' % ((n),))"]
  /\ line_kind "%endpypdef" = KEnd "pypdef"
  /\ exists blk,
      parse
        (open_block (update_python_linemap (PythonSequence_init 1) 1)
           "pypdef greet(n):" "pypdef" 1)
        [("Hi ${n}", 2); ("%endpypdef", 3)]
      = Ok (blk, [])
      /\ parse (PythonSequence_init 1)
           [("%pypdef greet(n):", 1); ("Hi ${n}", 2); ("%endpypdef", 3)]
         = parse (splice_block (PythonSequence_init 1) 1 blk) []
      /\ parse (PythonSequence_init 1)
           [("%pypdef greet(n):", 1); ("Hi ${n}", 2); ("%endpypdef", 3)]
         = Ok (splice_block (PythonSequence_init 1) 1 blk, [])
      /\ pypdef blk = true
      /\ get_lines blk 0
         = [statement_at 0 "def greet(n):"; statement_at 1 OUTPUT_INIT;
            statement_at 1 "_OUTPUT.append('Hi %s' % ((n),))";
            statement_at 1 OUTPUT_RETURN]
      /\ get_lines (splice_block (PythonSequence_init 1) 1 blk) 0
         = get_lines (PythonSequence_init 1) 0 ++ get_lines blk 0.
Proof.
  split; [apply root_wf|]. split; [reflexivity|]. split; [reflexivity|].
  split; [reflexivity|].
  destruct (function_block (PythonSequence_init 1) 0 "%pypdef greet(n):" 1
              "pypdef greet(n):" [("Hi ${n}", 2)]
              [statement_at 1 "_OUTPUT.append('Hi %s' % ((n),))"] "%endpypdef" 3 []
              (root_wf 1) eq_refl eq_refl eq_refl)
    as (blk & Hblk & Hparent & Hwhole & Hflag & Hlines & Hspliced).
  exists blk. split; [exact Hblk|]. split; [exact Hparent|].
  split; [exact (Hwhole eq_refl)|]. split; [exact Hflag|].
  split; [exact Hlines | exact Hspliced].
Defined.

(** The example of the specification, end to end. *)
Example function_block_text :
  exists tree,
    parse (PythonSequence_init 1)
      (PYPParser_textlines
         ("%pypdef greet(n):" +:+ NL +:+ "Hi ${n}" +:+ NL +:+ "%endpypdef"))
    = Ok (tree, [])
    /\ get_python_text tree
       = "def greet(n):" +:+ NL +:+
         "    _OUTPUT=[]" +:+ NL +:+
         "    _OUTPUT.append('Hi %s' % ((n),))" +:+ NL +:+
         "    return '" +:+ String BACKSLASH "n'.join(_OUTPUT)".
Proof. eexists. split; vm_compute; reflexivity. Qed.

End FunctionFacts.
Local Close Scope string_scope.

(** ** The placeholder token *)

Module PlaceholderFacts.
Import ParseFacts.

(** A word without the letter D cannot reach over the start of the
    placeholder. *)
Lemma prefix_before_D (v : string) :
  forall a x,
    contains "D" v = false ->
    String.prefix v (a +:+ "D" +:+ x) = true -> String.prefix v a = true.
Proof.
  induction v as [|e v IH]; intros a x Hv H; [apply StrFacts.prefix_nil|].
  rewrite StrFacts.contains_char_cons in Hv. apply orb_false_elim in Hv as [He Hv].
  destruct a as [|c a].
  - rewrite StrFacts.app_nil_l, StrFacts.app_cons, StrFacts.prefix_cons in H.
    rewrite Ascii.eqb_sym, He in H. discriminate.
  - rewrite StrFacts.app_cons, StrFacts.prefix_cons in H.
    apply andb_prop in H as [Hc H]. rewrite StrFacts.prefix_cons, Hc.
    exact (IH a x Hv H).
Qed.

(** No occurrence of the placeholder overlaps another one. *)
Lemma placeholder_no_straddle (c : ascii) (a b : string) :
  String.prefix DUMMYTEXT (String c a +:+ DUMMYTEXT +:+ b) = true ->
  String.prefix DUMMYTEXT (String c a) = true.
Proof.
  unfold DUMMYTEXT.
  change "DUMMYTEXT"%string with (String "D" "UMMYTEXT") at 1 3.
  rewrite StrFacts.app_cons, !StrFacts.prefix_cons.
  intros H. apply andb_prop in H as [Hc H]. rewrite Hc. cbn [andb].
  change ("DUMMYTEXT" +:+ b) with ("D" +:+ "UMMYTEXT" +:+ b) in H.
  now apply (prefix_before_D "UMMYTEXT" a ("UMMYTEXT" +:+ b)).
Qed.

(** Deleting the placeholder deletes every occurrence of it. *)
Lemma replace_placeholder_app (a b : string) :
  replace DUMMYTEXT "" (a +:+ DUMMYTEXT +:+ b)
  = replace DUMMYTEXT "" a +:+ replace DUMMYTEXT "" b.
Proof.
  remember (String.length a) as k eqn:Hk.
  revert a Hk; induction k as [k IH] using lt_wf_ind; intros a Hk.
  destruct a as [|c a].
  - rewrite StrFacts.app_nil_l, StrFacts.replace_prefix by discriminate. reflexivity.
  - destruct (String.prefix DUMMYTEXT (String c a)) eqn:Hp.
    + apply StrFacts.prefix_split in Hp.
      set (a' := drop (String.length DUMMYTEXT) (String c a)) in *.
      clearbody a'.
      assert (Hl : (String.length a' < k)%nat).
      { subst k. rewrite Hp, StrFacts.length_app. cbn. lia. }
      rewrite Hp, StrFacts.app_assoc, !StrFacts.replace_prefix by discriminate.
      rewrite !StrFacts.app_nil_l.
      now apply (IH (String.length a')).
    + assert (Hq : String.prefix DUMMYTEXT (String c a +:+ DUMMYTEXT +:+ b) = false).
      { destruct (String.prefix DUMMYTEXT (String c a +:+ DUMMYTEXT +:+ b)) eqn:Hq;
          [|reflexivity].
        apply placeholder_no_straddle in Hq. congruence. }
      rewrite StrFacts.app_cons in *.
      rewrite (StrFacts.replace_no_prefix _ _ _ _ Hq),
        (StrFacts.replace_no_prefix _ _ _ _ Hp).
      rewrite StrFacts.app_cons. f_equal.
      apply (IH (String.length a)); [subst k; cbn; lia | reflexivity].
Qed.

(** A line that is not skipped is classified by its text without the
    placeholder. *)
Lemma line_kind_clean (raw raw' : string) :
  PYP_COMMENT_REGEX raw = false -> DUMMYTEXT_REGEX raw = false ->
  PYP_COMMENT_REGEX raw' = false -> DUMMYTEXT_REGEX raw' = false ->
  replace DUMMYTEXT "" raw' = replace DUMMYTEXT "" raw ->
  line_kind raw' = line_kind raw.
Proof.
  intros H1 H2 H3 H4 H. unfold line_kind. now rewrite H1, H2, H3, H4, H.
Qed.

Lemma line_kind_literal (raw l : string) :
  line_kind raw = KLiteral l -> l = replace DUMMYTEXT "" raw.
Proof.
  unfold line_kind.
  destruct (PYP_COMMENT_REGEX raw || DUMMYTEXT_REGEX raw); [discriminate|].
  destruct (PYTHON_BLOCK_START_REGEX _); [discriminate|].
  destruct (CONTROL_START_REGEX _) as [[? ?]|]; [discriminate|].
  destruct (CONTROL_MIDDLE_REGEX _) as [[? ?]|]; [discriminate|].
  destruct (CONTROL_END_REGEX _); [discriminate|].
  destruct (NORMAL_PYTHON_LINE_REGEX _); [discriminate|].
  now intros [= <-].
Qed.

(** X9.  The placeholder token is reserved.  For every line that the loop of
    the parser takes off the queue:
    a line that is the placeholder token followed by white space only is
    skipped, the sequence is left as it was (no node, no map entry); any
    other line that is not a comment is handled by its text with every
    occurrence of the token deleted, so two such lines with the same
    remaining text are parsed alike, and a literal line is emitted from
    the remaining text. *)
Theorem placeholder_reserved (self : PythonSequence) (raw : string) (n : Z)
    (rest : list SourceLine) :
  (DUMMYTEXT_REGEX raw = true -> parse self ((raw, n) :: rest) = parse self rest)
  /\ (PYP_COMMENT_REGEX raw = false -> DUMMYTEXT_REGEX raw = false ->
      (forall raw',
          PYP_COMMENT_REGEX raw' = false -> DUMMYTEXT_REGEX raw' = false ->
          replace DUMMYTEXT "" raw' = replace DUMMYTEXT "" raw ->
          parse self ((raw', n) :: rest) = parse self ((raw, n) :: rest))
      /\ (forall l,
             line_kind raw = KLiteral l ->
             parse self ((raw, n) :: rest)
             = parse
                 (add_node self
                    (NodeLine
                       (PythonLine_init
                          (line_to_pythonstatement (pypdef self)
                             (replace DUMMYTEXT "" raw)) false))
                    (Some n) true) rest))
  /\ (forall a b,
         raw = a +:+ DUMMYTEXT +:+ b ->
         replace DUMMYTEXT "" raw = replace DUMMYTEXT "" a +:+ replace DUMMYTEXT "" b)
  /\ (contains DUMMYTEXT raw = false -> replace DUMMYTEXT "" raw = raw).
Proof.
  split; [|split; [|split]].
  - intros H. unfold parse. cbn [length]. rewrite parse_lines_step.
    unfold line_kind. now rewrite H, orb_true_r.
  - intros H1 H2. split.
    + intros raw' H3 H4 H. unfold parse. cbn [length]. rewrite !parse_lines_step.
      now rewrite (line_kind_clean raw raw' H1 H2 H3 H4 H), H.
    + intros l Hl. unfold parse. cbn [length]. rewrite parse_lines_step, Hl.
      now rewrite (line_kind_literal raw l Hl).
  - intros a b ->. apply replace_placeholder_app.
  - apply StrFacts.replace_absent.
Qed.

Lemma placeholder_reserved_witness :
  parse (PythonSequence_init 1) [("DUMMYTEXT  ", 1); ("x", 2)]
  = parse (PythonSequence_init 1) [("x", 2)]
  /\ parse (PythonSequence_init 1) [("foo DUMMYTEXT bar", 1)]
     = parse
         (add_node (PythonSequence_init 1)
            (NodeLine (PythonLine_init "_PRINT(('foo  bar'))" false)) (Some 1) true) [].
Proof.
  split.
  - exact (proj1 (placeholder_reserved (PythonSequence_init 1) "DUMMYTEXT  " 1
                    [("x", 2)]) eq_refl).
  - exact (proj2 (proj1 (proj2 (placeholder_reserved (PythonSequence_init 1)
                                  "foo DUMMYTEXT bar" 1 [])) eq_refl eq_refl)
             "foo  bar" eq_refl).
Defined.

(** A template without any multi-line expression whose text holds the
    token: the token is gone from the output, and a line made of it alone
    is dropped. *)
Example placeholder_in_literal_text :
  exists tree,
    parse (PythonSequence_init 1)
      (PYPParser_textlines ("foo DUMMYTEXT bar" +:+ NL +:+ "DUMMYTEXT" +:+ NL +:+ "end"))
    = Ok (tree, [])
    /\ get_python_text tree = "_PRINT(('foo  bar'))" +:+ NL +:+ "_PRINT(('end'))"
    /\ python_line_map tree = {[ 1 := 1; 2 := 3 ]}.
Proof. eexists. split; [|split]; vm_compute; reflexivity. Qed.

End PlaceholderFacts.
Local Close Scope string_scope.

(** ** Verbatim blocks *)

Module VerbatimFacts.

(** A line with at least [n] white-space bytes in front loses exactly
    those: the case the stripping is meant for. *)
Lemma sub_space_run_leading (n : nat) (s : string) :
  (n <= Re.leading_space s)%nat -> sub_space_run n s = drop n s.
Proof.
  intros H. destruct s as [|c s]; cbn [sub_space_run];
    now destruct (n <=? _)%nat eqn:E; [|apply Nat.leb_gt in E; lia].
Qed.

(** A line in no-strip mode is stored as it is. *)
Lemma fix_indent_noindent (ms : option nat) (s : string) (lev : nat) (n : Z) :
  fix_indent ms (mkPythonLine s true lev, n) = (mkPythonLine s true lev, n).
Proof. reflexivity. Qed.

(** The no-strip flag of a line is the parity of the triple-quote
    markers on the lines before it. *)
Example triple_quote_toggle :
  _process_python_block
    [("  x = '''a", 2); ("   b", 3); ("  c'''", 4); ("  y = 1", 5); ("%>", 6)]
  = Ok ([(mkPythonLine "x = '''a" false 0, 2); (mkPythonLine "   b" true 0, 3);
         (mkPythonLine "  c'''" true 0, 4); (mkPythonLine "y = 1" false 0, 5)], []).
Proof. vm_compute. reflexivity. Qed.

(** The white space is not removed at the start only.  The block holds a line with less white space
    in front than the first line and a run of white space further on.
    The line is not in no-strip mode and has no white space in front, so
    nothing of it is a leading prefix; yet the stored text has lost the
    run of four blanks after the equals sign, which no stripping of a
    leading prefix gives. *)
Theorem verbatim_strip_not_anchored :
  _process_python_block [("    a = 1", 2); ("b =    2", 3); ("%>", 4)]
  = Ok ([(mkPythonLine "a = 1" false 0, 2); (mkPythonLine "b =2" false 0, 3)], [])
  /\ Re.leading_space "b =    2" = 0%nat
  /\ (forall k, drop k "b =    2" <> "b =2")
  /\ (exists tree,
        parse (PythonSequence_init 1)
          (PYPParser_textlines
             ("<%" +:+ NL +:+ "    a = 1" +:+ NL +:+ "b =    2" +:+ NL +:+ "%>"))
        = Ok (tree, [])
        /\ get_python_text tree = "a = 1" +:+ NL +:+ "b =2").
Proof.
  split; [vm_compute; reflexivity|]. split; [reflexivity|]. split.
  - intros k. do 9 (destruct k as [|k]; [discriminate|]). now destruct k.
  - eexists. split; vm_compute; reflexivity.
Qed.

End VerbatimFacts.
Local Close Scope string_scope.

(** ** The line map holds line numbers of the input *)

Module LineMapFacts.
Import ParseFacts.

Section Values.
(** A property of source line numbers. *)
Variable Q : Z -> Prop.

Lemma map_ok_add_node (self : PythonSequence) (node : Node) (ln : option Z) :
  map_ok Q self -> (forall n, ln = Some n -> Q n) ->
  map_ok Q (add_node self node ln true).
Proof.
  intros Hm Hq. destruct self as [ind cs cw cl ns bs [|i] pl pm pd];
    destruct ln as [n|]; unfold map_ok in *; cbn in *;
    try apply map_Forall_insert_2; auto.
Qed.

Lemma map_ok_open_block (self : PythonSequence) (st w : string) (n : Z) :
  map_ok Q (open_block self st w n).
Proof.
  unfold open_block.
  destruct (String.eqb w "pypdef"); cbn; rewrite ?andb_false_r; apply map_Forall_empty.
Qed.

Lemma map_ok_splice (self nb : PythonSequence) (n : Z) :
  map_ok Q self -> map_ok Q nb -> Q n -> map_ok Q (splice_block self n nb).
Proof.
  intros Hm Hn Hq. destruct self as [ind cs cw cl ns bs [|i] pl pm pd];
    unfold map_ok in *; cbn in *;
    (apply map_Forall_union_2; [exact Hn|]); now apply map_Forall_insert_2.
Qed.

Lemma map_ok_middle (self : PythonSequence) (st w : string) (n : Z) :
  map_ok Q self -> Q n -> map_ok Q (middle_block self st w n).
Proof.
  intros Hm Hq. destruct self. unfold map_ok in *. cbn in *.
  now apply map_Forall_insert_2.
Qed.

Lemma map_ok_end (self : PythonSequence) (w : string) :
  map_ok Q self -> map_ok Q (end_block self w).
Proof.
  intros Hm. unfold end_block. destruct (String.eqb w "pypdef"); [|exact Hm].
  apply map_ok_add_node; [exact Hm | discriminate].
Qed.

Lemma map_ok_compound (blk : list (PythonLine * Z)) :
  forall self,
    map_ok Q self -> Forall (fun e => Q (snd e)) blk ->
    map_ok Q (add_compound_block self blk).
Proof.
  induction blk as [|e blk IH]; intros self Hm Hb; [exact Hm|].
  inversion Hb as [|? ? He Hb']; subst. unfold add_compound_block. cbn [fold_left].
  apply IH; [|exact Hb']. apply map_ok_add_node; [exact Hm|]. now intros n [= <-].
Qed.

Lemma loop_lines_ok (lines : list SourceLine) :
  forall ms a b blk ms' rest,
    process_python_block_loop lines ms a b = Some (blk, ms', rest) ->
    lines_ok Q lines ->
    Forall (fun e : PythonLine * Z => Q (snd e)) blk /\ lines_ok Q rest.
Proof.
  induction lines as [|[line n] lines IH]; intros ms a b blk ms' rest H Hl;
    [discriminate|].
  inversion Hl as [|? ? Hn Hl']; subst. cbn [process_python_block_loop] in H.
  destruct (PYTHON_BLOCK_END_REGEX line).
  - injection H as <- <- <-. split; [constructor | exact Hl'].
  - match type of H with
    | match ?x with _ => _ end = _ => destruct x as [[[blk0 ms0] rest0]|] eqn:Hrec
    end; [|discriminate].
    injection H as <- <- <-. destruct (IH _ _ _ _ _ _ Hrec Hl') as [Hb Hr].
    split; [constructor; [exact Hn | exact Hb] | exact Hr].
Qed.

Lemma block_lines_ok (lines : list SourceLine) blk rest :
  _process_python_block lines = Ok (blk, rest) ->
  lines_ok Q lines ->
  Forall (fun e : PythonLine * Z => Q (snd e)) blk /\ lines_ok Q rest.
Proof.
  unfold _process_python_block.
  destruct (process_python_block_loop lines None false false)
    as [[[blk0 ms0] rest0]|] eqn:H; [|discriminate].
  intros [= <- <-] Hl. destruct (loop_lines_ok _ _ _ _ _ _ _ H Hl) as [Hb Hr].
  split; [|exact Hr]. apply Forall_fmap. eapply Forall_impl; [exact Hb|].
  intros [pl n] Hq. cbn. unfold fix_indent. now destruct (noindent pl).
Qed.

(** Every source line number the parser puts into a line map is the
    number of a line of its queue. *)
Lemma parse_lines_map_ok (fuel : nat) :
  forall self lines self' rest,
    parse_lines fuel self lines = Ok (self', rest) ->
    map_ok Q self -> lines_ok Q lines ->
    map_ok Q self' /\ lines_ok Q rest.
Proof.
  induction fuel as [|fuel IH]; intros self lines self' rest H Hm Hl; [discriminate|].
  destruct lines as [|[raw n] lines]; [now injection H as <- <-|].
  inversion Hl as [|? ? Hn Hl']; subst. cbn [snd] in Hn.
  rewrite parse_lines_step in H.
  destruct (line_kind raw) as [| |st w|st w|w|st|line].
  - exact (IH _ _ _ _ H Hm Hl').
  - destruct (_process_python_block lines) as [[blk rest0]| |] eqn:Hb;
      try discriminate.
    destruct (block_lines_ok _ _ _ Hb Hl') as [Hblk Hr].
    exact (IH _ _ _ _ H (map_ok_compound _ _ Hm Hblk) Hr).
  - destruct (parse_lines fuel _ lines) as [[nb rest0]| |] eqn:Hnb; try discriminate.
    destruct (IH _ _ _ _ Hnb (map_ok_open_block _ _ _ _) Hl') as [Hnbm Hr].
    exact (IH _ _ _ _ H (map_ok_splice _ _ _ Hm Hnbm Hn) Hr).
  - destruct (control_word self); [|discriminate].
    destruct (negb _); [discriminate|].
    exact (IH _ _ _ _ H (map_ok_middle _ _ _ _ Hm Hn) Hl').
  - destruct (control_word self); [|discriminate].
    destruct (negb _); [discriminate|]. injection H as <- <-.
    split; [now apply map_ok_end | exact Hl'].
  - refine (IH _ _ _ _ H (map_ok_add_node _ _ _ Hm _) Hl'). now intros ? [= <-].
  - refine (IH _ _ _ _ H (map_ok_add_node _ _ _ Hm _) Hl'). now intros ? [= <-].
Qed.

End Values.

Lemma line_numbers_lookup (n : nat) (i : nat) (z : Z) :
  line_numbers n !! i = Some z -> z = 1 + Z.of_nat i /\ (i < n)%nat.
Proof.
  unfold line_numbers. rewrite list_lookup_fmap.
  destruct (seq 0 n !! i) as [x|] eqn:Hx; [|discriminate].
  apply lookup_seq in Hx as [-> Hlt]. now intros [= <-].
Qed.

(** The numbers of the line stream index the stream itself. *)
Lemma textlines_indexed (text : string) :
  Forall (fun e => is_Some (list_getitem (PYPParser_textlines text) (snd e - 1)))
    (PYPParser_textlines text).
Proof.
  apply Forall_lookup_2. intros i [line z] Hi. cbn [snd].
  unfold PYPParser_textlines in Hi at 1. apply lookup_zip_with_Some in Hi
    as (l' & z' & [= <- <-] & Hl & Hz).
  apply line_numbers_lookup in Hz as [-> Hlt].
  unfold list_getitem. destruct (0 <=? 1 + Z.of_nat i - 1) eqn:E; [|lia].
  replace (Z.to_nat (1 + Z.of_nat i - 1)) with i by lia.
  apply lookup_lt_is_Some_2.
  unfold PYPParser_textlines. rewrite length_zip_with, PreprocessFacts.line_numbers_length.
  lia.
Qed.

(** After a run of [execute] that generates the text, the line map kept
    by the parser object is valid. *)
Lemma execute_line_map_valid (text : string) (dbg : bool) (input : string)
    (p' : PYPParser) (python_text : string) :
  execute (PYPParser_init text dbg input) = Generated p' python_text ->
  line_map_valid p'.
Proof.
  unfold execute. cbn [textlines PYPParser_init].
  destruct (parse_lines _ _ _) as [[tree rest]|[]|] eqn:Hp; try discriminate.
  intros [= <- _]. unfold line_map_valid. cbn.
  refine (proj1 (parse_lines_map_ok _ _ _ _ _ _ Hp _ (textlines_indexed text))).
  apply map_Forall_empty.
Qed.

End LineMapFacts.

(** ** Diagnostics *)

Module DiagnosticFacts.

Section Handlers.
Variable format_list : list Frame -> string.

Lemma print_stdout (w : World) (s : string) :
  stdout (print w s) = stdout w ++ [s +:+ NL].
Proof. reflexivity. Qed.

Lemma errorline_mapped (p : PYPParser) (g s : Z) (txt : string) (k : Z) :
  parser_line_map p !! g = Some s ->
  list_getitem (textlines p) (s - 1) = Some (txt, k) ->
  _get_pyp_errorline p (Some g) = Ok (Some (s, txt)).
Proof. intros Hm Hl. unfold _get_pyp_errorline. now rewrite Hm, Hl. Qed.

Lemma errorline_unmapped (p : PYPParser) (g : Z) :
  parser_line_map p !! g = None -> _get_pyp_errorline p (Some g) = Ok None.
Proof. intros Hm. unfold _get_pyp_errorline. now rewrite Hm. Qed.

Lemma errorline_valid (p : PYPParser) (g : option Z) :
  line_map_valid p ->
  _get_pyp_errorline p g = Ok None
  \/ exists s txt, _get_pyp_errorline p g = Ok (Some (s, txt)).
Proof.
  intros Hv. destruct g as [g|]; [|now left]. unfold _get_pyp_errorline.
  destruct (parser_line_map p !! g) as [s|] eqn:Hm; [|now left].
  destruct (Hv g s Hm) as [[txt k] ->]. right. now exists s, txt.
Qed.

(** The debug loop only prints. *)
Lemma pyp_traceback_prints (p : PYPParser) (tb : list Frame) :
  line_map_valid p ->
  forall w, exists more,
    pyp_traceback p tb w = Ok (mkWorld (files w) (stdout w ++ more) (history w)).
Proof.
  intros Hv. induction tb as [|fr tb IH]; intros w.
  - exists []. destruct w. cbn. now rewrite app_nil_r.
  - cbn [pyp_traceback].
    destruct (errorline_valid p (Some (frame_lineno fr)) Hv) as [->|(s & txt & ->)].
    + destruct (IH (print w "(Unknown pyp line)")) as [more ->].
      eexists. cbn. now rewrite <- app_assoc.
    + destruct (IH (print (print w ("  " +:+ location_text p s)) ("    " +:+ txt)))
        as [more ->].
      eexists. cbn. now rewrite <- !app_assoc.
Qed.

Lemma syntax_handler_output (p : PYPParser) (exc : ExcInfo) (g : option Z)
    (found : option (Z * string)) (w : World) :
  _get_pyp_errorline p g = Ok found ->
  syntax_error_handler p exc g w
  = Ok (mkWorld (files w)
          (stdout w ++
           printed_lines
             ([""; "======= SYNTAX ERROR ============="] ++ citation p found ++
              [exc_type_name exc +:+ ": " +:+ exc_value_str exc; "";
               "DETAILED SYNTAX ERROR:"; exc_only_text exc;
               "==================================="]))
          (history w)).
Proof.
  intros H. unfold syntax_error_handler. rewrite H.
  destruct found as [[s txt]|]; unfold print; cbn; now rewrite <- !app_assoc.
Qed.

Lemma print_files (w : World) (s : string) : files (print w s) = files w.
Proof. reflexivity. Qed.

Lemma print_history (w : World) (s : string) : history (print w s) = history w.
Proof. reflexivity. Qed.

Lemma stdout_write_files (w : World) (s : string) : files (stdout_write w s) = files w.
Proof. reflexivity. Qed.

Lemma stdout_write_history (w : World) (s : string) :
  history (stdout_write w s) = history w.
Proof. reflexivity. Qed.

Lemma stdout_write_stdout (w : World) (s : string) :
  stdout (stdout_write w s) = stdout w ++ [s].
Proof. reflexivity. Qed.

Lemma world_ext (w1 w2 : World) :
  files w1 = files w2 -> stdout w1 = stdout w2 -> history w1 = history w2 ->
  w1 = w2.
Proof. destruct w1, w2. cbn. now intros -> -> ->. Qed.

Lemma exception_handler_output (p : PYPParser) (exc : ExcInfo) (tb : list Frame)
    (fr : Frame) (found : option (Z * string)) (w : World) :
  line_map_valid p ->
  last tb = Some fr ->
  _get_pyp_errorline p (Some (frame_lineno fr)) = Ok found ->
  exists more,
    (debug p = false -> more = []) /\
    exception_handler format_list p exc tb w
    = Ok (mkWorld (files w)
            (stdout w ++
             printed_lines
               ([""; "======= ERROR INFO ================"] ++ citation p found ++
                (match found with Some _ => [] | None => [format_list [fr]] end) ++
                [exc_type_name exc +:+ ": " +:+ exc_value_str exc]) ++
             more ++ printed_lines ["==================================="])
            (history w)).
Proof.
  intros Hv Hlast H. unfold exception_handler. rewrite Hlast, H.
  destruct (debug p).
  - match goal with
    | |- context [pyp_traceback p ?t ?w0] =>
        destruct (pyp_traceback_prints p t Hv w0) as [more ->]
    end.
    exists (printed_lines [""; "TRACEBACK:"] ++ [format_list (List.skipn 3 tb)]
            ++ printed_lines [""; "PYP TRACEBACK:"] ++ more).
    split; [discriminate|]. f_equal.
    destruct found as [[s txt]|]; apply world_ext;
      rewrite ?print_files, ?print_history, ?print_stdout; cbn [files stdout history];
      rewrite ?print_files, ?print_history, ?print_stdout,
        ?stdout_write_files, ?stdout_write_history, ?stdout_write_stdout;
      rewrite ?print_files, ?print_history, ?print_stdout;
      try reflexivity; cbn; rewrite <- ?app_assoc; cbn; reflexivity.
  - exists []. split; [reflexivity|]. f_equal.
    destruct found as [[s txt]|]; apply world_ext;
      rewrite ?print_files, ?print_history, ?print_stdout;
      try reflexivity; cbn; rewrite <- ?app_assoc; cbn; reflexivity.
Qed.

(** X20.  A failure at generated line [g], as a syntax
    error with that line number or as an exception whose innermost
    traceback entry has it.  When the line map sends [g] to [s], both
    handlers print, right after the banner, the location with the
    source line number [s] and then the text of line [s] of the text
    kept by the parser, which is the preprocessed template; [g] goes
    into the report only through the map.  When [g] has no entry, both
    print that the pyp source line could not be found, and no location
    of the template. *)
Theorem diagnostics_cite_mapped_line (p : PYPParser) (exc : ExcInfo) (g : Z)
    (tb : list Frame) (fr : Frame) (w : World) :
  line_map_valid p ->
  last tb = Some fr ->
  frame_lineno fr = g ->
  exists (cite : list string) (more : list string),
    match parser_line_map p !! g with
    | Some s =>
        exists txt k,
          list_getitem (textlines p) (s - 1) = Some (txt, k)
          /\ cite = [location_text p s; "  " +:+ txt]
    | None => cite = [SORRY]
    end
    /\ syntax_error_handler p exc (Some g) w
       = Ok (mkWorld (files w)
               (stdout w ++
                printed_lines
                  ([""; "======= SYNTAX ERROR ============="] ++ cite ++
                   [exc_type_name exc +:+ ": " +:+ exc_value_str exc; "";
                    "DETAILED SYNTAX ERROR:"; exc_only_text exc;
                    "==================================="]))
               (history w))
    /\ exception_handler format_list p exc tb w
       = Ok (mkWorld (files w)
               (stdout w ++
                printed_lines
                  ([""; "======= ERROR INFO ================"] ++ cite ++
                   (match parser_line_map p !! g with
                    | Some _ => []
                    | None => [format_list [fr]]
                    end) ++
                   [exc_type_name exc +:+ ": " +:+ exc_value_str exc]) ++
                more ++ printed_lines ["==================================="])
               (history w))
    /\ (debug p = false -> more = []).
Proof.
  intros Hv Hlast <-.
  destruct (parser_line_map p !! frame_lineno fr) as [s|] eqn:Hm.
  - destruct (Hv _ _ Hm) as [[txt k] Hl].
    pose proof (errorline_mapped p _ s txt k Hm Hl) as He.
    destruct (exception_handler_output p exc tb fr _ w Hv Hlast He)
      as (more & Hmore & Hex).
    exists [location_text p s; "  " +:+ txt], more.
    split; [now exists txt, k|].
    split; [exact (syntax_handler_output p exc _ _ w He)|].
    split; [exact Hex | exact Hmore].
  - pose proof (errorline_unmapped p _ Hm) as He.
    destruct (exception_handler_output p exc tb fr _ w Hv Hlast He)
      as (more & Hmore & Hex).
    exists [SORRY], more.
    split; [reflexivity|].
    split; [exact (syntax_handler_output p exc _ _ w He)|].
    split; [exact Hex | exact Hmore].
Qed.

End Handlers.

Lemma joined_example_executed :
  execute (PYPParser_init joined_example_text false "t.pyp")
  = Generated joined_example "_PRINT('%s' % ((x y),))".
Proof. vm_compute. reflexivity. Qed.

Lemma helper_example_executed :
  execute (PYPParser_init helper_example_text false "t.pyp")
  = Generated helper_example ("_PRINT(('first'))" +:+ NL +:+ "import helper").
Proof. vm_compute. reflexivity. Qed.

Lemma diagnostics_cite_mapped_line_witness :
  line_map_valid joined_example
  /\ exists w',
      syntax_error_handler joined_example
        (mkExcInfo "SyntaxError" "invalid syntax (gen.py, line 1)" "") (Some 1)
        empty_world = Ok w'
      /\ stdout w'
         = printed_lines
             [""; "======= SYNTAX ERROR =============";
              location_text joined_example 1; "  ${x y}";
              "SyntaxError: invalid syntax (gen.py, line 1)"; "";
              "DETAILED SYNTAX ERROR:"; ""; "==================================="].
Proof.
  pose proof (LineMapFacts.execute_line_map_valid _ _ _ _ _ joined_example_executed)
    as Hv.
  split; [exact Hv|].
  destruct (diagnostics_cite_mapped_line (fun _ => ""%string) joined_example
              (mkExcInfo "SyntaxError" "invalid syntax (gen.py, line 1)" "") 1
              [mkFrame "gen.py" 1 "<module>" ""] (mkFrame "gen.py" 1 "<module>" "")
              empty_world Hv eq_refl eq_refl)
    as (cite & more & Hc & Hs & _).
  change (parser_line_map joined_example !! 1) with (Some 1 : option Z) in Hc.
  destruct Hc as (txt & k & Hl & ->). injection Hl as <- <-.
  eexists. split; [exact Hs | reflexivity].
Defined.

(** For a failure at generated line 1 of this template, mapped to source
    line 1, the text shown is that of the preprocessed line, not the text
    of line 1 of the source. *)
Lemma diagnostic_text_is_preprocessed :
  execute (PYPParser_init joined_example_text false "t.pyp")
  = Generated joined_example "_PRINT('%s' % ((x y),))"
  /\ parser_line_map joined_example !! 1 = Some 1
  /\ _get_pyp_errorline joined_example (Some 1) = Ok (Some (1, "${x y}"))
  /\ split_char LF joined_example_text !! 0%nat = Some "${x"
  /\ "${x y}" <> "${x".
Proof.
  split; [exact joined_example_executed|].
  repeat split; try (vm_compute; reflexivity). discriminate.
Qed.

(** An exception raised outside the generated module.  The template imports a module whose first
    line raises.  The innermost frame inside the generated unit is at
    generated line 2, which the map sends to source line 2; the handler
    takes the last entry of the traceback, the frame of the imported
    module at its line 1, looks that number up in the line map, and cites
    source line 1. *)
Theorem exception_attributed_to_foreign_frame (format_list : list Frame -> string) :
  execute (PYPParser_init helper_example_text false "t.pyp")
  = Generated helper_example ("_PRINT(('first'))" +:+ NL +:+ "import helper")
  /\ innermost_generated_frame "/tmp/gen.py" helper_traceback
     = Some (mkFrame "/tmp/gen.py" 2 "<module>" "import helper")
  /\ _get_pyp_errorline helper_example (Some 2) = Ok (Some (2, "% import helper"))
  /\ last helper_traceback
     = Some (mkFrame "/tmp/helper.py" 1 "<module>" "raise ValueError('no')")
  /\ exception_handler format_list helper_example (mkExcInfo "ValueError" "no" "")
       helper_traceback empty_world
     = Ok (mkWorld ∅
             (printed_lines
                [""; "======= ERROR INFO ================";
                 location_text helper_example 1; "  first"; "ValueError: no";
                 "==================================="])
             []).
Proof.
  split; [exact helper_example_executed|].
  repeat split; vm_compute; reflexivity.
Qed.

End DiagnosticFacts.
Local Close Scope string_scope.

(** ** Escaping *)

Module EscapeFacts.

Lemma replace_char_nil (c : ascii) (new : string) :
  replace (String c "") new "" = ""%string.
Proof. reflexivity. Qed.

(** X1.  The three replacements of [escape_quotes], one after the other, amount
    to one pass over the text in which a backslash, a single quote and a
    double quote each get one backslash in front and every other byte is
    kept: the backslashes written for the quotes are not escaped again.
    Hence the escaping goes through concatenation. *)
Theorem escape_quotes_bytewise (c : ascii) (s t : string) :
  escape_quotes (String c s)
  = ((if Ascii.eqb c BACKSLASH || Ascii.eqb c SQUOTE || Ascii.eqb c DQUOTE
      then String BACKSLASH (String c "") else String c "") +:+ escape_quotes s)%string
  /\ escape_quotes (s +:+ t) = (escape_quotes s +:+ escape_quotes t)%string.
Proof.
  split.
  - unfold escape_quotes.
    rewrite (StrFacts.replace_char_cons BACKSLASH c).
    destruct (Ascii.eqb_spec BACKSLASH c) as [<-|Hb].
    + rewrite !StrFacts.replace_char_app. reflexivity.
    + rewrite (StrFacts.replace_char_cons SQUOTE c).
      destruct (Ascii.eqb_spec SQUOTE c) as [<-|Hs].
      * rewrite !StrFacts.replace_char_app. reflexivity.
      * rewrite (StrFacts.replace_char_cons DQUOTE c).
        destruct (Ascii.eqb_spec DQUOTE c) as [<-|Hd]; [reflexivity|].
        destruct (Ascii.eqb_spec c BACKSLASH) as [->|_]; [congruence|].
        destruct (Ascii.eqb_spec c SQUOTE) as [->|_]; [congruence|].
        destruct (Ascii.eqb_spec c DQUOTE) as [->|_]; [congruence|].
        reflexivity.
  - unfold escape_quotes. now rewrite !StrFacts.replace_char_app.
Qed.

(** X2.  Every percent sign is doubled and nothing else changes: collapsing
    the doubled signs, as the formatting operator does, gives the text
    back, and the number of percent signs is twice what it was. *)
Theorem escape_percent_inverse (s : string) :
  replace "%%" "%" (escape_percent s) = s
  /\ count_char "%" (escape_percent s) = (2 * count_char "%" s)%nat.
Proof.
  induction s as [|d s [IH1 IH2]]; [now split|].
  rewrite LiteralFacts.escape_percent_cons.
  destruct (Ascii.eqb_spec "%" d) as [<-|Hd].
  - split.
    + rewrite (StrFacts.replace_prefix "%%" "%" (escape_percent s)) by discriminate.
      rewrite IH1. reflexivity.
    + rewrite StrFacts.count_char_app, IH2. cbn. lia.
  - split.
    + rewrite StrFacts.replace_no_prefix.
      * now rewrite IH1.
      * rewrite StrFacts.prefix_cons.
        destruct (Ascii.eqb_spec "%" d); [contradiction|reflexivity].
    + cbn [count_char]. rewrite IH2.
      destruct (Ascii.eqb_spec "%" d); [contradiction|]. lia.
Qed.

End EscapeFacts.

(** ** The keyword alternations *)

Module AlternationFacts.

Lemma prefix_nil_r (p : string) : String.prefix p "" = true -> p = ""%string.
Proof. now destruct p. Qed.

(** Two prefixes of one text: one is a prefix of the other. *)
Lemma prefix_comparable (a : string) :
  forall b s,
    String.prefix a s = true -> String.prefix b s = true ->
    String.prefix a b = true \/ String.prefix b a = true.
Proof.
  induction a as [|c a IH]; intros b s Ha Hb; [left; apply StrFacts.prefix_nil|].
  destruct b as [|d b]; [right; apply StrFacts.prefix_nil|].
  destruct s as [|e s]; [discriminate|].
  rewrite StrFacts.prefix_cons in Ha, Hb.
  apply andb_prop in Ha as [Hc Ha]. apply andb_prop in Hb as [Hd Hb].
  apply Ascii.eqb_eq in Hc, Hd. subst.
  rewrite !StrFacts.prefix_cons, Ascii.eqb_refl. cbn. eauto.
Qed.

Lemma keyword_colon_some (keys : list string) (s st w : string) :
  Re.keyword_colon keys s = Some (st, w) ->
  In w keys /\ String.prefix w s = true
  /\ exists m, Re.dot_star_colon (drop (String.length w) s) = Some m /\ st = (w +:+ m)%string.
Proof.
  induction keys as [|k keys IH]; [discriminate|]. cbn [Re.keyword_colon].
  destruct (String.prefix k s) eqn:Hk.
  - destruct (Re.dot_star_colon (drop (String.length k) s)) as [m|] eqn:Hm.
    + intros [= <- <-]. split; [now left|]. split; [exact Hk|]. now exists m.
    + intros H. destruct (IH H) as (Hin & Hp & Hx). split; [now right|]. now split.
  - intros H. destruct (IH H) as (Hin & Hp & Hx). split; [now right|]. now split.
Qed.

Lemma keyword_colon_found (keys : list string) (s w m : string) :
  prefix_free keys -> In w keys -> String.prefix w s = true ->
  Re.dot_star_colon (drop (String.length w) s) = Some m ->
  Re.keyword_colon keys s = Some ((w +:+ m)%string, w).
Proof.
  intros Hfree. induction keys as [|k keys IH]; intros Hin Hp Hm; [destruct Hin|].
  cbn [Re.keyword_colon]. destruct (String.prefix k s) eqn:Hk.
  - assert (k = w) as ->.
    { destruct (prefix_comparable k w s Hk Hp) as [H|H].
      - apply Hfree; [now left | exact Hin | exact H].
      - symmetry. apply Hfree; [exact Hin | now left | exact H]. }
    now rewrite Hm.
  - destruct Hin as [->|Hin]; [congruence|].
    apply IH; [|exact Hin|exact Hp|exact Hm].
    intros a b Ha Hb. apply Hfree; now right.
Qed.

Lemma keyword_some (keys : list string) (s w : string) :
  Re.keyword keys s = Some w -> In w keys /\ String.prefix w s = true.
Proof.
  induction keys as [|k keys IH]; [discriminate|]. cbn [Re.keyword].
  destruct (String.prefix k s) eqn:Hk.
  - intros [= <-]. split; [now left | exact Hk].
  - intros H. destruct (IH H). split; [now right | assumption].
Qed.

Lemma keyword_found (keys : list string) (s w : string) :
  prefix_free keys -> In w keys -> String.prefix w s = true ->
  Re.keyword keys s = Some w.
Proof.
  intros Hfree. induction keys as [|k keys IH]; intros Hin Hp; [destruct Hin|].
  cbn [Re.keyword]. destruct (String.prefix k s) eqn:Hk.
  - f_equal. destruct (prefix_comparable k w s Hk Hp) as [H|H].
    + apply Hfree; [now left | exact Hin | exact H].
    + symmetry. apply Hfree; [exact Hin | now left | exact H].
  - destruct Hin as [->|Hin]; [congruence|].
    apply IH; [|exact Hin|exact Hp]. intros a b Ha Hb. apply Hfree; now right.
Qed.

Lemma prefix_free_perm (keys keys' : list string) :
  Permutation keys' keys -> prefix_free keys -> prefix_free keys'.
Proof.
  intros Hperm Hfree a b Ha Hb.
  apply Hfree; eapply Permutation_in; eauto.
Qed.

Lemma keyword_colon_perm (keys keys' : list string) (s : string) :
  prefix_free keys -> Permutation keys' keys ->
  Re.keyword_colon keys' s = Re.keyword_colon keys s.
Proof.
  intros Hfree Hperm.
  pose proof (prefix_free_perm _ _ Hperm Hfree) as Hfree'.
  destruct (Re.keyword_colon keys s) as [[st w]|] eqn:H.
  - destruct (keyword_colon_some _ _ _ _ H) as (Hin & Hp & m & Hm & ->).
    apply keyword_colon_found; try assumption.
    eapply Permutation_in; [symmetry; exact Hperm | exact Hin].
  - destruct (Re.keyword_colon keys' s) as [[st w]|] eqn:H'; [|reflexivity].
    destruct (keyword_colon_some _ _ _ _ H') as (Hin & Hp & m & Hm & ->).
    assert (In w keys) as Hin' by (eapply Permutation_in; [exact Hperm | exact Hin]).
    pose proof (keyword_colon_found keys s w m Hfree Hin' Hp Hm) as Hf. congruence.
Qed.

Lemma keyword_perm (keys keys' : list string) (s : string) :
  prefix_free keys -> Permutation keys' keys ->
  Re.keyword keys' s = Re.keyword keys s.
Proof.
  intros Hfree Hperm.
  pose proof (prefix_free_perm _ _ Hperm Hfree) as Hfree'.
  destruct (Re.keyword keys s) as [w|] eqn:H.
  - destruct (keyword_some _ _ _ H) as (Hin & Hp).
    apply keyword_found; try assumption.
    eapply Permutation_in; [symmetry; exact Hperm | exact Hin].
  - destruct (Re.keyword keys' s) as [w|] eqn:H'; [|reflexivity].
    destruct (keyword_some _ _ _ H') as (Hin & Hp).
    assert (In w keys) as Hin' by (eapply Permutation_in; [exact Hperm | exact Hin]).
    pose proof (keyword_found keys s w Hfree Hin' Hp) as Hf. congruence.
Qed.

Lemma prefix_free_check (keys : list string) :
  forallb (fun a => forallb (fun b => implb (String.prefix a b) (String.eqb a b)) keys)
    keys = true ->
  prefix_free keys.
Proof.
  intros H a b Ha Hb Hp. rewrite forallb_forall in H.
  specialize (H a Ha). rewrite forallb_forall in H. specialize (H b Hb).
  rewrite Hp in H. now apply String.eqb_eq.
Qed.

Lemma start_keywords_prefix_free : prefix_free python_startblock_keywords.
Proof. apply prefix_free_check. vm_compute. reflexivity. Qed.

Lemma middle_keywords_prefix_free : prefix_free middle_keywords.
Proof. apply prefix_free_check. vm_compute. reflexivity. Qed.

(** X3.  The keyword lists come from the keys of a dictionary, whose order is
    not fixed.  Whatever the order of the alternatives, the three control
    patterns match the same lines with the same groups: no keyword is a
    prefix of another one, so at most one alternative can match at a
    given place. *)
Theorem keyword_order_irrelevant (starts middles : list string) (s : string) :
  Permutation starts python_startblock_keywords ->
  Permutation middles middle_keywords ->
  Re.keyword_colon starts s = Re.keyword_colon python_startblock_keywords s
  /\ Re.keyword_colon middles s = Re.keyword_colon middle_keywords s
  /\ Re.keyword starts s = Re.keyword python_startblock_keywords s.
Proof.
  intros Hs Hm. split; [|split].
  - apply keyword_colon_perm; [apply start_keywords_prefix_free | exact Hs].
  - apply keyword_colon_perm; [apply middle_keywords_prefix_free | exact Hm].
  - apply keyword_perm; [apply start_keywords_prefix_free | exact Hs].
Qed.

Lemma keyword_order_irrelevant_witness :
  Permutation (rev python_startblock_keywords) python_startblock_keywords
  /\ Permutation (rev middle_keywords) middle_keywords
  /\ Re.keyword_colon (rev python_startblock_keywords) "for x in y:"
     = Re.keyword_colon python_startblock_keywords "for x in y:"
  /\ Re.keyword_colon (rev middle_keywords) "else:"
     = Re.keyword_colon middle_keywords "else:"
  /\ Re.keyword (rev python_startblock_keywords) "for"
     = Re.keyword python_startblock_keywords "for".
Proof.
  split; [apply Permutation_sym, Permutation_rev|].
  split; [apply Permutation_sym, Permutation_rev|].
  split; [|split].
  - exact (proj1 (keyword_order_irrelevant _ _ "for x in y:"
                    (Permutation_sym (Permutation_rev _))
                    (Permutation_sym (Permutation_rev _)))).
  - exact (proj1 (proj2 (keyword_order_irrelevant _ _ "else:"
                    (Permutation_sym (Permutation_rev _))
                    (Permutation_sym (Permutation_rev _))))).
  - exact (proj2 (proj2 (keyword_order_irrelevant _ _ "for"
                    (Permutation_sym (Permutation_rev _))
                    (Permutation_sym (Permutation_rev _))))).
Defined.

End AlternationFacts.
Local Close Scope string_scope.

(** ** Verbatim blocks: extent, triple quotes, stripping *)

Module BlockFacts.

Lemma loop_no_end (lines : list SourceLine) :
  no_end_marker lines ->
  forall ms a b, process_python_block_loop lines ms a b = None.
Proof.
  induction 1 as [|[line n] lines Hline _ IH]; intros ms a b; [reflexivity|].
  cbn [process_python_block_loop]. cbn [fst] in Hline. rewrite Hline.
  now rewrite IH.
Qed.

Lemma loop_end_exists (lines : list SourceLine) :
  forall ms a b,
    process_python_block_loop lines ms a b = None -> no_end_marker lines.
Proof.
  induction lines as [|[line n] lines IH]; intros ms a b H; [constructor|].
  cbn [process_python_block_loop] in H.
  destruct (PYTHON_BLOCK_END_REGEX line) eqn:He; [discriminate|].
  constructor; [exact He|].
  match type of H with
  | match ?x with _ => _ end = _ => destruct x as [[[? ?] ?]|] eqn:Hrec
  end; [discriminate|].
  exact (IH _ _ _ Hrec).
Qed.

Lemma odd_triples_cons (e : SourceLine) (lines : list SourceLine) :
  odd_triples (e :: lines)
  = ((if Nat.odd (count_triples (fst e)) then 1 else 0) + odd_triples lines)%nat.
Proof.
  unfold odd_triples. rewrite filter_cons.
  destruct (decide (Nat.odd (count_triples (fst e)) = true)) as [->|Hn]; [reflexivity|].
  now destruct (Nat.odd (count_triples (fst e))).
Qed.

Lemma loop_extent (body : list SourceLine) (e : SourceLine) (rest : list SourceLine) :
  no_end_marker body -> PYTHON_BLOCK_END_REGEX (fst e) = true ->
  forall ms a,
    exists blk,
      process_python_block_loop (body ++ e :: rest) ms a a
      = Some (blk, match ms with Some _ => ms | None => first_width body end, rest)
      /\ length blk = length body
      /\ forall i raw n,
          body !! i = Some (raw, n) ->
          blk !! i
          = Some (PythonLine_init raw (xorb a (Nat.odd (odd_triples (take i body)))), n).
Proof.
  intros Hbody He. induction Hbody as [|[line n] body Hline _ IH]; intros ms a.
  - exists []. destruct e as [el en]. cbn [fst] in He. cbn. rewrite He.
    split; [now destruct ms|]. split; [reflexivity|]. intros i raw n H. discriminate.
  - cbn [fst] in Hline. cbn [app process_python_block_loop]. rewrite Hline.
    set (a' := if Nat.odd (count_triples line) then negb a else a).
    set (ms1 := match ms with
                | Some _ => ms
                | None => if negb (SPACE_COMMENT_REGEX line)
                          then Some (Re.leading_space line) else None
                end).
    destruct (IH ms1 a') as (blk & Hloop & Hlen & Hat). rewrite Hloop.
    exists ((PythonLine_init line a, n) :: blk). split; [|split].
    + f_equal. f_equal. f_equal. subst ms1. unfold first_width. cbn [List.find fst].
      destruct ms; [reflexivity|].
      now destruct (negb (SPACE_COMMENT_REGEX line)).
    + cbn. now rewrite Hlen.
    + intros [|i] raw m H.
      * injection H as <- <-. cbn. now rewrite xorb_false_r.
      * rewrite lookup_cons in H. rewrite lookup_cons, (Hat i raw m H), firstn_cons.
        do 3 f_equal. rewrite odd_triples_cons. cbn [fst]. subst a'.
        destruct (Nat.odd (count_triples line)).
        -- change (1 + ?x)%nat with (S x). rewrite Nat.odd_succ, <- Nat.negb_odd.
           rewrite <- Bool.negb_xorb_l, <- Bool.negb_xorb_r. reflexivity.
        -- reflexivity.
Qed.

(** X6.  A verbatim block that is never closed.  When no line of the queue
    matches the end marker, the loop pops the queue empty and the next
    [pop] raises [IndexError]; that is the only way the block fails.  The
    parser does not catch it, so the template ends with that exception,
    whatever was parsed before, and not with a parse error. *)
Theorem unterminated_block_raises (lines : list SourceLine) :
  (no_end_marker lines <-> _process_python_block lines = Raise IndexError)
  /\ (no_end_marker lines ->
      forall self raw n,
        line_kind raw = KVerbatim ->
        parse self ((raw, n) :: lines) = Raise IndexError).
Proof.
  assert (no_end_marker lines -> _process_python_block lines = Raise IndexError) as Hraise.
  { intros H. unfold _process_python_block. now rewrite (loop_no_end _ H). }
  split; [split; [exact Hraise|]|].
  - unfold _process_python_block.
    destruct (process_python_block_loop lines None false false)
      as [[[blk ms] rest]|] eqn:Hloop; [discriminate|].
    intros _. exact (loop_end_exists _ _ _ _ Hloop).
  - intros H self raw n Hk. unfold parse.
    rewrite ParseFacts.parse_lines_step, Hk. now rewrite (Hraise H).
Qed.

Lemma unterminated_block_raises_witness :
  no_end_marker [("x = 1", 2)]
  /\ parse (PythonSequence_init 1) [("<%", 1); ("x = 1", 2)] = Raise IndexError.
Proof.
  assert (no_end_marker [("x = 1", 2)]) as H by (repeat constructor).
  split; [exact H|].
  exact (proj2 (unterminated_block_raises [("x = 1", 2)]) H
           (PythonSequence_init 1) "<%" 1 eq_refl).
Defined.

(** X7.  What a verbatim block is.  The block ends at the first line that
    matches the end marker, which is taken off the queue with the lines
    before it; the block has one entry for each of those lines, in order
    and under its own line number.  A line is in no-strip mode exactly
    when an odd number of the lines before it hold an odd number of
    triple-quote markers; such a line is kept byte for byte.  From every
    other line one substitution removes white space, of the width of the
    first line of the block that is neither blank nor a comment. *)
Theorem verbatim_block_extent (body : list SourceLine) (e : SourceLine)
    (rest : list SourceLine) :
  no_end_marker body -> PYTHON_BLOCK_END_REGEX (fst e) = true ->
  exists blk,
    _process_python_block (body ++ e :: rest) = Ok (blk, rest)
    /\ length blk = length body
    /\ forall i raw n,
        body !! i = Some (raw, n) ->
        let no_strip := Nat.odd (odd_triples (take i body)) in
        blk !! i
        = Some (mkPythonLine
                  (if no_strip then raw else sub_min_spaces (first_width body) raw)
                  no_strip 0, n).
Proof.
  intros Hbody He.
  destruct (loop_extent body e rest Hbody He None false) as (blk & Hloop & Hlen & Hat).
  exists (map (fix_indent (first_width body)) blk).
  unfold _process_python_block. rewrite Hloop. split; [reflexivity|].
  split; [now rewrite length_map|].
  intros i raw n Hi. cbv zeta. rewrite list_lookup_fmap, (Hat i raw n Hi).
  cbn [fmap option_fmap option_map xorb].
  unfold fix_indent, PythonLine_init. cbn [noindent line_string indent_levels].
  now destruct (Nat.odd (odd_triples (take i body))).
Qed.

Lemma verbatim_block_extent_witness :
  no_end_marker [("  x = '''a", 2); ("   b", 3); ("  c'''", 4); ("  y = 1", 5)]
  /\ PYTHON_BLOCK_END_REGEX (fst ("%>", 6)) = true
  /\ exists blk,
      _process_python_block
        ([("  x = '''a", 2); ("   b", 3); ("  c'''", 4); ("  y = 1", 5)]
         ++ ("%>", 6) :: [("after", 7)])
      = Ok (blk, [("after", 7)])
      /\ length blk = 4%nat.
Proof.
  assert (no_end_marker [("  x = '''a", 2); ("   b", 3); ("  c'''", 4); ("  y = 1", 5)])
    as H by (repeat constructor).
  split; [exact H|]. split; [reflexivity|].
  destruct (verbatim_block_extent _ ("%>", 6) [("after", 7)] H eq_refl)
    as (blk & Hb & Hlen & _).
  exists blk. split; [exact Hb | exact Hlen].
Defined.

(** X8.  The substitution that strips the indentation is not tied to the start
    of the line: it removes the leftmost run of white space of the given
    width, wherever that is.  When no such run starts inside the text
    [a], and at least [n] white-space bytes follow it, the first [n] of
    these go and [a] stays; with [a] empty this is the removal of a
    leading prefix. *)
Theorem strip_removes_leftmost_run (n : nat) (a s : string) :
  (forall k, (k < String.length a)%nat -> (Re.leading_space (drop k (a +:+ s)) < n)%nat) ->
  (n <= Re.leading_space s)%nat ->
  sub_space_run n (a +:+ s) = (a +:+ drop n s)%string.
Proof.
  intros Ha Hn. induction a as [|c a IH].
  - rewrite !StrFacts.app_nil_l. now apply VerbatimFacts.sub_space_run_leading.
  - rewrite !StrFacts.app_cons.
    pose proof (Ha 0%nat ltac:(cbn; lia)) as H0.
    rewrite StrFacts.drop_0, StrFacts.app_cons in H0.
    replace (sub_space_run n (String c (a +:+ s)))
      with (String c (sub_space_run n (a +:+ s))).
    + rewrite IH; [reflexivity|].
      intros k Hk. apply (Ha (S k)). cbn. lia.
    + symmetry. cbn [sub_space_run].
      destruct (Nat.leb_spec n (Re.leading_space (String c (a +:+ s)))); [lia|].
      reflexivity.
Qed.

Lemma strip_removes_leftmost_run_witness :
  (forall k, (k < String.length "b =")%nat ->
             (Re.leading_space (drop k ("b =" +:+ "    2")) < 4)%nat)
  /\ (4 <= Re.leading_space "    2")%nat
  /\ sub_space_run 4 "b =    2" = "b =2"%string.
Proof.
  assert (forall k, (k < String.length "b =")%nat ->
                    (Re.leading_space (drop k ("b =" +:+ "    2")) < 4)%nat) as Ha.
  { intros k Hk. change (String.length "b =") with 3%nat in Hk.
    destruct k as [|[|[|k]]]; [vm_compute; lia .. | lia]. }
  assert (4 <= Re.leading_space "    2")%nat as Hn by (vm_compute; lia).
  split; [exact Ha|]. split; [exact Hn|].
  exact (strip_removes_leftmost_run 4 "b =" "    2" Ha Hn).
Defined.

End BlockFacts.
Local Close Scope string_scope.

(** ** The line counter and the keys of the line map *)

Module CounterFacts.
Import ParseFacts.

Lemma linenum_add_node (self : PythonSequence) (node : Node) (ln : option Z) :
  python_linenum (add_node self node ln true) = python_linenum self + 1.
Proof. destruct self as [? ? ? ? ? ? [|i] ? ? ?], ln; reflexivity. Qed.

Lemma line_map_add_node (self : PythonSequence) (node : Node) (ln : option Z) :
  python_line_map (add_node self node ln true)
  = match ln with
    | Some n => <[python_linenum self := n]> (python_line_map self)
    | None => python_line_map self
    end.
Proof. destruct self as [? ? ? ? ? ? [|i] ? ? ?], ln; reflexivity. Qed.

Lemma keys_weaken (o hi hi' : Z) (m : gmap Z Z) :
  hi <= hi' ->
  map_Forall (fun g _ => o <= g < hi) m -> map_Forall (fun g _ => o <= g < hi') m.
Proof.
  intros Hle H. eapply map_Forall_impl; [exact H|]. intros g x Hg. cbn in *. lia.
Qed.

Lemma counted_step (o : Z) (hd : nat) (self self' : PythonSequence)
    (out : list PythonLine) :
  extends self self' hd out ->
  python_linenum self' = python_linenum self + Z.of_nat (length out) ->
  map_Forall (fun g _ => o <= g < python_linenum self') (python_line_map self') ->
  counted o hd self -> counted o hd self'.
Proof.
  intros (Hwf & _ & _ & _ & Hlines) Hnum Hkeys (_ & Hc & _).
  split; [exact Hwf|]. split; [|exact Hkeys].
  rewrite Hlines, length_app, Hnum, Hc. lia.
Qed.

Lemma counted_nonneg (o : Z) (hd : nat) (self : PythonSequence) :
  counted o hd self -> o <= python_linenum self.
Proof. intros (_ & Hc & _). lia. Qed.

Lemma counted_add_line (o : Z) (hd : nat) (self : PythonSequence) (l : PythonLine)
    (ln : option Z) :
  counted o hd self -> counted o hd (add_node self (NodeLine l) ln true).
Proof.
  intros Hc. pose proof (counted_nonneg _ _ _ Hc) as Hpos.
  destruct Hc as (Hwf & Hnum & Hkeys).
  apply (counted_step o hd self _ _ (extends_add_node self (NodeLine l) ln hd Hwf));
    [apply linenum_add_node | | exact (conj Hwf (conj Hnum Hkeys))].
  rewrite linenum_add_node, line_map_add_node.
  destruct ln as [n|].
  - apply map_Forall_insert_2; [lia|]. eapply keys_weaken; [|exact Hkeys]. lia.
  - eapply keys_weaken; [|exact Hkeys]. lia.
Qed.

Lemma counted_compound (o : Z) (hd : nat) (blk : list (PythonLine * Z)) :
  forall self, counted o hd self -> counted o hd (add_compound_block self blk).
Proof.
  induction blk as [|e blk IH]; intros self Hc; [exact Hc|].
  unfold add_compound_block. cbn [fold_left]. apply IH. now apply counted_add_line.
Qed.

Lemma counted_open (self : PythonSequence) (st w : string) (n m : Z) (hd : nat) :
  counted (python_linenum self) hd (open_block (update_python_linemap self m) st w n).
Proof.
  destruct (open_block_spec self st w n m hd) as (Hwf & _ & _ & _ & Hlines).
  split; [exact Hwf|]. cbv zeta in Hlines. rewrite Hlines.
  unfold open_block. destruct (String.eqb w "pypdef"); cbn.
  - split; [lia|]. apply map_Forall_empty.
  - rewrite ?andb_false_r. cbn. split; [lia|]. apply map_Forall_empty.
Qed.

Lemma counted_splice (o : Z) (hd : nat) (self nb : PythonSequence) (n : Z) :
  counted o hd self ->
  counted (python_linenum self) (node_depth self hd) nb ->
  (0 < length (get_lines nb (node_depth self hd)))%nat ->
  counted o hd (splice_block self n nb).
Proof.
  intros Hc Hnb Hlen. pose proof (counted_nonneg _ _ _ Hc) as Hpos.
  destruct Hc as (Hwf & Hnum & Hkeys). destruct Hnb as (_ & Hnum' & Hkeys').
  assert (python_linenum (splice_block self n nb) = python_linenum nb) as Hpl
    by (destruct self as [? ? ? ? ? ? [|i] ? ? ?]; reflexivity).
  assert (python_line_map (splice_block self n nb)
          = python_line_map nb ∪ <[python_linenum self := n]> (python_line_map self))
    as Hmap by (destruct self as [? ? ? ? ? ? [|i] ? ? ?]; reflexivity).
  apply (counted_step o hd self _ _ (extends_splice self n nb hd Hwf));
    [lia | | exact (conj Hwf (conj Hnum Hkeys))].
  rewrite Hpl, Hmap. apply map_Forall_union_2.
  - eapply map_Forall_impl; [exact Hkeys'|]. intros g x Hg. cbn in *. lia.
  - apply map_Forall_insert_2; [lia|]. eapply keys_weaken; [|exact Hkeys]. lia.
Qed.

Lemma counted_middle (o : Z) (hd : nat) (self : PythonSequence) (st w : string) (n : Z) :
  counted o hd self -> is_indented self = true ->
  counted o hd (middle_block self st w n).
Proof.
  intros Hc Hind. pose proof (counted_nonneg _ _ _ Hc) as Hpos.
  destruct Hc as (Hwf & Hnum & Hkeys).
  apply (counted_step o hd self _ _ (extends_middle self st w n hd Hwf Hind));
    [now destruct self | | exact (conj Hwf (conj Hnum Hkeys))].
  destruct self. cbn in *. apply map_Forall_insert_2; [lia|].
  eapply keys_weaken; [|exact Hkeys]. lia.
Qed.

Lemma counted_end (o : Z) (hd : nat) (self : PythonSequence) (w : string) :
  counted o hd self -> counted o hd (end_block self w).
Proof.
  intros Hc. unfold end_block. destruct (String.eqb w "pypdef"); [|exact Hc].
  now apply counted_add_line.
Qed.

Lemma linenum_open (self : PythonSequence) (st w : string) (n m : Z) :
  python_linenum self < python_linenum (open_block (update_python_linemap self m) st w n).
Proof.
  unfold open_block. destruct (String.eqb w "pypdef"); cbn.
  - lia.
  - rewrite ?andb_false_r. cbn. lia.
Qed.

Lemma linenum_compound (blk : list (PythonLine * Z)) :
  forall self, python_linenum self <= python_linenum (add_compound_block self blk).
Proof.
  induction blk as [|e blk IH]; intros self; [cbn; lia|].
  unfold add_compound_block. cbn [fold_left].
  etransitivity; [|apply IH]. rewrite linenum_add_node. lia.
Qed.

(** The parser keeps the counter in step with the lines it generates, and
    the counter never goes back. *)
Lemma parse_lines_counted (fuel : nat) :
  forall self lines self' rest o hd,
    parse_lines fuel self lines = Ok (self', rest) ->
    counted o hd self ->
    counted o hd self' /\ python_linenum self <= python_linenum self'.
Proof.
  induction fuel as [|fuel IH]; intros self lines self' rest o hd H Hc; [discriminate|].
  destruct lines as [|[raw n] lines]; [injection H as <- <-; split; [exact Hc | lia]|].
  rewrite parse_lines_step in H.
  destruct (line_kind raw) as [| |st w|st w|w|st|line].
  - exact (IH _ _ _ _ _ _ H Hc).
  - destruct (_process_python_block lines) as [[blk rest0]| |]; try discriminate.
    destruct (IH _ _ _ _ _ _ H (counted_compound _ _ _ _ Hc)) as [Hc' Hle].
    split; [exact Hc'|]. pose proof (linenum_compound blk self). lia.
  - destruct (parse_lines fuel _ lines) as [[nb rest0]| |] eqn:Hnb; try discriminate.
    destruct (IH _ _ _ _ _ (node_depth self hd) Hnb (counted_open self st w n n _))
      as [Hcnb Hle0].
    pose proof (linenum_open self st w n n) as Hopen.
    assert (0 < length (get_lines nb (node_depth self hd)))%nat as Hlen.
    { destruct Hcnb as (_ & Hnum & _). lia. }
    destruct (IH _ _ _ _ _ _ H (counted_splice _ _ _ _ n Hc Hcnb Hlen)) as [Hc' Hle].
    split; [exact Hc'|].
    assert (python_linenum (splice_block self n nb) = python_linenum nb) as Hpl
      by (destruct self as [? ? ? ? ? ? [|i] ? ? ?]; reflexivity).
    lia.
  - destruct (control_word self) as [cw|] eqn:Hcw; [|discriminate].
    destruct (negb _); [discriminate|].
    assert (is_indented self = true) as Hind
      by (exact (RefineFacts.wf_seq_word self cw (proj1 Hc) Hcw)).
    destruct (IH _ _ _ _ _ _ H (counted_middle _ _ _ st w n Hc Hind)) as [Hc' Hle].
    split; [exact Hc'|].
    assert (python_linenum (middle_block self st w n) = python_linenum self + 1) as Hpl
      by (now destruct self).
    lia.
  - destruct (control_word self); [|discriminate].
    destruct (negb _); [discriminate|]. injection H as <- <-.
    split; [now apply counted_end|].
    unfold end_block. destruct (String.eqb w "pypdef"); [|lia].
    rewrite linenum_add_node. lia.
  - destruct (IH _ _ _ _ _ _ H (counted_add_line _ _ _ _ (Some n) Hc)) as [Hc' Hle].
    split; [exact Hc'|]. rewrite linenum_add_node in Hle. lia.
  - destruct (IH _ _ _ _ _ _ H (counted_add_line _ _ _ _ (Some n) Hc)) as [Hc' Hle].
    split; [exact Hc'|]. rewrite linenum_add_node in Hle. lia.
Qed.

Lemma root_counted (start : Z) (hd : nat) : counted start hd (PythonSequence_init start).
Proof.
  split; [apply KeywordFacts.root_wf|]. cbn. split; [lia|]. apply map_Forall_empty.
Qed.

(** X12.  The keys of the line map are line numbers of the generated program.
    After a parse of a whole template the counter is one more than the
    number of generated lines, and every entry of the line map sends the
    number of one of these lines to the number of a line of the input. *)
Theorem line_map_keys_generated (lines : list SourceLine) (tree : PythonSequence)
    (rest : list SourceLine) :
  parse (PythonSequence_init 1) lines = Ok (tree, rest) ->
  python_linenum tree = 1 + Z.of_nat (length (get_lines tree 0))
  /\ forall g s,
      python_line_map tree !! g = Some s ->
      1 <= g <= Z.of_nat (length (get_lines tree 0)) /\ In s (map snd lines).
Proof.
  intros H.
  destruct (parse_lines_counted _ _ _ _ _ 1 0%nat H (root_counted 1 0))
    as [(_ & Hnum & Hkeys) _].
  split; [exact Hnum|]. intros g s Hg. split.
  - specialize (Hkeys g s Hg). cbn in Hkeys. lia.
  - assert (lines_ok (fun z => In z (map snd lines)) lines) as Hl.
    { apply List.Forall_forall. intros e He. now apply in_map. }
    refine (proj1 (LineMapFacts.parse_lines_map_ok _ _ _ _ _ _ H _ Hl) g s Hg).
    apply map_Forall_empty.
Qed.

Lemma line_map_keys_generated_witness :
  exists tree,
    parse (PythonSequence_init 1) [("%if x:", 1); ("foo", 2); ("%endif", 3); ("bar", 4)]
    = Ok (tree, [])
    /\ python_linenum tree = 1 + Z.of_nat (length (get_lines tree 0))
    /\ python_line_map tree = {[ 1 := 1; 2 := 2; 3 := 4 ]}.
Proof.
  eexists. split; [vm_compute; reflexivity|]. split.
  - refine (proj1 (line_map_keys_generated
                     [("%if x:", 1); ("foo", 2); ("%endif", 3); ("bar", 4)] _ [] _)).
    vm_compute. reflexivity.
  - vm_compute. reflexivity.
Defined.

End CounterFacts.

(** ** Looking a generated line up *)

Module LookupFacts.

Lemma textlines_numbered (text : string) :
  Forall (fun e => exists txt,
              list_getitem (PYPParser_textlines text) (snd e - 1) = Some (txt, snd e))
    (PYPParser_textlines text).
Proof.
  apply Forall_lookup_2. intros i [line z] Hi. cbn [snd]. exists line.
  pose proof Hi as Hi'.
  unfold PYPParser_textlines in Hi' at 1. apply lookup_zip_with_Some in Hi'
    as (l' & z' & [= <- <-] & Hl & Hz).
  apply LineMapFacts.line_numbers_lookup in Hz as [-> Hlt].
  unfold list_getitem. destruct (0 <=? 1 + Z.of_nat i - 1) eqn:E; [|lia].
  replace (Z.to_nat (1 + Z.of_nat i - 1)) with i by lia. exact Hi.
Qed.

(** X14.  After a run of [execute] that generates the program, looking up a
    generated line number never raises: a number in the line map gives
    its source line number together with the text of the line that
    carries this number in the text kept by the parser, and a number
    not in the map gives nothing. *)
Theorem lookup_never_raises (text : string) (dbg : bool) (input : string)
    (p' : PYPParser) (python_text : string) (g : Z) :
  execute (PYPParser_init text dbg input) = Generated p' python_text ->
  match parser_line_map p' !! g with
  | Some s =>
      exists txt,
        _get_pyp_errorline p' (Some g) = Ok (Some (s, txt))
        /\ In (txt, s) (textlines p')
  | None => _get_pyp_errorline p' (Some g) = Ok None
  end.
Proof.
  unfold execute. cbn [textlines PYPParser_init].
  destruct (parse_lines _ _ _) as [[tree rest]|[]|] eqn:Hp; try discriminate.
  intros [= <- _]. unfold _get_pyp_errorline, set_parser_line_map, PYPParser_init.
  cbn [parser_line_map textlines].
  destruct (python_line_map tree !! g) as [s|] eqn:Hg; [|reflexivity].
  assert (map_Forall (fun _ s => exists txt,
              list_getitem (PYPParser_textlines text) (s - 1) = Some (txt, s))
            (python_line_map tree)) as Hvalid.
  { refine (proj1 (LineMapFacts.parse_lines_map_ok _ _ _ _ _ _ Hp _
                     (textlines_numbered text))).
    apply map_Forall_empty. }
  destruct (Hvalid g s Hg) as [txt Htxt]. exists txt. rewrite Htxt.
  split; [reflexivity|].
  unfold list_getitem in Htxt.
  destruct (0 <=? s - 1); [|destruct (_ <=? s - 1); [|discriminate]];
    apply list_elem_of_In; eapply list_elem_of_lookup_2; exact Htxt.
Qed.

Lemma lookup_never_raises_witness :
  execute (PYPParser_init joined_example_text false "t.pyp")
  = Generated joined_example "_PRINT('%s' % ((x y),))"
  /\ exists txt,
      _get_pyp_errorline joined_example (Some 1) = Ok (Some (1, txt))
      /\ In (txt, 1) (textlines joined_example).
Proof.
  assert (execute (PYPParser_init joined_example_text false "t.pyp")
          = Generated joined_example "_PRINT('%s' % ((x y),))") as H
    by (vm_compute; reflexivity).
  split; [exact H|].
  exact (lookup_never_raises joined_example_text false "t.pyp" joined_example _ 1 H).
Defined.

End LookupFacts.
Local Close Scope string_scope.

(** ** Expression markers: the scan of a line *)

Module ScanFacts.
Import StrFacts ExprFacts.

Lemma contains_app_r (p a b : string) :
  contains p b = true -> contains p (a +:+ b) = true.
Proof.
  intros H. induction a as [|c a IH]; [now rewrite app_nil_l|].
  rewrite app_cons, contains_cons, IH. apply orb_true_r.
Qed.

Lemma contains_prefix (p s : string) : String.prefix p s = true -> contains p s = true.
Proof. intros H. destruct s; cbn [contains]; now rewrite H. Qed.

Lemma open_not_matched (c : ascii) (t e rest : string) :
  EXPR_REGEX_match (String c (t +:+ marker e +:+ rest)) = None ->
  String.prefix "${" (String c t) = false.
Proof.
  intros Hm. destruct (String.prefix "${" (String c t)) eqn:Hp; [|reflexivity].
  exfalso. rewrite match_unfold in Hm.
  destruct t as [|d t]; [rewrite prefix_cons in Hp; cbn in Hp;
                         now rewrite andb_false_r in Hp|].
  rewrite !prefix_cons, prefix_nil, andb_true_r in Hp.
  apply andb_prop in Hp as [Hc Hd]. apply Ascii.eqb_eq in Hc, Hd. subst c d.
  rewrite !app_cons in Hm.
  rewrite !prefix_cons, prefix_nil, !Ascii.eqb_refl in Hm. cbn [andb drop] in Hm.
  apply until_brace_none in Hm.
  rewrite contains_app_r in Hm; [discriminate|].
  unfold marker. rewrite !app_assoc.
  apply (contains_app_r "}" "${"). apply contains_app_r. apply contains_prefix, prefix_app.
Qed.

Lemma scan_wf_aux (n : nat) :
  forall s, (String.length s <= n)%nat ->
            pieces_wf (fst (EXPR_REGEX_scan s)) (snd (EXPR_REGEX_scan s)).
Proof.
  induction n as [|n IH]; intros s Hlen.
  - destruct s; [|cbn in Hlen; lia]. split; [constructor | reflexivity].
  - destruct s as [|c s]; [split; [constructor | reflexivity]|].
    destruct (EXPR_REGEX_match (String c s)) as [inner|] eqn:Hm.
    + rewrite (scan_cons_match c s inner Hm). cbv zeta. cbn [fst snd].
      destruct (match_some _ _ Hm) as [Hs Hinner].
      assert (String.length (drop (String.length inner + 3) (String c s)) <= n)%nat
        as Hshort.
      { apply (f_equal String.length) in Hs.
        rewrite length_app, LiteralFacts.marker_length in Hs. lia. }
      destruct (IH _ Hshort) as [Hsegs Htail].
      split; [|exact Htail]. constructor; [|exact Hsegs]. now split.
    + rewrite (scan_cons_no_match c s Hm).
      assert (String.length s <= n)%nat as Hshort by (cbn in Hlen; lia).
      destruct (IH s Hshort) as [Hsegs Htail].
      pose proof (scan_reassemble s) as Hre.
      destruct (EXPR_REGEX_scan s) as [[|[t e] segs] tl]; cbn [fst snd cons_text] in *.
      * change (tl = s) in Hre. subst tl.
        split; [constructor|]. cbn [marker_free]. rewrite Htail, andb_true_r.
        rewrite match_unfold in Hm.
        destruct (String.prefix "${" (String c s)); [|reflexivity].
        apply until_brace_none in Hm. now rewrite Hm.
      * change (t +:+ marker e +:+ assemble segs tl = s)%string in Hre. subst s.
        split; [|exact Htail]. inversion Hsegs as [|? ? [Ht He] Hsegs']; subst.
        cbn [fst snd] in Ht, He. constructor; [|exact Hsegs']. split; [|exact He].
        cbn [fst].
        rewrite contains_cons, Ht, orb_false_r.
        apply (open_not_matched c t e (assemble segs tl)). exact Hm.
Qed.

(** X15.  The scan of a line for expression markers splits the line into
    pieces: texts that hold no opening, each followed by a marker whose
    expression holds no closing brace, and a final text with no marker.
    The pieces put together give the line back, the expressions found
    are those of the markers in order, and no other such splitting of
    the line exists. *)
Theorem expression_scan_partitions_line (line : string) :
  pieces_wf (fst (EXPR_REGEX_scan line)) (snd (EXPR_REGEX_scan line))
  /\ assemble (fst (EXPR_REGEX_scan line)) (snd (EXPR_REGEX_scan line)) = line
  /\ EXPR_REGEX_findall line = map snd (fst (EXPR_REGEX_scan line))
  /\ forall segs tail,
      pieces_wf segs tail -> assemble segs tail = line ->
      EXPR_REGEX_scan line = (segs, tail).
Proof.
  split; [exact (scan_wf_aux _ line (Nat.le_refl _))|].
  split; [apply scan_reassemble|]. split; [reflexivity|].
  intros segs tail Hwf <-. now apply LiteralFacts.scan_assemble.
Qed.

End ScanFacts.

(** ** Preprocessing *)

Module JoinFacts.
Import StrFacts ExprFacts.

Lemma preprocess_pieces (text : string) :
  preprocess_text text
  = joined (fst (EXPR_REGEX_scan text)) (snd (EXPR_REGEX_scan text)).
Proof. reflexivity. Qed.

Lemma marker_free_cons (c : ascii) (s : string) :
  Ascii.eqb "$" c = false -> marker_free (String c s) = marker_free s.
Proof. intros Hc. cbn [marker_free]. now rewrite prefix_cons, Hc. Qed.

Lemma contains_open_cons (c : ascii) (s : string) :
  Ascii.eqb "$" c = false -> contains "${" (String c s) = contains "${" s.
Proof. intros Hc. now rewrite contains_cons, prefix_cons, Hc. Qed.

Lemma dummyline_app (s : string) :
  (dummyline +:+ s)%string
  = String LF (String "D" (String "U" (String "M" (String "M" (String "Y"
      (String "T" (String "E" (String "X" (String "T" s))))))))).
Proof. reflexivity. Qed.

Lemma times_dummy_succ (k : nat) (s : string) :
  (times dummyline (S k) +:+ s)%string = (dummyline +:+ times dummyline k +:+ s)%string.
Proof. cbn [times]. now rewrite app_assoc. Qed.

Lemma marker_free_dummy (k : nat) (s : string) :
  marker_free (times dummyline k +:+ s) = marker_free s.
Proof.
  induction k as [|k IH]; [now rewrite app_nil_l|].
  rewrite times_dummy_succ, dummyline_app.
  rewrite !marker_free_cons by reflexivity. exact IH.
Qed.

Lemma contains_open_dummy (k : nat) (s : string) :
  contains "${" (times dummyline k +:+ s) = contains "${" s.
Proof.
  induction k as [|k IH]; [now rewrite app_nil_l|].
  rewrite times_dummy_succ, dummyline_app.
  rewrite !contains_open_cons by reflexivity. exact IH.
Qed.

Lemma join_keeps_absent (c : ascii) (s : string) :
  Ascii.eqb c " " = false ->
  contains (String c "") s = false ->
  contains (String c "") (replace NL " " s) = false.
Proof.
  intros Hc. induction s as [|d s IH]; [reflexivity|].
  rewrite contains_char_cons. intros H. apply orb_false_elim in H as [Hd Hs].
  change NL with (String LF ""). rewrite replace_char_cons.
  destruct (Ascii.eqb LF d).
  - change (" " +:+ ?x)%string with (String " " x).
    rewrite contains_char_cons, Hc. exact (IH Hs).
  - rewrite contains_char_cons, Hd. exact (IH Hs).
Qed.

Lemma findall_joined (segs : list (string * string)) (tail : string) :
  pieces_wf segs tail ->
  forall k,
    EXPR_REGEX_findall (times dummyline k +:+ joined segs tail)
    = map (fun seg => replace NL " " (snd seg)) segs.
Proof.
  intros [Hsegs Htail]. induction Hsegs as [|[t e] segs [Ht He] _ IH]; intros k.
  - cbn [joined fold_right map]. unfold EXPR_REGEX_findall.
    rewrite LiteralFacts.scan_marker_free; [reflexivity|].
    now rewrite marker_free_dummy.
  - cbn [fst snd] in Ht, He. cbn [joined fold_right map fst snd].
    fold (joined segs tail). unfold replace_func. cbv zeta.
    fold dummyline. fold (marker (replace NL " " e)).
    replace (times dummyline k +:+ t +:+
             (marker (replace NL " " e) +:+ times dummyline (count_char LF e)) +:+
             joined segs tail)%string
      with ((times dummyline k +:+ t) +:+ marker (replace NL " " e) +:+
            (times dummyline (count_char LF e) +:+ joined segs tail))%string
      by (now rewrite !app_assoc).
    unfold EXPR_REGEX_findall. rewrite LiteralFacts.scan_text_marker.
    + cbn [fst map snd]. f_equal. apply IH.
    + now rewrite contains_open_dummy.
    + apply join_keeps_absent; [reflexivity | exact He].
Qed.

Lemma count_contains (c : ascii) (s : string) :
  count_char c s = 0%nat -> contains (String c "") s = false.
Proof.
  induction s as [|d s IH]; [reflexivity|]. cbn [count_char].
  rewrite contains_char_cons. destruct (Ascii.eqb c d); [discriminate|]. exact IH.
Qed.

Lemma replace_func_single (e : string) :
  count_char LF e = 0%nat -> replace_func e = marker e.
Proof.
  intros H. unfold replace_func. cbv zeta. rewrite H. cbn [times].
  rewrite app_nil_r. change NL with (String LF "").
  rewrite replace_absent by now apply count_contains. reflexivity.
Qed.

Lemma joined_single (segs : list (string * string)) (tail : string) :
  Forall (fun e => count_char LF e = 0%nat) (map snd segs) ->
  joined segs tail = assemble segs tail.
Proof.
  induction segs as [|[t e] segs IH]; [reflexivity|]. cbn [map snd].
  intros H. inversion H as [|? ? He Hs]; subst.
  cbn [joined assemble fold_right fst snd]. fold (joined segs tail).
  fold (assemble segs tail). now rewrite (replace_func_single e He), (IH Hs).
Qed.

(** X16.  Preprocessing joins every expression on one line and changes nothing
    else about the expressions: the expressions of the preprocessed text
    are those of the template, in order, each with its newlines turned
    into blanks; so none of them holds a newline. *)
Theorem preprocess_joins_expressions (text : string) :
  EXPR_REGEX_findall (preprocess_text text)
  = map (replace NL " ") (EXPR_REGEX_findall text)
  /\ Forall (fun e => count_char LF e = 0%nat)
       (EXPR_REGEX_findall (preprocess_text text)).
Proof.
  assert (EXPR_REGEX_findall (preprocess_text text)
          = map (replace NL " ") (EXPR_REGEX_findall text)) as H.
  { rewrite preprocess_pieces.
    pose proof (findall_joined _ _ (ScanFacts.scan_wf_aux _ text (Nat.le_refl _)) 0)
      as Hf.
    cbn [times] in Hf. rewrite app_nil_l in Hf. rewrite Hf.
    unfold EXPR_REGEX_findall. now rewrite map_map. }
  split; [exact H|]. rewrite H. apply Forall_map, Forall_forall. intros e _.
  apply PreprocessFacts.count_replace_newline.
Qed.

(** X17.  A template in which no expression runs over a line end is left as it
    is by preprocessing. *)
Theorem preprocess_identity (text : string) :
  Forall (fun e => count_char LF e = 0%nat) (EXPR_REGEX_findall text) ->
  preprocess_text text = text.
Proof.
  intros H. rewrite preprocess_pieces, joined_single by exact H.
  apply scan_reassemble.
Qed.

Lemma preprocess_identity_witness :
  Forall (fun e => count_char LF e = 0%nat)
    (EXPR_REGEX_findall ("Hello ${name}!" +:+ NL +:+ "${a} and ${b}"))
  /\ preprocess_text ("Hello ${name}!" +:+ NL +:+ "${a} and ${b}")
     = ("Hello ${name}!" +:+ NL +:+ "${a} and ${b}")%string.
Proof.
  assert (Forall (fun e => count_char LF e = 0%nat)
            (EXPR_REGEX_findall ("Hello ${name}!" +:+ NL +:+ "${a} and ${b}"))) as H
    by (vm_compute; repeat constructor).
  split; [exact H|]. exact (preprocess_identity _ H).
Defined.

(** X18.  Preprocessing a preprocessed text changes nothing. *)
Theorem preprocess_idempotent (text : string) :
  preprocess_text (preprocess_text text) = preprocess_text text.
Proof.
  rewrite preprocess_pieces, joined_single.
  - apply scan_reassemble.
  - pose proof (findall_joined _ _ (ScanFacts.scan_wf_aux _ text (Nat.le_refl _)) 0)
      as Hf.
    cbn [times] in Hf. rewrite app_nil_l, <- preprocess_pieces in Hf.
    unfold EXPR_REGEX_findall in Hf. rewrite Hf.
    apply Forall_map, Forall_forall. intros e _. cbn.
    apply PreprocessFacts.count_replace_newline.
Qed.

Lemma join_cons (sep a : string) (l : list string) :
  join sep (a :: l) = match l with [] => a | _ :: _ => (a +:+ sep +:+ join sep l)%string end.
Proof. now destruct l. Qed.

Lemma split_char_cons (c d : ascii) (s : string) :
  split_char c s <> []
  /\ split_char c (String d s)
     = if Ascii.eqb c d then ""%string :: split_char c s
       else match split_char c s with
            | [] => [String d ""]
            | w :: ws => String d w :: ws
            end.
Proof.
  split; [|reflexivity]. destruct s as [|e s]; [discriminate|]. cbn [split_char].
  destruct (Ascii.eqb c e); [discriminate|]. now destruct (split_char c s).
Qed.

Lemma join_split (s : string) : join NL (split_char LF s) = s.
Proof.
  induction s as [|d s IH]; [reflexivity|].
  destruct (split_char_cons LF d s) as [Hne ->].
  destruct (Ascii.eqb_spec LF d) as [<-|Hd].
  - rewrite join_cons. destruct (split_char LF s) as [|w ws] eqn:E; [congruence|].
    rewrite IH. reflexivity.
  - destruct (split_char LF s) as [|w ws] eqn:E; [congruence|].
    rewrite join_cons in IH |- *. destruct ws as [|w' ws].
    + now rewrite IH.
    + rewrite <- IH. now rewrite app_cons.
Qed.

(** X19.  The line stream of the parser object holds the lines of the
    preprocessed text: joined by newlines, they give that text back. *)
Theorem textlines_join (raw : string) (dbg : bool) (input : string) :
  join NL (map fst (textlines (PYPParser_init raw dbg input)))
  = text (PYPParser_init raw dbg input).
Proof.
  cbn [textlines text PYPParser_init]. unfold PYPParser_textlines.
  change (map fst ?l) with (l.*1). rewrite fst_zip.
  - apply join_split.
  - rewrite PreprocessFacts.line_numbers_length. lia.
Qed.

End JoinFacts.
Local Close Scope string_scope.

(** ** The bridge: where the output goes *)

Module OutputFacts.
Import DiagnosticFacts.









Section Run.
Variable format_list : list Frame -> string.










End Run.

Lemma joined_example_valid : line_map_valid joined_example.
Proof.
  exact (LineMapFacts.execute_line_map_valid _ _ _ _ _ joined_example_executed).
Qed.




End OutputFacts.

(** ** The bridge: which line an exception is attributed to *)

Module AttributionFacts.

(** X21.  The handler of run-time failures looks at the line number of the last
    entry of the traceback and at nothing else of the traceback: not at
    the file of that entry, and not at the entries before it.  Two
    tracebacks whose last entries carry the same line number, one that
    the line map knows, get the same report, so a failure at line [g] of
    any other file is reported as source line [s] like a failure at line
    [g] of the generated module. *)
Theorem attribution_by_last_line_only (format_list : list Frame -> string)
    (p : PYPParser) (exc : ExcInfo) (tb tb' : list Frame) (g s : Z) (w : World) :
  debug p = false ->
  option_map frame_lineno (last tb) = Some g ->
  option_map frame_lineno (last tb') = Some g ->
  parser_line_map p !! g = Some s ->
  exception_handler format_list p exc tb w = exception_handler format_list p exc tb' w.
Proof.
  intros Hd Hl Hl' Hg. unfold exception_handler.
  destruct (last tb) as [fr|]; [|discriminate].
  destruct (last tb') as [fr'|]; [|discriminate].
  cbn in Hl, Hl'. injection Hl as Hl. injection Hl' as Hl'. rewrite Hl, Hl', Hd.
  unfold _get_pyp_errorline. rewrite Hg.
  now destruct (list_getitem (textlines p) (s - 1)).
Qed.

Lemma attribution_by_last_line_only_witness :
  debug helper_example = false
  /\ option_map frame_lineno (last helper_traceback) = Some 1
  /\ option_map frame_lineno
       (last [mkFrame "/tmp/gen.py" 1 "<module>" "_PRINT(('first'))"]) = Some 1
  /\ parser_line_map helper_example !! 1 = Some 1
  /\ exception_handler (fun _ => ""%string) helper_example
       (mkExcInfo "ValueError" "no" "") helper_traceback empty_world
     = exception_handler (fun _ => ""%string) helper_example
         (mkExcInfo "ValueError" "no" "")
         [mkFrame "/tmp/gen.py" 1 "<module>" "_PRINT(('first'))"] empty_world.
Proof.
  assert (parser_line_map helper_example !! 1 = Some 1) as Hg
    by (vm_compute; reflexivity).
  split; [reflexivity|]. split; [reflexivity|]. split; [reflexivity|].
  split; [exact Hg|].
  exact (attribution_by_last_line_only (fun _ => ""%string) helper_example
           (mkExcInfo "ValueError" "no" "") helper_traceback
           [mkFrame "/tmp/gen.py" 1 "<module>" "_PRINT(('first'))"] 1 1 empty_world
           eq_refl eq_refl eq_refl Hg).
Defined.

End AttributionFacts.
Local Close Scope string_scope.

(** ** The parser ends, and consumes a prefix of the queue *)

Module TerminationFacts.
Import ParseFacts.

Lemma parse_lines_suffix (fuel : nat) :
  forall self lines self' rest,
    parse_lines fuel self lines = Ok (self', rest) ->
    exists pre, lines = pre ++ rest.
Proof.
  induction fuel as [|fuel IH]; intros self lines self' rest H; [discriminate|].
  destruct lines as [|[raw n] lines]; [injection H as <- <-; now exists []|].
  rewrite parse_lines_step in H.
  assert (forall s l, parse_lines fuel s l = Ok (self', rest) ->
                      forall pre0, lines = pre0 ++ l ->
                      exists pre, (raw, n) :: lines = pre ++ rest) as Hgo.
  { intros s l Hl pre0 ->. destruct (IH _ _ _ _ Hl) as [pre ->].
    exists ((raw, n) :: pre0 ++ pre). cbn. now rewrite app_assoc. }
  destruct (line_kind raw) as [| |st w|st w|w|st|line].
  - exact (Hgo _ _ H [] eq_refl).
  - destruct (_process_python_block lines) as [[blk rest0]| |] eqn:Hb; try discriminate.
    destruct (process_python_block_rest _ _ _ Hb) as (pre0 & Hpre & _).
    exact (Hgo _ _ H pre0 Hpre).
  - destruct (parse_lines fuel _ lines) as [[nb rest0]| |] eqn:Hnb; try discriminate.
    destruct (IH _ _ _ _ Hnb) as [pre0 Hpre].
    exact (Hgo _ _ H pre0 Hpre).
  - destruct (control_word self); [|discriminate].
    destruct (negb _); [discriminate|]. exact (Hgo _ _ H [] eq_refl).
  - destruct (control_word self); [|discriminate].
    destruct (negb _); [discriminate|]. injection H as <- <-. now exists [(raw, n)].
  - exact (Hgo _ _ H [] eq_refl).
  - exact (Hgo _ _ H [] eq_refl).
Qed.

(** X10.  The parser always ends.  Every call takes at least one line off the
    queue before it calls itself again, so one more call than the queue
    has lines is enough: with that much fuel or more the result is the
    same and is never the lack of fuel.  The queue that a call leaves is
    what remains of its queue after a prefix was taken off. *)
Theorem parse_lines_terminates (fuel : nat) (self : PythonSequence)
    (lines : list SourceLine) :
  (length lines < fuel)%nat ->
  parse_lines fuel self lines = parse self lines
  /\ parse self lines <> OutOfFuel
  /\ forall self' rest, parse self lines = Ok (self', rest) ->
                        exists pre, lines = pre ++ rest.
Proof.
  intros Hfuel. split; [now apply parse_fuel|]. split; [apply parse_total|].
  intros self' rest H. exact (parse_lines_suffix _ _ _ _ _ H).
Qed.

Lemma parse_lines_terminates_witness :
  (length [("%if x:", 1); ("yes", 2); ("%endif", 3)] < 10)%nat
  /\ parse_lines 10 (PythonSequence_init 1) [("%if x:", 1); ("yes", 2); ("%endif", 3)]
     = parse (PythonSequence_init 1) [("%if x:", 1); ("yes", 2); ("%endif", 3)].
Proof.
  assert (length [("%if x:", 1); ("yes", 2); ("%endif", 3)] < 10)%nat as H
    by (cbn; lia).
  split; [exact H|].
  exact (proj1 (parse_lines_terminates 10 (PythonSequence_init 1)
                  [("%if x:", 1); ("yes", 2); ("%endif", 3)] H)).
Defined.

End TerminationFacts.

(** ** The parser and the generator against the line-by-line run *)

Module TranslationFacts.

Lemma snd_emit (o : list PythonLine) (r : list PythonLine * SpecStop) :
  snd (emit o r) = snd r.
Proof. reflexivity. Qed.

(** A run with the root sequence at the base is never closed by an end
    keyword. *)
Lemma spec_run_never_closed lit bacc bd (lines : list SourceLine) :
  forall open skip rest,
    snd (spec_run lit None bacc bd open skip lines) <> Closed rest.
Proof.
  induction lines as [|[raw n] lines IH]; intros open skip rest; [discriminate|].
  cbn [spec_run]. destruct skip as [|k]; [|apply IH].
  destruct (line_kind raw) as [| |st w|st w|w|st|line].
  - apply IH.
  - destruct (_process_python_block lines) as [[blk rest0]| |]; try discriminate.
    rewrite snd_emit. apply IH.
  - rewrite snd_emit. apply IH.
  - destruct (open_word None open); [|discriminate].
    destruct (opt_string_eqb _ _); [|discriminate]. rewrite snd_emit. apply IH.
  - destruct open as [|f open]; cbn [open_word]; [discriminate|].
    destruct (String.eqb w (fst f)); [|discriminate]. rewrite snd_emit. apply IH.
  - rewrite snd_emit. apply IH.
  - rewrite snd_emit. apply IH.
Qed.

(** X11.  The recursive parser followed by the generator does what a run over
    the lines, one at a time with a stack of open blocks, does.  When the
    run reaches the end of the input, the parse succeeds with nothing
    left, the generated lines are those the run emitted, with their
    depths, and [execute] goes on with their text; when the run stops at
    a keyword that does not match, [execute] prints a parse error for
    that line and exits; when it stops in a verbatim block without an end
    marker, [execute] ends with an uncaught [IndexError].  Nothing else
    happens. *)
Theorem execute_agrees_with_line_run (p : PYPParser) :
  match snd (spec_run_root (textlines p)) with
  | AtEnd _ =>
      exists tree,
        parse (PythonSequence_init 1) (textlines p) = Ok (tree, [])
        /\ get_lines tree 0 = fst (spec_run_root (textlines p))
        /\ execute p
           = Generated (set_parser_line_map p (python_line_map tree))
               (join NL (map get_indented (fst (spec_run_root (textlines p)))))
  | Closed _ => False
  | Mismatch raw n =>
      exists msg,
        execute p = Exit1 (parse_error_report p msg (replace DUMMYTEXT "" raw) n)
  | Unterminated => execute p = Uncaught IndexError
  end.
Proof.
  pose proof (KeywordFacts.parse_root_refines (textlines p)) as H.
  unfold outcome_ok in H.
  pose proof (spec_run_never_closed line_to_pythonstatement false 0 (textlines p) [] 0)
    as Hc.
  fold (spec_run_root (textlines p)) in Hc.
  unfold execute. fold (parse (PythonSequence_init 1) (textlines p)).
  destruct (snd (spec_run_root (textlines p))) as [open|rest|raw n|].
  - destruct H as (tree & Hp & _ & _ & _ & _ & Hl). exists tree. split; [exact Hp|].
    rewrite Hp. unfold get_python_text. rewrite Hl. split; reflexivity.
  - exact (Hc rest eq_refl).
  - destruct H as [msg ->]. now exists msg.
  - now rewrite H.
Qed.

End TranslationFacts.
Local Close Scope string_scope.

(** ** The generated text has one physical line for each generated line *)

Module NewlineFacts.
Import StrFacts.

Lemma one_line_app (a b : string) : one_line (a +:+ b) <-> one_line a /\ one_line b.
Proof. unfold one_line. rewrite count_char_app. lia. Qed.

Lemma one_line_cons (c : ascii) (s : string) :
  one_line (String c s) <-> Ascii.eqb LF c = false /\ one_line s.
Proof.
  unfold one_line. cbn [count_char]. destruct (Ascii.eqb LF c); split; intros H.
  - discriminate.
  - destruct H; discriminate.
  - now split.
  - now destruct H.
Qed.

Lemma one_line_drop (n : nat) (s : string) : one_line s -> one_line (drop n s).
Proof.
  revert s. induction n as [|n IH]; intros s H; [exact H|].
  destruct s as [|c s]; [exact H|]. apply one_line_cons in H as [_ H]. now apply IH.
Qed.

Lemma one_line_replace_from (old new : string) (s : string) :
  one_line new -> forall k, one_line s -> one_line (replace_from old new k s).
Proof.
  intros Hnew. induction s as [|c s IH]; intros k H; [exact H|].
  apply one_line_cons in H as [Hc H]. cbn [replace_from].
  destruct k as [|k]; [|now apply IH].
  destruct (String.prefix old (String c s)).
  - apply one_line_app. split; [exact Hnew | now apply IH].
  - apply one_line_cons. split; [exact Hc | now apply IH].
Qed.

Lemma one_line_replace (old new s : string) :
  one_line new -> one_line s -> one_line (replace old new s).
Proof. intros Hn Hs. now apply one_line_replace_from. Qed.

Lemma one_line_replace_first (old new s : string) :
  one_line new -> one_line s -> one_line (replace_first old new s).
Proof.
  intros Hnew. induction s as [|c s IH]; intros H; [exact H|].
  cbn [replace_first]. destruct (String.prefix old (String c s)).
  - apply one_line_app. split; [exact Hnew | now apply one_line_drop].
  - apply one_line_cons in H as [Hc H]. apply one_line_cons. split; [exact Hc | now apply IH].
Qed.

Lemma one_line_skip_space (s : string) : one_line s -> one_line (Re.skip_space s).
Proof.
  induction s as [|c s IH]; intros H; [exact H|]. cbn [Re.skip_space].
  destruct (Re.is_space c); [|exact H]. apply one_line_cons in H as [_ H]. now apply IH.
Qed.

Lemma one_line_dot_star (s : string) : one_line (Re.dot_star s).
Proof.
  induction s as [|c s IH]; [reflexivity|]. cbn [Re.dot_star].
  destruct (Ascii.eqb c LF) eqn:Hc; [reflexivity|].
  apply one_line_cons. split; [|exact IH]. now rewrite Ascii.eqb_sym.
Qed.

Lemma one_line_dot_star_colon (s m : string) :
  Re.dot_star_colon s = Some m -> one_line m.
Proof.
  revert m. induction s as [|c s IH]; intros m; [discriminate|].
  cbn [Re.dot_star_colon]. destruct (Ascii.eqb c LF) eqn:Hc; [discriminate|].
  assert (Ascii.eqb LF c = false) as Hc' by now rewrite Ascii.eqb_sym.
  destruct (Re.dot_star_colon s) as [m'|].
  - intros [= <-]. apply one_line_cons. split; [exact Hc' | now apply IH].
  - destruct (Ascii.eqb c ":"); [|discriminate]. intros [= <-].
    apply one_line_cons. now split.
Qed.

Lemma one_line_sub_space_run (n : nat) (s : string) :
  one_line s -> one_line (sub_space_run n s).
Proof.
  induction s as [|c s IH]; intros H.
  - cbn [sub_space_run]. destruct (n <=? _)%nat; [now apply one_line_drop | exact H].
  - cbn [sub_space_run]. destruct (n <=? _)%nat; [now apply one_line_drop|].
    apply one_line_cons in H as [Hc H]. apply one_line_cons. split; [exact Hc | now apply IH].
Qed.

Lemma one_line_sub_space_None (s : string) :
  one_line s -> one_line (sub_space_None s).
Proof.
  induction s as [|c s IH]; intros H; [exact H|]. cbn [sub_space_None].
  apply one_line_cons in H as [Hc H].
  destruct (_ && _); [now apply one_line_drop|].
  apply one_line_cons. split; [exact Hc | now apply IH].
Qed.

Lemma one_line_times (s : string) (n : nat) : one_line s -> one_line (times s n).
Proof.
  intros H. induction n as [|n IH]; [reflexivity|]. cbn [times].
  apply one_line_app. now split.
Qed.

Lemma one_line_join (sep : string) (l : list string) :
  one_line sep -> Forall one_line l -> one_line (join sep l).
Proof.
  intros Hsep. induction 1 as [|a l Ha Hl IH]; [reflexivity|].
  rewrite JoinFacts.join_cons. destruct l as [|b l]; [exact Ha|].
  apply one_line_app. split; [exact Ha|]. apply one_line_app. now split.
Qed.

Lemma one_line_assemble (segs : list (string * string)) (tail : string) :
  one_line (assemble segs tail) ->
  Forall (fun seg => one_line (fst seg) /\ one_line (snd seg)) segs /\ one_line tail.
Proof.
  induction segs as [|[t e] segs IH]; intros H; [split; [constructor | exact H]|].
  cbn [assemble fold_right fst snd] in H. fold (assemble segs tail) in H.
  apply one_line_app in H as [Ht H]. apply one_line_app in H as [He H].
  destruct (IH H) as [Hsegs Htail]. split; [|exact Htail].
  constructor; [|exact Hsegs]. split; [exact Ht|]. cbn [snd].
  unfold marker in He. apply one_line_app in He as [_ He].
  now apply one_line_app in He as [He _].
Qed.

Lemma one_line_scan (s : string) :
  one_line s ->
  Forall (fun seg => one_line (fst seg) /\ one_line (snd seg)) (fst (EXPR_REGEX_scan s))
  /\ one_line (snd (EXPR_REGEX_scan s)).
Proof. intros H. apply one_line_assemble. now rewrite ExprFacts.scan_reassemble. Qed.

Lemma one_line_sub (repl : string -> string) (s : string) :
  (forall e, one_line e -> one_line (repl e)) ->
  one_line s -> one_line (EXPR_REGEX_sub repl s).
Proof.
  intros Hrepl H. destruct (one_line_scan s H) as [Hsegs Htail].
  unfold EXPR_REGEX_sub. induction Hsegs as [|[t e] segs [Ht He] _ IH]; [exact Htail|].
  cbn [fold_right fst snd] in *. apply one_line_app. split; [exact Ht|].
  apply one_line_app. split; [now apply Hrepl | exact IH].
Qed.

Lemma one_line_escape_quotes (s : string) : one_line s -> one_line (escape_quotes s).
Proof.
  intros H. unfold escape_quotes. repeat apply one_line_replace; try reflexivity. exact H.
Qed.

Lemma one_line_statement (is_pypdef : bool) (line : string) :
  one_line line -> one_line (line_to_pythonstatement is_pypdef line).
Proof.
  intros H. unfold line_to_pythonstatement. cbv zeta.
  apply one_line_app. split; [now destruct is_pypdef|].
  apply one_line_app. split; [reflexivity|].
  apply one_line_app. split; [|reflexivity].
  destruct (EXPR_REGEX_findall line) as [|e es] eqn:Hf.
  - apply one_line_app. split; [reflexivity|].
    apply one_line_app. split; [now apply one_line_escape_quotes | reflexivity].
  - rewrite <- Hf. clear Hf e es.
    apply one_line_app. split.
    + apply one_line_app. split; [reflexivity|].
      apply one_line_app. split; [|reflexivity].
      apply one_line_escape_quotes, one_line_sub; [reflexivity|].
      now apply one_line_replace.
    + apply one_line_app. split; [reflexivity|].
      apply one_line_app. split; [reflexivity|].
      apply one_line_app. split; [|reflexivity].
      apply one_line_join; [reflexivity|].
      rewrite !Forall_map. destruct (one_line_scan line H) as [Hsegs _].
      unfold EXPR_REGEX_findall. rewrite Forall_map.
      eapply Forall_impl; [exact Hsegs|]. intros [t e] [_ He]. cbn [snd] in *.
      apply one_line_app. split; [reflexivity|].
      apply one_line_app. split; [|reflexivity].
      unfold clean_expr. now repeat apply one_line_replace.
Qed.


Lemma keywords_one_line :
  Forall one_line python_startblock_keywords /\ Forall one_line middle_keywords.
Proof. split; repeat constructor. Qed.

Lemma one_line_keyword_colon (keys : list string) (s st w : string) :
  Forall one_line keys -> Re.keyword_colon keys s = Some (st, w) -> one_line st.
Proof.
  intros Hkeys H.
  destruct (AlternationFacts.keyword_colon_some _ _ _ _ H) as (Hin & _ & m & Hm & ->).
  apply one_line_app. split.
  - rewrite List.Forall_forall in Hkeys. now apply Hkeys.
  - exact (one_line_dot_star_colon _ _ Hm).
Qed.

Lemma one_line_percent_prefix (s r : string) :
  one_line s -> Re.percent_prefix s = Some r -> one_line r.
Proof.
  intros H. unfold Re.percent_prefix. pose proof (one_line_skip_space s H) as Hs.
  destruct (Re.skip_space s) as [|c r0]; [discriminate|].
  apply one_line_cons in Hs as [_ Hs].
  destruct c as [[] [] [] [] [] [] [] []]; try discriminate.
  intros [= <-]. now apply one_line_skip_space.
Qed.

Lemma line_kind_one_line (raw : string) :
  one_line raw ->
  match line_kind raw with
  | KStart st _ | KMiddle st _ | KPython st | KLiteral st => one_line st
  | _ => True
  end.
Proof.
  intros Hraw. unfold line_kind.
  destruct (_ || _); [exact I|]. cbv zeta.
  assert (one_line (replace DUMMYTEXT "" raw)) as H
    by (apply one_line_replace; [reflexivity | exact Hraw]).
  destruct (PYTHON_BLOCK_START_REGEX _); [exact I|].
  unfold CONTROL_START_REGEX, CONTROL_MIDDLE_REGEX, CONTROL_END_REGEX,
    NORMAL_PYTHON_LINE_REGEX.
  destruct (Re.percent_prefix (replace DUMMYTEXT "" raw)) as [r|] eqn:Hr; [|exact H].
  pose proof (one_line_percent_prefix _ _ H Hr) as Hr1.
  destruct (Re.keyword_colon python_startblock_keywords r) as [[st w]|] eqn:Hs.
  { exact (one_line_keyword_colon _ _ _ _ (proj1 keywords_one_line) Hs). }
  destruct (Re.keyword_colon middle_keywords r) as [[st w]|] eqn:Hm.
  { exact (one_line_keyword_colon _ _ _ _ (proj2 keywords_one_line) Hm). }
  destruct (if String.prefix "end" r then _ else _); [exact I|].
  apply one_line_dot_star.
Qed.

Lemma line_ok_set_indent (l : PythonLine) (d : nat) : line_ok l -> line_ok (set_indent l d).
Proof. unfold line_ok, set_indent. now destruct (noindent l). Qed.

Lemma line_ok_statement_at (d : nat) (s : string) : one_line s -> line_ok (statement_at d s).
Proof. intros H. exact H. Qed.

Lemma one_line_get_indented (l : PythonLine) : line_ok l -> one_line (get_indented l).
Proof.
  intros H. unfold get_indented. apply one_line_app. split; [|exact H].
  now apply one_line_times.
Qed.

Lemma loop_one_line (lines : list SourceLine) :
  forall ms a b blk ms' rest,
    process_python_block_loop lines ms a b = Some (blk, ms', rest) ->
    lines_one_line lines ->
    Forall (fun e : PythonLine * Z => line_ok (fst e)) blk.
Proof.
  induction lines as [|[line n] lines IH]; intros ms a b blk ms' rest H Hl;
    [discriminate|].
  inversion Hl as [|? ? Hn Hl']; subst. cbn [process_python_block_loop] in H.
  destruct (PYTHON_BLOCK_END_REGEX line).
  - injection H as <- <- <-. constructor.
  - match type of H with
    | match ?x with _ => _ end = _ => destruct x as [[[blk0 ms0] rest0]|] eqn:Hrec
    end; [|discriminate].
    injection H as <- <- <-. constructor; [exact Hn|]. exact (IH _ _ _ _ _ _ Hrec Hl').
Qed.

Lemma block_one_line (lines : list SourceLine) blk rest :
  _process_python_block lines = Ok (blk, rest) ->
  lines_one_line lines ->
  Forall (fun e : PythonLine * Z => line_ok (fst e)) blk.
Proof.
  unfold _process_python_block.
  destruct (process_python_block_loop lines None false false)
    as [[[blk0 ms0] rest0]|] eqn:H; [|discriminate].
  intros [= <- <-] Hl. apply Forall_fmap.
  eapply Forall_impl; [exact (loop_one_line _ _ _ _ _ _ _ H Hl)|].
  intros [pl n] Hq. cbn in *. unfold fix_indent. destruct (noindent pl); [exact Hq|].
  cbn. unfold line_ok in *. cbn. destruct ms0; cbn.
  - now apply one_line_sub_space_run.
  - now apply one_line_sub_space_None.
Qed.

Lemma emit_ok (o : list PythonLine) (r : list PythonLine * SpecStop) :
  Forall line_ok o -> Forall line_ok (fst r) -> Forall line_ok (fst (emit o r)).
Proof. intros Ho Hr. cbn. apply Forall_app. now split. Qed.

(** Lines without a newline are translated into lines without one. *)
Lemma spec_run_one_line base bacc bd (lines : list SourceLine) :
  lines_one_line lines ->
  forall open skip,
    Forall line_ok (fst (spec_run line_to_pythonstatement base bacc bd open skip lines)).
Proof.
  induction 1 as [|[raw n] lines Hraw Hlines IH]; intros open skip; [constructor|].
  cbn [spec_run]. destruct skip as [|k]; [|apply IH]. cbn [fst] in Hraw.
  pose proof (line_kind_one_line raw Hraw) as Hk.
  destruct (line_kind raw) as [| |st w|st w|w|st|line].
  - apply IH.
  - destruct (_process_python_block lines) as [[blk rest0]| |] eqn:Hb; try constructor.
    apply emit_ok; [|apply IH]. apply Forall_fmap.
    eapply Forall_impl; [exact (block_one_line _ _ _ Hb Hlines)|].
    intros e He. now apply line_ok_set_indent.
  - apply emit_ok; [|apply IH]. constructor.
    + apply line_ok_statement_at. destruct (String.eqb w "pypdef"); [|exact Hk].
      apply one_line_replace_first; [reflexivity | exact Hk].
    + destruct (String.eqb w "pypdef"); repeat constructor.
  - destruct (open_word base open); [|constructor].
    destruct (opt_string_eqb _ _); [|constructor].
    apply emit_ok; [|apply IH]. now repeat constructor.
  - assert (Forall line_ok
              (if String.eqb w "pypdef"
               then [statement_at (open_depth bd open) OUTPUT_RETURN] else [])) as Hret
      by (destruct (String.eqb w "pypdef"); repeat constructor).
    destruct (open_word base open) as [cw|]; [|exact Hret].
    destruct (String.eqb w cw); [|exact Hret].
    destruct open as [|f open]; [exact Hret|]. apply emit_ok; [exact Hret | apply IH].
  - apply emit_ok; [|apply IH]. now repeat constructor.
  - apply emit_ok; [|apply IH]. repeat constructor.
    apply line_ok_statement_at. now apply one_line_statement.
Qed.

Lemma split_one_line (c : ascii) (s : string) :
  count_char c s = 0%nat -> split_char c s = [s].
Proof.
  induction s as [|d s IH]; [reflexivity|]. cbn [count_char split_char].
  destruct (Ascii.eqb c d); [discriminate|]. intros H. now rewrite (IH H).
Qed.

Lemma split_app_line (c : ascii) (a rest : string) :
  count_char c a = 0%nat ->
  split_char c (a +:+ String c rest) = a :: split_char c rest.
Proof.
  induction a as [|d a IH]; intros H.
  - rewrite app_nil_l. cbn [split_char]. now rewrite Ascii.eqb_refl.
  - cbn [count_char] in H. rewrite app_cons. cbn [split_char].
    destruct (Ascii.eqb c d); [discriminate|]. now rewrite (IH H).
Qed.

Lemma split_join (l : list string) :
  Forall one_line l -> l <> [] -> split_char LF (join NL l) = l.
Proof.
  induction 1 as [|a l Ha Hl IH]; intros Hne; [congruence|].
  rewrite JoinFacts.join_cons. destruct l as [|b l]; [now apply split_one_line|].
  change (a +:+ NL +:+ join NL (b :: l))%string
    with (a +:+ String LF (join NL (b :: l)))%string.
  rewrite split_app_line by exact Ha. f_equal. now apply IH.
Qed.

Lemma split_lines_one_line (s : string) : Forall one_line (split_char LF s).
Proof.
  induction s as [|d s IH]; [repeat constructor|].
  destruct (JoinFacts.split_char_cons LF d s) as [_ ->].
  destruct (Ascii.eqb LF d) eqn:Hd; [now constructor|].
  destruct (split_char LF s) as [|w ws]; [repeat constructor; now apply one_line_cons|].
  inversion IH as [|? ? Hw Hws]; subst. constructor; [|exact Hws].
  apply one_line_cons. now split.
Qed.

Lemma textlines_one_line (raw : string) : lines_one_line (PYPParser_textlines raw).
Proof.
  unfold lines_one_line, PYPParser_textlines. apply Forall_lookup_2.
  intros i [line z] Hi. apply lookup_zip_with_Some in Hi
    as (l' & z' & [= <- <-] & Hl & Hz). cbn [fst].
  exact (Forall_lookup_1 _ _ _ _ (split_lines_one_line _) Hl).
Qed.

(** X13.  The generated program, as a text, has one physical line for each
    generated line, in order: no statement the parser builds holds a
    newline.  So the keys of the line map, which count generated lines,
    are numbers of physical lines of the generated module, which is what
    the line numbers of its syntax errors and tracebacks count. *)
Theorem generated_text_lines (raw : string) (dbg : bool) (input : string)
    (p' : PYPParser) (python_text : string) :
  execute (PYPParser_init raw dbg input) = Generated p' python_text ->
  exists tree,
    parse (PythonSequence_init 1) (PYPParser_textlines raw) = Ok (tree, [])
    /\ python_text = get_python_text tree
    /\ (get_lines tree 0 <> [] ->
        split_char LF python_text = map get_indented (get_lines tree 0))
    /\ forall g s,
        parser_line_map p' !! g = Some s ->
        1 <= g /\ is_Some (split_char LF python_text !! Z.to_nat (g - 1)).
Proof.
  unfold execute. cbn [textlines PYPParser_init].
  fold (parse (PythonSequence_init 1) (PYPParser_textlines raw)).
  pose proof (KeywordFacts.parse_root_refines (PYPParser_textlines raw)) as Href.
  pose proof (TranslationFacts.spec_run_never_closed line_to_pythonstatement false 0
                (PYPParser_textlines raw) [] 0) as Hc.
  fold (spec_run_root (PYPParser_textlines raw)) in Hc.
  pose proof (spec_run_one_line None false 0 _ (textlines_one_line raw) [] 0) as Hok.
  fold (spec_run_root (PYPParser_textlines raw)) in Hok.
  unfold outcome_ok in Href.
  destruct (parse (PythonSequence_init 1) (PYPParser_textlines raw))
    as [[tree rest]|[]|] eqn:Hp; try discriminate.
  intros [= <- <-].
  destruct (snd (spec_run_root (PYPParser_textlines raw))) as [open|rest'|r n|].
  2: { exfalso. exact (Hc rest' eq_refl). }
  2: { destruct Href as [msg Hm]. discriminate. }
  2: { discriminate. }
  destruct Href as (tree' & [= <- <-] & _ & _ & _ & _ & Hl).
  change (get_lines (PythonSequence_init 1) 0) with (@nil PythonLine) in Hl.
  cbn [app] in Hl. rewrite <- Hl in Hok.
  exists tree. split; [reflexivity|]. split; [reflexivity|].
  assert (get_lines tree 0 <> [] ->
          split_char LF (get_python_text tree) = map get_indented (get_lines tree 0))
    as Hsplit.
  { intros Hne. unfold get_python_text. apply split_join.
    - apply Forall_fmap. eapply Forall_impl; [exact Hok|].
      intros l. apply one_line_get_indented.
    - destruct (get_lines tree 0); [congruence | discriminate]. }
  split; [exact Hsplit|]. intros g s Hg.
  destruct (CounterFacts.parse_lines_counted _ _ _ _ _ 1 0%nat Hp
              (CounterFacts.root_counted 1 0)) as [(_ & Hnum & Hkeys) _].
  cbn [parser_line_map set_parser_line_map] in Hg.
  specialize (Hkeys g s Hg). cbn in Hkeys. split; [lia|].
  rewrite Hsplit by (intros E; rewrite E in Hnum; cbn in Hnum; lia).
  apply lookup_lt_is_Some_2. rewrite length_map. lia.
Qed.

Lemma generated_text_lines_witness :
  execute (PYPParser_init joined_example_text false "t.pyp")
  = Generated joined_example "_PRINT('%s' % ((x y),))"
  /\ exists tree,
      parse (PythonSequence_init 1) (PYPParser_textlines joined_example_text)
      = Ok (tree, [])
      /\ "_PRINT('%s' % ((x y),))"%string = get_python_text tree.
Proof.
  assert (execute (PYPParser_init joined_example_text false "t.pyp")
          = Generated joined_example "_PRINT('%s' % ((x y),))") as H
    by (vm_compute; reflexivity).
  split; [exact H|].
  destruct (generated_text_lines joined_example_text false "t.pyp" joined_example _ H)
    as (tree & Hp & Ht & _).
  exists tree. split; [exact Hp | exact Ht].
Defined.

End NewlineFacts.
Local Close Scope string_scope.

(** ** Keywords: what counts as one, and which middle goes with which start *)

Module FamilyFacts.
Import ParseFacts.

Lemma skip_space_text (c : ascii) (s : string) :
  Re.is_space c = false -> Re.skip_space (String c s) = String c s.
Proof. intros H. cbn [Re.skip_space]. now rewrite H. Qed.

Lemma keyword_starts_with_text (k : string) :
  In k (python_startblock_keywords ++ middle_keywords) ->
  exists c k', k = String c k' /\ Re.is_space c = false.
Proof.
  intros H. cbn in H.
  repeat (destruct H as [<-|H]; [eexists _, _; split; reflexivity|]). destruct H.
Qed.

Lemma percent_prefix_keyword (k s : string) :
  In k (python_startblock_keywords ++ middle_keywords) ->
  Re.percent_prefix ("%" +:+ k +:+ s) = Some (k +:+ s)%string.
Proof.
  intros H. destruct (keyword_starts_with_text k H) as (c & k' & -> & Hc).
  unfold Re.percent_prefix.
  change ("%" +:+ String c k' +:+ s)%string with (String "%" (String c (k' +:+ s))).
  rewrite (skip_space_text "%") by reflexivity.
  now rewrite (skip_space_text c) by exact Hc.
Qed.

(** X4.  The control patterns ask for no word boundary after the keyword.  A
    line whose text after the percent sign merely begins with the letters
    of a start keyword, and has a colon further on, opens a block of that
    keyword; one that begins with [end] and the letters of a start
    keyword closes one, whatever follows. *)
Theorem keywords_match_as_prefixes (k s : string) :
  In k python_startblock_keywords ->
  (forall m, Re.dot_star_colon s = Some m ->
             CONTROL_START_REGEX ("%" +:+ k +:+ s) = Some ((k +:+ m)%string, k))
  /\ CONTROL_END_REGEX ("%end" +:+ k +:+ s) = Some k.
Proof.
  intros Hk. split.
  - intros m Hm. unfold CONTROL_START_REGEX.
    rewrite percent_prefix_keyword by (apply in_or_app; now left).
    apply AlternationFacts.keyword_colon_found.
    + apply AlternationFacts.start_keywords_prefix_free.
    + exact Hk.
    + apply StrFacts.prefix_app.
    + now rewrite StrFacts.drop_app.
  - unfold CONTROL_END_REGEX.
    change ("%end" +:+ k +:+ s)%string with (String "%" ("end" +:+ k +:+ s)).
    unfold Re.percent_prefix. rewrite (skip_space_text "%") by reflexivity.
    change (Re.skip_space ("end" +:+ k +:+ s)) with ("end" +:+ k +:+ s)%string.
    rewrite StrFacts.prefix_app.
    change (drop 3 ("end" +:+ k +:+ s)) with (k +:+ s)%string.
    apply AlternationFacts.keyword_found.
    + apply AlternationFacts.start_keywords_prefix_free.
    + exact Hk.
    + apply StrFacts.prefix_app.
Qed.

Lemma keywords_match_as_prefixes_witness :
  In "for"%string python_startblock_keywords
  /\ CONTROL_START_REGEX "%format(x[1:2])" = Some ("format(x[1:"%string, "for"%string)
  /\ CONTROL_END_REGEX "%endfor_all()" = Some "for"%string.
Proof.
  assert (In "for"%string python_startblock_keywords) as H by (now left).
  split; [exact H|]. split.
  - exact (proj1 (keywords_match_as_prefixes "for" "mat(x[1:2])" H) "mat(x[1:" eq_refl).
  - exact (proj2 (keywords_match_as_prefixes "for" "_all()" H)).
Defined.

(** X5.  Middle keywords belong to one start keyword each: [elif] and [else]
    to [if], [except] and [finally] to [try].  In a block opened by any
    other keyword a middle keyword line is a parse error at that line: a
    loop or a [try] cannot have an [else] branch. *)
Theorem middle_keyword_family (self : PythonSequence) (raw st m w : string) (n : Z)
    (rest : list SourceLine) :
  line_kind raw = KMiddle st m ->
  control_word self = Some w ->
  MIDDLE2START_MAP m <> Some w ->
  parse self ((raw, n) :: rest)
  = Raise (ParseError
             ("Middle control word (" +:+ m +:+ ") doesn't match current block " +:+
              current_block_text (map_increment_linenum self n))
             (replace DUMMYTEXT "" raw) n).
Proof.
  intros Hk Hw Hm. unfold parse. rewrite parse_lines_step, Hk, Hw.
  assert (opt_string_eqb (MIDDLE2START_MAP m) w = false) as ->; [|reflexivity].
  destruct (MIDDLE2START_MAP m) as [x|]; [|reflexivity]. cbn.
  destruct (String.eqb_spec x w); [congruence | reflexivity].
Qed.

Lemma middle_keyword_family_witness :
  line_kind "% else:" = KMiddle "else:" "else"
  /\ control_word
       (PythonIndentedSequence_init (PythonLine_init "for x in y:" false) "for" 2 false 1)
     = Some "for"%string
  /\ MIDDLE2START_MAP "else" <> Some "for"%string
  /\ exists msg,
      parse
        (PythonIndentedSequence_init (PythonLine_init "for x in y:" false) "for" 2 false 1)
        [("% else:", 3)]
      = Raise (ParseError msg "% else:" 3).
Proof.
  assert (MIDDLE2START_MAP "else" <> Some "for"%string) as Hm by discriminate.
  split; [reflexivity|]. split; [reflexivity|]. split; [exact Hm|].
  eexists.
  exact (middle_keyword_family
           (PythonIndentedSequence_init (PythonLine_init "for x in y:" false) "for" 2
              false 1)
           "% else:" "else:" "else" "for" 3 [] eq_refl eq_refl Hm).
Defined.

End FamilyFacts.
